(** * The quote / payment / job settlement pipeline of bitcoin-metered-api

    A shallow embedding of [src/payments/quotes.ts], [src/db/database.ts],
    [src/ark/aspClient.ts], [src/ark/verify.ts], [src/worker/jobs.ts] and the
    [POST /v1/paycall] handler of [src/api/handlers.ts], followed by the
    properties of the settlement pipeline that were checked against it.

    Conventions of the embedding.
    - A JavaScript number is [NaN] or a finite double, represented by its
    value in [Q]; the result of an arithmetic operation is rounded to the
    nearest double ([IEEE.fl]).  Infinities and the sign of zero are not
    represented.
    - A string is the sequence of the UTF-8 bytes of its text; [.length]
    counts UTF-16 code units ([utf16_length]).
    - An instant is its number of milliseconds since the epoch ([Z]); the
    ISO-8601 text that the code stores for it is represented by that number.
    - JSON text is represented by the value it denotes: [JSON_stringify]
    performs the losses of serialisation and [JSON_parse] is the identity.
    - The SQLite file is a record of four finite maps keyed by primary key.
    - Random identifiers ([nanoid]) and clock readings are inputs. *)

From Stdlib Require Import ZArith NArith QArith Qround Qabs Qpower String Ascii List Bool Lia Lqa.
From Stdlib Require Import Hexadecimal HexadecimalN HexadecimalString.
From Stdlib Require Import Decimal DecimalZ DecimalString.
From stdpp Require Import base option gmap strings list fin_maps.
Import ListNotations.

Local Open Scope string_scope.
Local Open Scope Z_scope.

Set Warnings "-register-all".

(** ** Double-precision arithmetic *)

Module IEEE.

(** The arithmetic of JavaScript numbers is that of IEEE 754 binary64: the
    result of an operation is the exact result rounded to the nearest
    double, a tie going to the double whose last bit is zero.  A finite
    double is a whole multiple [m * 2^e] with [|m| < 2^53] and [e >= -1074];
    numbers are represented by their value in [Q].  Results whose magnitude
    exceeds the largest double are [Infinity] in the engine; such results,
    infinite operands and the sign of zero are outside this model, and the
    statements about arithmetic bound their operands accordingly. *)

Definition pow2 (e : Z) : Q := (2 ^ e)%Q.

(** [floor (log2 |q|)] for [q] other than zero. *)
Definition ilog2 (q : Q) : Z :=
  let k := Z.log2 (Z.abs (Qnum q)) - Z.log2 (Z.pos (Qden q)) in
  if Qle_bool (pow2 k) (Qabs q) then k else k - 1.

(** The nearest integer, a tie going to the even one. *)
Definition round_half_even (q : Q) : Z :=
  let f := Qfloor q in
  let r := (q - inject_Z f)%Q in
  if Qle_bool r (1 # 2)
  then if Qle_bool (1 # 2) r then (if Z.even f then f else f + 1) else f
  else f + 1.

(** The exponent of the last place of the doubles near [q]: 53 significant
    bits, and the subnormal doubles below [2^-1022] all at [2^-1074]. *)
Definition last_place (q : Q) : Z := Z.max (-1074) (ilog2 q - 52).

(** The double nearest to [q], as a fraction in lowest terms. *)
Definition fl (q : Q) : Q :=
  if Qeq_bool q 0 then 0%Q
  else
    let e := last_place q in
    Qred (inject_Z (round_half_even (q / pow2 e)) * pow2 e)%Q.

(** The largest double, [(2^53 - 1) * 2^971]. *)
Definition max_value : Q := (inject_Z (2 ^ 53 - 1) * pow2 971)%Q.

(** [a * b] and [a / b] on numbers. *)
Definition mul (a b : Q) : Q := fl (a * b).
Definition div (a b : Q) : Q := fl (a / b).

End IEEE.

(** ** JavaScript values *)

Module JS.

Inductive jsnum : Type :=
| NaN
| Num (q : Q).

Inductive jsval : Type :=
| JUndefined
| JNull
| JBool (b : bool)
| JNum (n : jsnum)
| JStr (s : string)
| JArr (items : list jsval)
| JObj (fields : list (string * jsval)).

(** [x * y] on numbers. *)
Definition num_mul (x y : jsnum) : jsnum :=
  match x, y with
  | Num a, Num b => Num (IEEE.mul a b)
  | _, _ => NaN
  end.

(** ToBoolean on a number: [0] and [NaN] are falsy. *)
Definition truthy_Q (q : Q) : bool := negb (Qeq_bool q 0).

Definition truthy_num (n : jsnum) : bool :=
  match n with
  | NaN => false
  | Num q => truthy_Q q
  end.

(** [s.length], the number of UTF-16 code units of the text: of its UTF-8
    bytes, one that continues a character counts for none, one that starts a
    character of four bytes (a surrogate pair) for two, any other for one. *)
Definition utf16_units (c : ascii) : nat :=
  let n := nat_of_ascii c in
  if (n <? 128)%nat then 1%nat
  else if (n <? 192)%nat then 0%nat
  else if (n <? 240)%nat then 1%nat
  else 2%nat.

Fixpoint utf16_length (s : string) : nat :=
  match s with
  | EmptyString => 0%nat
  | String c rest => (utf16_units c + utf16_length rest)%nat
  end.

Definition truthy_string (s : string) : bool :=
  match s with
  | EmptyString => false
  | _ => true
  end.

(** ToBoolean. *)
Definition truthy (v : jsval) : bool :=
  match v with
  | JUndefined | JNull => false
  | JBool b => b
  | JNum n => truthy_num n
  | JStr s => truthy_string s
  | JArr _ | JObj _ => true
  end.

(** [fields.k] on the own properties of an object literal or of a parsed
    JSON object: the value of the property, [undefined] when absent. *)
Fixpoint get_field (k : string) (fields : list (string * jsval)) : jsval :=
  match fields with
  | [] => JUndefined
  | (k', v) :: rest => if String.eqb k k' then v else get_field k rest
  end.

(** [v.k] for a value that is known to be an object; reading a property of
    a primitive that has no such property gives [undefined]. *)
Definition prop (v : jsval) (k : string) : jsval :=
  match v with
  | JObj fields => get_field k fields
  | _ => JUndefined
  end.

(** [a || b]. *)
Definition or_else (a b : jsval) : jsval := if truthy a then a else b.

(** What [JSON.stringify] keeps of a value: [NaN] becomes [null], an
    [undefined] array element becomes [null], a property whose value is
    [undefined] is left out. *)
Fixpoint JSON_stringify (v : jsval) : jsval :=
  match v with
  | JNum NaN => JNull
  | JArr items =>
      JArr (map (fun x => match x with
                          | JUndefined => JNull
                          | _ => JSON_stringify x
                          end) items)
  | JObj fields =>
      JObj (flat_map (fun p => match p with
                               | (_, JUndefined) => []
                               | (k, x) => [(k, JSON_stringify x)]
                               end) fields)
  | _ => v
  end.

Definition JSON_parse (text : jsval) : jsval := text.

(** The names every object inherits from [Object.prototype]: a lookup
    [TABLE[name]] in a table written as an object literal finds them even
    though the table does not list them. *)
Definition object_prototype_names : list string :=
    [ "constructor"; "__defineGetter__"; "__defineSetter__"; "hasOwnProperty";
    "__lookupGetter__"; "__lookupSetter__"; "isPrototypeOf";
    "propertyIsEnumerable"; "toString"; "valueOf"; "__proto__";
    "toLocaleString" ].

Definition inherited_name (k : string) : bool :=
  existsb (String.eqb k) object_prototype_names.

(** Result of [TABLE[k]] for a table given by its own entries. *)
Inductive member (A : Type) : Type :=
| Own (a : A)
| Inherited
| Absent.
Arguments Own {A} a.
Arguments Inherited {A}.
Arguments Absent {A}.

Definition table_get {A : Type} (own : string -> option A) (k : string)
  : member A :=
  match own k with
  | Some a => Own a
  | None => if inherited_name k then Inherited else Absent
  end.

End JS.
Import JS.

(** ** Pricing ([src/payments/quotes.ts], [PRICING_RULES]) *)

Module Pricing.

(** [Record<string, number>]. *)
Abbreviation units_t := (gmap string Q).

(** [units.k || dflt]: the stored count unless it is absent or zero. *)
Definition unit_or (units : units_t) (k : string) (dflt : Q) : Q :=
  match units !! k with
  | Some q => if truthy_Q q then q else dflt
  | None => dflt
  end.

(** [Math.ceil]: the least whole number not below its argument, itself a
    double whenever the argument is one. *)
Definition Math_ceil (q : Q) : Q := inject_Z (Qceiling q).

Definition summarize (units : units_t) : Q :=
  let tokens := unit_or units "tokens" 1000 in
  Math_ceil (IEEE.mul (IEEE.div tokens 100) 5).

Definition generate_image (units : units_t) : Q :=
  let images := unit_or units "images" 1 in
  IEEE.mul images 50.

Definition translate (units : units_t) : Q :=
  let chars := unit_or units "characters" 500 in
  Math_ceil (IEEE.mul (IEEE.div chars 100) 3).

Definition compute (units : units_t) : Q :=
  let seconds := unit_or units "seconds" 1 in
  IEEE.mul seconds 10.

Definition default (units : units_t) : Q :=
  let amount := unit_or units "amount" 1 in
  IEEE.mul amount 10.

(** The own entries of the [PRICING_RULES] object. *)
Definition PRICING_RULES (endpoint : string) : option (units_t -> Q) :=
  if String.eqb endpoint "summarize" then Some summarize
  else if String.eqb endpoint "generate_image" then Some generate_image
  else if String.eqb endpoint "translate" then Some translate
  else if String.eqb endpoint "compute" then Some compute
  else if String.eqb endpoint "default" then Some default
  else None.

(** The unit count a rule reads. *)
Definition relevant_unit (endpoint : string) : string :=
  if String.eqb endpoint "summarize" then "tokens"
  else if String.eqb endpoint "generate_image" then "images"
  else if String.eqb endpoint "translate" then "characters"
  else if String.eqb endpoint "compute" then "seconds"
  else "amount".

End Pricing.

(** ** Exceptions and outcomes *)

(** The exceptions the code throws or lets through.  A [ZodError] carries the
    paths of the fields that failed the schema. *)
Inductive exn : Type :=
| Error (message : string)
| TypeError (message : string)
| SqliteError (message : string)
| ZodError (issues : list string).

(** [error.message]; every exception above is an [instanceof Error]. *)
Definition exn_message (e : exn) : string :=
  match e with
  | Error m | TypeError m | SqliteError m => m
  | ZodError issues => String.concat "; " issues
  end.

(** A call that either throws or returns is a sum [exn + A]: [inl e] for the
    exception, [inr a] for the value.  The calls that consult a table by
    endpoint name end in an [outcome]: [Unmodelled] marks the one situation
    the embedding does not follow, a lookup ([PRICING_RULES[endpoint]],
    [WORKERS[endpoint]]) that resolves to a member inherited from
    [Object.prototype]. *)
Inductive outcome (A : Type) : Type :=
| Returns (a : A)
| Throws (e : exn)
| Unmodelled.
Arguments Returns {A} a.
Arguments Throws {A} e.
Arguments Unmodelled {A}.

(** ** The state store ([src/db/database.ts]) *)

Module DB.

Inductive quote_status : Type := Q_active | Q_expired | Q_used.
Inductive payment_status : Type := P_pending | P_verified | P_failed.
Inductive job_status : Type := J_queued | J_processing | J_completed | J_failed.

Record Quote : Type := mkQuote {
  q_id : string;
  q_endpoint : string;
  q_units : Pricing.units_t;
  q_price_sats : Q;
  q_expires_at : Z;
  q_nonce : string;
  q_receiver_pubkey : string;
  q_asp_url : string;
  q_status : quote_status;
  q_created_at : Z
}.

Record Payment : Type := mkPayment {
  p_id : string;
  p_quote_id : string;
  p_sender_pubkey : string;
  p_paid_sats : Q;
  p_ark_ref : string;
  p_vtxo_spend : string;
  p_proof : string;
  p_status : payment_status;
  p_created_at : Z
}.

Record Job : Type := mkJob {
  j_id : string;
  j_payment_id : string;
  j_endpoint : string;
  j_args_json : jsval;
  j_status : job_status;
  j_result_json : option jsval;
  j_error_message : option string;
  j_created_at : Z;
  j_completed_at : option Z
}.

Record IdempotencyKey : Type := mkIdempotencyKey {
  k_key : string;
  k_response_json : jsval;
  k_created_at : Z;
  k_expires_at : Z
}.

(** The four tables, each keyed by its primary key. *)
Record t : Type := mkDB {
  quotes : gmap string Quote;
  payments : gmap string Payment;
  jobs : gmap string Job;
  idempotency_keys : gmap string IdempotencyKey
}.

Definition empty : t := mkDB ∅ ∅ ∅ ∅.

Definition set_quotes (f : gmap string Quote -> gmap string Quote) (db : t) : t :=
  mkDB (f (quotes db)) (payments db) (jobs db) (idempotency_keys db).
Definition set_payments (f : gmap string Payment -> gmap string Payment) (db : t) : t :=
  mkDB (quotes db) (f (payments db)) (jobs db) (idempotency_keys db).
Definition set_jobs (f : gmap string Job -> gmap string Job) (db : t) : t :=
  mkDB (quotes db) (payments db) (f (jobs db)) (idempotency_keys db).
Definition set_idempotency_keys
  (f : gmap string IdempotencyKey -> gmap string IdempotencyKey) (db : t) : t :=
  mkDB (quotes db) (payments db) (jobs db) (f (idempotency_keys db)).

Definition with_status (s : quote_status) (q : Quote) : Quote :=
  mkQuote (q_id q) (q_endpoint q) (q_units q) (q_price_sats q) (q_expires_at q)
          (q_nonce q) (q_receiver_pubkey q) (q_asp_url q) s (q_created_at q).

(** *** Comparing a stored timestamp with [datetime('now')]

    [expires_at] columns hold [Date.toISOString()] text,
    [YYYY-MM-DDTHH:MM:SS.sssZ].  SQLite's [datetime('now')] is the text
    [YYYY-MM-DD HH:MM:SS].  The SQL comparisons [expires_at < datetime('now')]
    and [expires_at > datetime('now')] compare these two texts byte by byte:
    the first ten characters are the two UTC calendar dates, and when the
    dates agree the eleventh character decides, ['T'] against [' '], so the
    stored text is the greater one.  Hence, for instants in the years 0000
    to 9999, the stored instant counts as earlier than now exactly when its
    UTC date is an earlier date. *)
Definition ms_per_day : Z := 86400000.
Definition utc_date (instant : Z) : Z := instant / ms_per_day.

(** [expires_at < datetime('now')] *)
Definition sql_lt_now (expires_at now : Z) : bool :=
  utc_date expires_at <? utc_date now.

(** [expires_at > datetime('now')] *)
Definition sql_gt_now (expires_at now : Z) : bool :=
  utc_date now <=? utc_date expires_at.

(** *** Quotes *)

Definition getQuote (id : string) (db : t) : option Quote := quotes db !! id.

Definition nonce_taken (nonce : string) (db : t) : bool :=
  bool_decide (map_Exists (fun _ q => q_nonce q = nonce) (quotes db)).

(** [INSERT INTO quotes ...] then [getQuote]: the primary key and the
    [UNIQUE] nonce are checked by SQLite; [created_at] takes its default,
    the argument's own value is not read. *)
Definition createQuote (now : Z) (quote : Quote) (db : t) : (exn + Quote) * t :=
  match quotes db !! q_id quote with
  | Some _ => (inl (SqliteError "UNIQUE constraint failed: quotes.id"), db)
  | None =>
      if nonce_taken (q_nonce quote) db
      then (inl (SqliteError "UNIQUE constraint failed: quotes.nonce"), db)
      else
        let row := mkQuote (q_id quote) (q_endpoint quote) (q_units quote)
                     (q_price_sats quote) (q_expires_at quote) (q_nonce quote)
                     (q_receiver_pubkey quote) (q_asp_url quote)
                     (q_status quote) now in
        (inr row, set_quotes (insert (q_id quote) row) db)
  end.

(** [UPDATE quotes SET status = ? WHERE id = ?] *)
Definition updateQuoteStatus (id : string) (status : quote_status) (db : t) : t :=
  set_quotes (alter (with_status status) id) db.

(** *** Payments *)

Definition getPayment (id : string) (db : t) : option Payment := payments db !! id.

(** [INSERT INTO payments ...]: primary key and the foreign key on
    [quote_id] (better-sqlite3 enforces foreign keys). *)
Definition createPayment (now : Z) (payment : Payment) (db : t)
  : (exn + Payment) * t :=
  match payments db !! p_id payment with
  | Some _ => (inl (SqliteError "UNIQUE constraint failed: payments.id"), db)
  | None =>
      match quotes db !! p_quote_id payment with
      | None => (inl (SqliteError "FOREIGN KEY constraint failed"), db)
      | Some _ =>
          let row := mkPayment (p_id payment) (p_quote_id payment)
                       (p_sender_pubkey payment) (p_paid_sats payment)
                       (p_ark_ref payment) (p_vtxo_spend payment)
                       (p_proof payment) (p_status payment) now in
          (inr row, set_payments (insert (p_id payment) row) db)
      end
  end.

Definition with_payment_status (s : payment_status) (p : Payment) : Payment :=
  mkPayment (p_id p) (p_quote_id p) (p_sender_pubkey p) (p_paid_sats p)
            (p_ark_ref p) (p_vtxo_spend p) (p_proof p) s (p_created_at p).

Definition updatePaymentStatus (id : string) (status : payment_status) (db : t) : t :=
  set_payments (alter (with_payment_status status) id) db.

(** *** Jobs *)

Definition getJob (id : string) (db : t) : option Job := jobs db !! id.

Definition createJob (now : Z) (job : Job) (db : t) : (exn + Job) * t :=
  match jobs db !! j_id job with
  | Some _ => (inl (SqliteError "UNIQUE constraint failed: jobs.id"), db)
  | None =>
      match payments db !! j_payment_id job with
      | None => (inl (SqliteError "FOREIGN KEY constraint failed"), db)
      | Some _ =>
          let row := mkJob (j_id job) (j_payment_id job) (j_endpoint job)
                       (j_args_json job) (j_status job) (j_result_json job)
                       (j_error_message job) now None in
          (inr row, set_jobs (insert (j_id job) row) db)
      end
  end.

(** [Partial<Pick<Job, 'status' | 'result_json' | 'error_message' |
    'completed_at'>>]: [None] is a property left [undefined]; the inner
    option of the last three is SQL [NULL]. *)
Record JobUpdates : Type := mkJobUpdates {
  u_status : option job_status;
  u_result_json : option (option jsval);
  u_error_message : option (option string);
  u_completed_at : option (option Z)
}.

Definition apply_updates (u : JobUpdates) (j : Job) : Job :=
  mkJob (j_id j) (j_payment_id j) (j_endpoint j) (j_args_json j)
        (default (j_status j) (u_status u))
        (default (j_result_json j) (u_result_json u))
        (default (j_error_message j) (u_error_message u))
        (j_created_at j)
        (default (j_completed_at j) (u_completed_at u)).

Definition no_updates (u : JobUpdates) : bool :=
  match u_status u, u_result_json u, u_error_message u, u_completed_at u with
  | None, None, None, None => true
  | _, _, _, _ => false
  end.

Definition updateJob (id : string) (updates : JobUpdates) (db : t) : t :=
  if no_updates updates then db
  else set_jobs (alter (apply_updates updates) id) db.

(** *** Idempotency *)

(** [SELECT response_json FROM idempotency_keys WHERE key = ? AND
    expires_at > datetime('now')] *)
Definition getIdempotencyKey (now : Z) (key : string) (db : t) : option jsval :=
  match idempotency_keys db !! key with
  | Some entry =>
      if sql_gt_now (k_expires_at entry) now
      then Some (k_response_json entry)
      else None
  | None => None
  end.

(** [INSERT OR REPLACE INTO idempotency_keys ...] with
    [expiresAt = Date.now() + ttlSeconds * 1000]. *)
Definition setIdempotencyKey (now : Z) (key : string) (responseJson : jsval)
  (ttlSeconds : Z) (db : t) : t :=
  let expiresAt := now + ttlSeconds * 1000 in
  set_idempotency_keys
    (insert key (mkIdempotencyKey key responseJson now expiresAt)) db.

Definition expire_if_due (now : Z) (q : Quote) : Quote :=
  match q_status q with
  | Q_active => if sql_lt_now (q_expires_at q) now then with_status Q_expired q else q
  | _ => q
  end.

(** [DELETE FROM idempotency_keys WHERE expires_at < datetime('now')];
    [UPDATE quotes SET status = 'expired' WHERE status = 'active' AND
    expires_at < datetime('now')]. *)
Definition cleanupExpired (now : Z) (db : t) : t :=
  let db1 :=
    set_idempotency_keys
      (filter (fun kv => sql_lt_now (k_expires_at (snd kv)) now = false)) db in
  set_quotes (fmap (expire_if_due now)) db1.

End DB.

(** ** What the embedding takes from the JavaScript runtime

    Library primitives that the repository calls but does not define. *)
Class Runtime : Type := mkRuntime {
  (** [new Date(instant).toISOString()] *)
  toISOString : Z -> string;
  (** the string a value becomes inside a template literal *)
  ToString : jsval -> string;
  (** the number a string converts to in arithmetic *)
  string_to_number : string -> jsnum;
  (** [Math.sqrt] *)
  Math_sqrt : jsnum -> jsnum;
  (** [encodeURIComponent] *)
  encodeURIComponent : string -> string;
  (** [text.split(/\s+/)] *)
  split_whitespace : string -> list string
}.

(** ** Configuration ([src/config.ts], the fields the pipeline reads) *)

Inductive payments_mode : Type := Free | Testnet | Mainnet.

Record Config : Type := mkConfig {
  paymentsMode : payments_mode;
  ark_aspUrl : string;
  ark_receiverPubkey : string
}.

(** ** The settlement network client ([src/ark/aspClient.ts]) *)

Module ASPClient.

Inductive round_status : Type := R_pending | R_active | R_completed.

Record RoundInfo : Type := mkRoundInfo {
  roundId : string;
  timestamp : string;
  status : round_status
}.

(** What the services use of the client.  [getCurrentRound] is [async]: the
    promise it returns is fulfilled with a round or rejected with an error. *)
Record t : Type := mkClient {
  getCurrentRound : Z -> exn + RoundInfo;
  getReceiverPubkey : string;
  getAspUrl : string
}.

(** [new ASPClient(config)], the class of the repository.  Both branches of
    its [getCurrentRound] build the same round from the clock. *)
Definition make `{Runtime} (config : Config) : t :=
  mkClient
    (fun now =>
       match paymentsMode config with
       | Free =>
           inr (mkRoundInfo ("r_" ++ toISOString now) (toISOString now) R_active)
       | _ =>
           inr (mkRoundInfo ("r_" ++ toISOString now) (toISOString now) R_active)
       end)
    (ark_receiverPubkey config)
    (ark_aspUrl config).

End ASPClient.

(** ** The payment verifier ([src/ark/verify.ts]) *)

Module ArkVerifier.

Record VerificationRequest : Type := mkRequest {
  aspUrl : string;
  receiver : string;
  expectedSats : Q;
  spendBlob : string;
  proof : string
}.

Record VerificationResult : Type := mkResult {
  ok : bool;
  reason : option string;
  settlementRef : option string;
  actualSats : option Q;
  roundId : option string
}.

Definition rejected (why : string) : VerificationResult :=
  mkResult false (Some why) None None None.

(** One character of [[A-Za-z0-9+/=]]. *)
Definition base64_char (c : ascii) : bool :=
  let n := nat_of_ascii c in
  ((65 <=? n) && (n <=? 90))%nat || ((97 <=? n) && (n <=? 122))%nat
  || ((48 <=? n) && (n <=? 57))%nat
  || (n =? 43)%nat || (n =? 47)%nat || (n =? 61)%nat.

(** [/^[A-Za-z0-9+/=]+$/.test(s)] *)
Definition base64Regex_test (s : string) : bool :=
  match list_ascii_of_string s with
  | [] => false
  | cs => forallb base64_char cs
  end.

Definition validatePaymentFormat (spendBlob proof : string) : bool :=
  if ((utf16_length spendBlob <? 10) || (utf16_length proof <? 10))%nat
  then false
  else base64Regex_test spendBlob && base64Regex_test proof.

(** ToInt32, the wrap-around of the bit operators. *)
Definition to_int32 (z : Z) : Z :=
  let m := z mod 2 ^ 32 in
  if m <? 2 ^ 31 then m else m - 2 ^ 32.

(** One turn of the loop of [simulateTxHash]:
    [hash = ((hash << 5) - hash) + data.charCodeAt(i); hash = hash & hash]. *)
Definition hash_step (hash : Z) (c : ascii) : Z :=
  to_int32 (to_int32 (Z.shiftl hash 5) - hash + Z.of_nat (nat_of_ascii c)).

(** [s.padStart(16, '0')] *)
Definition padStart16 (s : string) : string :=
  string_of_list_ascii (repeat "0"%char (16 - String.length s)) ++ s.

(** [Math.abs(hash).toString(16).padStart(16, '0')] *)
Definition simulateTxHash (data : string) : string :=
  let hash := fold_left hash_step (list_ascii_of_string data) 0 in
  padStart16 (HexadecimalString.NilZero.string_of_uint (N.to_hex_uint (Z.to_N (Z.abs hash)))).

(** [verifySpend] of the repository's verifier.  In free mode a rejected
    round lookup rejects the call; outside free mode the [try]/[catch] turns
    it into a [verification_error] result. *)
Definition verifySpend `{Runtime} (config : Config) (aspClient : ASPClient.t)
  (now : Z) (req : VerificationRequest) : exn + VerificationResult :=
  if negb (truthy_string (spendBlob req)) || negb (truthy_string (proof req))
  then inr (rejected "missing_payment_data")
  else
    match paymentsMode config with
    | Free =>
        if negb (validatePaymentFormat (spendBlob req) (proof req))
        then inr (rejected "invalid_payment_format")
        else
          match ASPClient.getCurrentRound aspClient now with
          | inr round =>
              inr (mkResult true None
                (Some ("ark:round:" ++ ASPClient.roundId round ++ "/tx:free_mode_"
                       ++ ToString (JNum (Num (inject_Z now)))))
                (Some (expectedSats req))
                (Some (ASPClient.roundId round)))
          | inl e => inl e
          end
    | _ =>
        if negb (validatePaymentFormat (spendBlob req) (proof req))
        then inr (rejected "invalid_payment_format")
        else
          match ASPClient.getCurrentRound aspClient now with
          | inr round =>
              inr (mkResult true None
                (Some ("ark:round:" ++ ASPClient.roundId round ++ "/tx:"
                       ++ simulateTxHash (spendBlob req)))
                (Some (expectedSats req))
                (Some (ASPClient.roundId round)))
          | inl e =>
              inr (rejected ("verification_error: " ++ exn_message e))
          end
    end.

End ArkVerifier.

(** ** The quote issuer ([src/payments/quotes.ts]) *)

Module QuotesService.

Record QuoteRequest : Type := mkQuoteRequest {
  endpoint : string;
  units : option Pricing.units_t
}.

Record QuoteResponse : Type := mkQuoteResponse {
  r_endpoint : string;
  r_units : Pricing.units_t;
  r_price_sats : Q;
  r_expires_at : Z;
  r_quote_id : string;
  r_asp_url : string;
  r_receiver_pubkey : string;
  r_round_hint : string
}.

(** [createQuote]; [quoteNano] and [nonce] are the two [nanoid] draws. *)
Definition createQuote (aspClient : ASPClient.t) (now : Z)
  (quoteNano nonce : string) (req : QuoteRequest) (db : DB.t)
  : outcome QuoteResponse * DB.t :=
  if negb (truthy_string (endpoint req))
  then (Throws (Error "endpoint is required"), db)
  else
    let units := default {[ "tokens" := 1000%Q ]} (units req) in
    match table_get Pricing.PRICING_RULES (endpoint req) with
    | Inherited => (Unmodelled, db)
    | found =>
        let pricingFn :=
          match found with Own f => f | _ => Pricing.default end in
        let priceSats := pricingFn units in
        match ASPClient.getCurrentRound aspClient now with
        | inl e => (Throws e, db)
        | inr round =>
            let expiresAt := now + 30000 in
            let quoteId := "q_" ++ quoteNano in
            let quote :=
              DB.mkQuote quoteId (endpoint req) units priceSats expiresAt nonce
                (ASPClient.getReceiverPubkey aspClient)
                (ASPClient.getAspUrl aspClient) DB.Q_active now in
            match DB.createQuote now quote db with
            | (inr _, db') =>
                (Returns (mkQuoteResponse (endpoint req) units priceSats
                            expiresAt quoteId
                            (ASPClient.getAspUrl aspClient)
                            (ASPClient.getReceiverPubkey aspClient)
                            (ASPClient.roundId round)), db')
            | (inl e, db') => (Throws e, db')
            end
        end
    end.

(** [getValidQuote]: [new Date(quote.expires_at) < new Date()] compares the
    two instants. *)
Definition getValidQuote (now : Z) (quoteId : string) (db : DB.t)
  : option DB.Quote * DB.t :=
  match DB.getQuote quoteId db with
  | None => (None, db)
  | Some quote =>
      if DB.q_expires_at quote <? now
      then (None, DB.updateQuoteStatus quoteId DB.Q_expired db)
      else
        match DB.q_status quote with
        | DB.Q_active => (Some quote, db)
        | _ => (None, db)
        end
  end.

Definition markQuoteUsed (quoteId : string) (db : DB.t) : DB.t :=
  DB.updateQuoteStatus quoteId DB.Q_used db.

Definition cleanupExpired (now : Z) (db : DB.t) : DB.t :=
  DB.cleanupExpired now db.

End QuotesService.

(** ** The job executor ([src/worker/jobs.ts]) *)

Module JobsService.

Definition num_of_nat (n : nat) : jsval := JNum (Num (inject_Z (Z.of_nat n))).

(** ToNumber. *)
Definition ToNumber `{Runtime} (v : jsval) : jsnum :=
  match v with
  | JUndefined => NaN
  | JNull => Num 0
  | JBool b => Num (if b then 1 else 0)
  | JNum n => n
  | JStr s => string_to_number s
  | JArr _ | JObj _ => string_to_number (ToString v)
  end.

(** [v.length] *)
Definition js_length (v : jsval) : jsval :=
  match v with
  | JStr s => num_of_nat (utf16_length s)
  | JArr items => num_of_nat (List.length items)
  | JObj fields => get_field "length" fields
  | _ => JUndefined
  end.

(** Reading a property of [null] or [undefined] throws; every worker starts
    by reading one. *)
Definition with_args (args : jsval) (body : exn + jsval) : exn + jsval :=
  match args with
  | JUndefined | JNull =>
      inl (TypeError "Cannot read properties of null or undefined")
  | _ => body
  end.

Definition summarize `{Runtime} (now : Z) (args : jsval) : exn + jsval :=
  with_args args
    (let text := prop args "text" in
     if negb (truthy text) then inl (Error "text is required")
     else
       match text with
       | JStr s =>
           let words := split_whitespace s in
           let summaryLength := Z.min 50 (Z.of_nat (List.length words) / 3) in
           let summary :=
             String.concat " " (firstn (Z.to_nat summaryLength) words) ++ "..." in
           inr (JObj [ ("summary", JStr summary);
                           ("original_length", num_of_nat (utf16_length s));
                           ("summary_length", num_of_nat (utf16_length summary));
                           ("tokens_processed", num_of_nat (List.length words)) ])
       | _ => inl (TypeError "text.split is not a function")
       end).

Definition generate_image `{Runtime} (now : Z) (args : jsval) : exn + jsval :=
  with_args args
    (let prompt := prop args "prompt" in
     let width := or_else (prop args "width") (JNum (Num 512)) in
     let height := or_else (prop args "height") (JNum (Num 512)) in
     if negb (truthy prompt) then inl (Error "prompt is required")
     else
       inr (JObj [ ("image_url",
                         JStr ("https://via.placeholder.com/" ++ ToString width
                               ++ "x" ++ ToString height ++ "?text="
                               ++ encodeURIComponent (ToString prompt)));
                       ("prompt", prompt);
                       ("dimensions", JObj [ ("width", width); ("height", height) ]);
                       ("processing_time_ms", JNum (Num 150)) ])).

Definition translate `{Runtime} (now : Z) (args : jsval) : exn + jsval :=
  with_args args
    (let text := prop args "text" in
     let from := or_else (prop args "from") (JStr "en") in
     let to := or_else (prop args "to") (JStr "es") in
     if negb (truthy text) then inl (Error "text is required")
     else
       let translated :=
         "[" ++ ToString from ++ "→" ++ ToString to ++ "] " ++ ToString text in
       inr (JObj [ ("original", text);
                       ("translated", JStr translated);
                       ("from_language", from);
                       ("to_language", to);
                       ("characters_processed", js_length text) ])).

Definition compute `{Runtime} (now : Z) (args : jsval) : exn + jsval :=
  with_args args
    (let operation := prop args "operation" in
     let value := prop args "value" in
     if negb (truthy operation) then inl (Error "operation is required")
     else
       let finish (result : jsnum) : exn + jsval :=
         inr (JObj [ ("operation", operation);
                         ("input", value);
                         ("output", JNum result);
                         ("computed_at", JStr (toISOString now)) ]) in
       match operation with
       | JStr "square" => finish (num_mul (ToNumber value) (ToNumber value))
       | JStr "sqrt" => finish (Math_sqrt (ToNumber value))
       | JStr "double" => finish (num_mul (ToNumber value) (Num 2))
       | _ => inl (Error ("unknown operation: " ++ ToString operation))
       end).

(** The own entries of the [WORKERS] object. *)
Definition WORKERS `{Runtime} (endpoint : string)
  : option (Z -> jsval -> exn + jsval) :=
  if String.eqb endpoint "summarize" then Some summarize
  else if String.eqb endpoint "generate_image" then Some generate_image
  else if String.eqb endpoint "translate" then Some translate
  else if String.eqb endpoint "compute" then Some compute
  else None.

Record JobRequest : Type := mkJobRequest {
  endpoint : string;
  args : jsval;
  paymentId : string
}.

Inductive result_status : Type := S_ok | S_error.

Record JobResult : Type := mkJobResult {
  status : result_status;
  result : option jsval;
  error : option string
}.

(** [createJob]; [jobNano] is the [nanoid] draw. *)
Definition createJob (now : Z) (jobNano : string) (req : JobRequest) (db : DB.t)
  : (exn + DB.Job) * DB.t :=
  let jobId := "job_" ++ jobNano in
  let job :=
    DB.mkJob jobId (paymentId req) (endpoint req) (JSON_stringify (args req))
      DB.J_queued None None now None in
  DB.createJob now job db.

Definition job_failed (now : Z) (jobId : string) (e : exn) (db : DB.t)
  : outcome JobResult * DB.t :=
  let errorMessage := exn_message e in
  (Returns (mkJobResult S_error None (Some errorMessage)),
   DB.updateJob jobId
     (DB.mkJobUpdates (Some DB.J_failed) None (Some (Some errorMessage))
        (Some (Some now))) db).

(** [result_json: JSON.stringify(result)] as a property of the updates:
    [JSON.stringify(undefined)] is [undefined], a property left out. *)
Definition stringified (result : jsval) : option (option jsval) :=
  match JSON_stringify result with
  | JUndefined => None
  | text => Some (Some text)
  end.

Definition executeJob `{Runtime} (now : Z) (jobId : string) (db : DB.t)
  : outcome JobResult * DB.t :=
  match DB.getJob jobId db with
  | None => (Throws (Error "job not found"), db)
  | Some job =>
      let db1 :=
        DB.updateJob jobId (DB.mkJobUpdates (Some DB.J_processing) None None None) db in
      let args := JSON_parse (DB.j_args_json job) in
      match table_get WORKERS (DB.j_endpoint job) with
      | Inherited => (Unmodelled, db1)
      | Absent =>
          job_failed now jobId
            (Error ("no worker for endpoint: " ++ DB.j_endpoint job)) db1
      | Own worker =>
          match worker now args with
          | inr result =>
              (Returns (mkJobResult S_ok (Some result) None),
               DB.updateJob jobId
                 (DB.mkJobUpdates (Some DB.J_completed)
                    (stringified result) None (Some (Some now)))
                 db1)
          | inl e => job_failed now jobId e db1
          end
      end
  end.

Definition getJob (jobId : string) (db : DB.t) : option DB.Job := DB.getJob jobId db.

(** [job.error_message || 'job failed'] *)
Definition error_or_default (message : option string) : string :=
  match message with
  | Some m => if truthy_string m then m else "job failed"
  | None => "job failed"
  end.

(** [JSON.parse(job.result_json!)]; a [NULL] column parses to [null]. *)
Definition parsed_result (result_json : option jsval) : jsval :=
  match result_json with
  | Some text => JSON_parse text
  | None => JNull
  end.

(** [awaitJobResult], started at [startTime].  Each turn of its loop reads the
    clock and then the job; between two turns it sleeps and the rest of the
    server runs.  [polls] holds what the successive turns observe, the clock
    reading and the store at that moment; the answer is [None] while the loop
    is still turning after the last observation given. *)
Fixpoint awaitJobResult (jobId : string) (timeoutMs startTime : Z)
  (polls : list (Z * DB.t)) : option (exn + JobResult) :=
  match polls with
  | [] => None
  | (now, db) :: later =>
      if now - startTime <? timeoutMs
      then
        match DB.getJob jobId db with
        | None => Some (inl (Error "job not found"))
        | Some job =>
            match DB.j_status job with
            | DB.J_completed =>
                Some (inr (mkJobResult S_ok
                             (Some (parsed_result (DB.j_result_json job))) None))
            | DB.J_failed =>
                Some (inr (mkJobResult S_error None
                             (Some (error_or_default (DB.j_error_message job)))))
            | _ => awaitJobResult jobId timeoutMs startTime later
            end
        end
      else Some (inl (Error "job execution timeout"))
  end.

End JobsService.

(** ** The settlement orchestrator ([src/api/handlers.ts], [POST /v1/paycall]) *)

Module Handlers.

Record ArkPayment : Type := mkArkPayment {
  vtxo_spend : string;
  proof : string;
  sender_pubkey : string
}.

Record CallRequest : Type := mkCallRequest {
  endpoint : string;
  args : jsval
}.

Record PayCallBody : Type := mkPayCallBody {
  quote_id : string;
  ark_payment : ArkPayment;
  request : CallRequest
}.

(** [z.string().min(1)] *)
Definition string_min1 (v : jsval) : option string :=
  match v with
  | JStr s => if truthy_string s then Some s else None
  | _ => None
  end.

(** [z.record(z.any())] *)
Definition record_any (v : jsval) : option jsval :=
  match v with
  | JObj fields => Some (JObj fields)
  | _ => None
  end.

Definition issue_unless {A : Type} (path : string) (parsed : option A) : list string :=
  match parsed with
  | Some _ => []
  | None => [path]
  end.

(** The issues [PayCallBodySchema] raises on a body, by path. *)
Definition PayCallBodySchema_issues (body : jsval) : list string :=
  match body with
  | JObj top =>
      issue_unless "quote_id" (string_min1 (get_field "quote_id" top))
      ++ match get_field "ark_payment" top with
         | JObj ark =>
             issue_unless "ark_payment.vtxo_spend" (string_min1 (get_field "vtxo_spend" ark))
             ++ issue_unless "ark_payment.proof" (string_min1 (get_field "proof" ark))
             ++ issue_unless "ark_payment.sender_pubkey"
                  (string_min1 (get_field "sender_pubkey" ark))
         | _ => ["ark_payment"]
         end
      ++ match get_field "request" top with
         | JObj req =>
             issue_unless "request.endpoint" (string_min1 (get_field "endpoint" req))
             ++ issue_unless "request.args" (record_any (get_field "args" req))
         | _ => ["request"]
         end
  | _ => [""]
  end.

(** [PayCallBodySchema.parse(req.body)]: the parsed body, or the issues of
    the [ZodError] it throws. *)
Definition PayCallBodySchema_parse (body : jsval) : list string + PayCallBody :=
  let top := match body with JObj fields => fields | _ => [] end in
  let ark := prop (get_field "ark_payment" top) in
  let req := prop (get_field "request" top) in
  match PayCallBodySchema_issues body,
        string_min1 (get_field "quote_id" top),
        string_min1 (ark "vtxo_spend"), string_min1 (ark "proof"),
        string_min1 (ark "sender_pubkey"),
        string_min1 (req "endpoint"), record_any (req "args") with
  | [], Some q, Some spend, Some prf, Some sender, Some ep, Some a =>
      inr (mkPayCallBody q (mkArkPayment spend prf sender) (mkCallRequest ep a))
  | issues, _, _, _, _, _, _ => inl issues
  end.

(** An incoming request: the [Idempotency-Key] header, when sent, and the
    parsed JSON body. *)
Record Request : Type := mkRequest {
  idempotency_key_header : option string;
  body : jsval
}.

Record Reply : Type := mkReply {
  code : Z;
  payload : jsval
}.

(** The services' shared state, and the record of the calls made to the
    payment verifier. *)
Record World : Type := mkWorld {
  db : DB.t;
  verifier_calls : list ArkVerifier.VerificationRequest
}.

Definition opt_str (o : option string) : jsval :=
  match o with
  | Some s => JStr s
  | None => JUndefined
  end.

(** The [catch] block of the handler. *)
Definition catch_reply (e : exn) : Reply :=
  match e with
  | ZodError issues =>
      mkReply 400 (JObj [ ("error", JStr "validation_error");
                          ("details", JArr (map JStr issues)) ])
  | _ =>
      mkReply 500 (JObj [ ("error", JStr "internal_error");
                          ("message", JStr (exn_message e)) ])
  end.

Definition quote_conflict : Reply :=
  mkReply 409 (JObj [ ("error", JStr "expired_or_missing_quote");
                      ("message", JStr "Quote has expired, been used, or does not exist") ]).

Definition endpoint_mismatch : Reply :=
  mkReply 400 (JObj [ ("error", JStr "endpoint_mismatch");
                      ("message", JStr "Request endpoint does not match quote") ]).

Definition payment_invalid (reason : option string) : Reply :=
  mkReply 402 (JObj [ ("error", JStr "payment_invalid");
                      ("details", opt_str reason) ]).

Definition job_execution_failed (message : option string) : Reply :=
  mkReply 500 (JObj [ ("error", JStr "job_execution_failed");
                      ("message", opt_str message) ]).

(** A handler waiting at [await services.verifier.verifySpend(...)]. *)
Record Suspended : Type := mkSuspended {
  s_idempotencyKey : string;
  s_body : PayCallBody;
  s_quote : DB.Quote;
  s_request : ArkVerifier.VerificationRequest
}.

(** [(req.headers['idempotency-key'] as string) || ''] *)
Definition idempotencyKey_of (req : Request) : string :=
  default "" (idempotency_key_header req).

(** The idempotency check: the cached response when a key was sent and the
    store holds a live entry for it. *)
Definition cached_response (now : Z) (req : Request) (w : World) : option jsval :=
  if truthy_string (idempotencyKey_of req)
  then DB.getIdempotencyKey now (idempotencyKey_of req) (db w)
  else None.

(** The handler up to the call of the verifier. *)
Definition paycall_begin (now : Z) (req : Request) (w : World)
  : (Reply + Suspended) * World :=
  let idempotencyKey := idempotencyKey_of req in
  match cached_response now req w with
  | Some cached => (inl (mkReply 200 (JSON_parse cached)), w)
  | None =>
      match PayCallBodySchema_parse (body req) with
      | inl issues => (inl (catch_reply (ZodError issues)), w)
      | inr body =>
          match QuotesService.getValidQuote now (quote_id body) (db w) with
          | (None, db1) => (inl quote_conflict, mkWorld db1 (verifier_calls w))
          | (Some quote, db1) =>
              if negb (String.eqb (DB.q_endpoint quote) (endpoint (request body)))
              then (inl endpoint_mismatch, mkWorld db1 (verifier_calls w))
              else
                let vreq :=
                  ArkVerifier.mkRequest (DB.q_asp_url quote)
                    (DB.q_receiver_pubkey quote) (DB.q_price_sats quote)
                    (vtxo_spend (ark_payment body)) (proof (ark_payment body)) in
                (inr (mkSuspended idempotencyKey body quote vreq),
                 mkWorld db1 (verifier_calls w ++ [vreq]))
          end
      end
  end.

(** [verified.actualSats || quote.price_sats] *)
Definition paid_sats_of (verified : ArkVerifier.VerificationResult) (quote : DB.Quote) : Q :=
  match ArkVerifier.actualSats verified with
  | Some a => if truthy_Q a then a else DB.q_price_sats quote
  | None => DB.q_price_sats quote
  end.

(** [verified.settlementRef || ''] *)
Definition ark_ref_of (verified : ArkVerifier.VerificationResult) : string :=
  match ArkVerifier.settlementRef verified with
  | Some r => if truthy_string r then r else ""
  | None => ""
  end.

Definition ok_response (verified : ArkVerifier.VerificationResult) (quote : DB.Quote)
  (result : option jsval) (jobId paymentId : string) : jsval :=
  JObj [ ("status", JStr "ok");
         ("result", default JUndefined result);
         ("receipt",
           JObj [ ("settlement_ref", opt_str (ArkVerifier.settlementRef verified));
                  ("paid_sats", JNum (Num (paid_sats_of verified quote)));
                  ("job_id", JStr jobId);
                  ("payment_id", JStr paymentId) ]) ].

(** The handler from the verifier's answer on; [payNano] and [jobNano] are
    the [nanoid] draws of the payment and job identifiers. *)
Definition paycall_resume `{Runtime} (now : Z) (payNano jobNano : string)
  (s : Suspended) (answer : exn + ArkVerifier.VerificationResult) (w : World)
  : outcome Reply * World :=
  let calls := verifier_calls w in
  let body := s_body s in
  let quote := s_quote s in
  match answer with
  | inl e => (Returns (catch_reply e), w)
  | inr verified =>
      if negb (ArkVerifier.ok verified)
      then (Returns (payment_invalid (ArkVerifier.reason verified)), w)
      else
        let paymentId := "pay_" ++ payNano in
        let payment :=
          DB.mkPayment paymentId (quote_id body) (sender_pubkey (ark_payment body))
            (paid_sats_of verified quote) (ark_ref_of verified)
            (vtxo_spend (ark_payment body)) (proof (ark_payment body))
            DB.P_verified now in
        match DB.createPayment now payment (db w) with
        | (inl e, db1) => (Returns (catch_reply e), mkWorld db1 calls)
        | (inr _, db1) =>
            let db2 := QuotesService.markQuoteUsed (quote_id body) db1 in
            match JobsService.createJob now jobNano
                    (JobsService.mkJobRequest (endpoint (request body))
                       (args (request body)) paymentId) db2 with
            | (inl e, db3) => (Returns (catch_reply e), mkWorld db3 calls)
            | (inr job, db3) =>
                match JobsService.executeJob now (DB.j_id job) db3 with
                | (Throws e, db4) => (Returns (catch_reply e), mkWorld db4 calls)
                | (Unmodelled, db4) => (Unmodelled, mkWorld db4 calls)
                | (Returns result, db4) =>
                    match JobsService.status result with
                    | JobsService.S_error =>
                        (Returns (job_execution_failed (JobsService.error result)),
                         mkWorld db4 calls)
                    | JobsService.S_ok =>
                        let response :=
                          ok_response verified quote (JobsService.result result)
                            (DB.j_id job) paymentId in
                        let db5 :=
                          if truthy_string (s_idempotencyKey s)
                          then DB.setIdempotencyKey now (s_idempotencyKey s)
                                 (JSON_stringify response) 120 db4
                          else db4 in
                        (Returns (mkReply 200 response), mkWorld db5 calls)
                    end
                end
            end
        end
  end.

(** One whole invocation of the handler, nothing else running meanwhile:
    [t1] is the clock before the verifier is awaited, [t2] after. *)
Definition paycall `{Runtime}
  (verifySpend : ArkVerifier.VerificationRequest -> exn + ArkVerifier.VerificationResult)
  (t1 t2 : Z) (payNano jobNano : string) (req : Request) (w : World)
  : outcome Reply * World :=
  match paycall_begin t1 req w with
  | (inl reply, w1) => (Returns reply, w1)
  | (inr s, w1) =>
      paycall_resume t2 payNano jobNano s (verifySpend (s_request s)) w1
  end.

(** *** [GET /v1/quote] *)

Record QuoteQuery : Type := mkQuoteQuery {
  qq_endpoint : string;
  qq_tokens : option Q;
  qq_images : option Q;
  qq_characters : option Q;
  qq_seconds : option Q;
  qq_amount : option Q
}.

(** [z.coerce.number().optional()] on a query parameter: absent stays absent,
    text is converted with [Number] and refused when that gives [NaN].
    [None] is the refusal. *)
Definition coerce_number_optional `{Runtime} (param : option string)
  : option (option Q) :=
  match param with
  | None => Some None
  | Some text =>
      match string_to_number text with
      | Num q => Some (Some q)
      | NaN => None
      end
  end.

Definition QuoteQuerySchema_issues `{Runtime} (query : gmap string string)
  : list string :=
  issue_unless "endpoint"
    (match query !! "endpoint" with
     | Some s => string_min1 (JStr s)
     | None => None
     end)
  ++ issue_unless "tokens" (coerce_number_optional (query !! "tokens"))
  ++ issue_unless "images" (coerce_number_optional (query !! "images"))
  ++ issue_unless "characters" (coerce_number_optional (query !! "characters"))
  ++ issue_unless "seconds" (coerce_number_optional (query !! "seconds"))
  ++ issue_unless "amount" (coerce_number_optional (query !! "amount")).

(** [QuoteQuerySchema.parse(req.query)] *)
Definition QuoteQuerySchema_parse `{Runtime} (query : gmap string string)
  : list string + QuoteQuery :=
  match QuoteQuerySchema_issues query,
        query !! "endpoint",
        coerce_number_optional (query !! "tokens"),
        coerce_number_optional (query !! "images"),
        coerce_number_optional (query !! "characters"),
        coerce_number_optional (query !! "seconds"),
        coerce_number_optional (query !! "amount") with
  | [], Some ep, Some tokens, Some images, Some characters, Some seconds,
    Some amount =>
      inr (mkQuoteQuery ep tokens images characters seconds amount)
  | issues, _, _, _, _, _, _ => inl issues
  end.

(** [if (query.k) units.k = query.k] *)
Definition add_unit (k : string) (count : option Q) (units : Pricing.units_t)
  : Pricing.units_t :=
  match count with
  | Some n => if truthy_Q n then <[k := n]> units else units
  | None => units
  end.

Definition units_of_query (query : QuoteQuery) : Pricing.units_t :=
  add_unit "amount" (qq_amount query)
    (add_unit "seconds" (qq_seconds query)
       (add_unit "characters" (qq_characters query)
          (add_unit "images" (qq_images query)
             (add_unit "tokens" (qq_tokens query) ∅)))).

(** [Object.keys(units).length > 0 ? units : undefined] *)
Definition units_or_undefined (units : Pricing.units_t) : option Pricing.units_t :=
  if decide (units = ∅) then None else Some units.

(** The handler of [GET /v1/quote]: the quote on a [200], another reply from
    the [catch] block. *)
Definition get_quote `{Runtime} (aspClient : ASPClient.t) (now : Z)
  (quoteNano nonce : string) (query : gmap string string) (db0 : DB.t)
  : outcome (QuotesService.QuoteResponse + Reply) * DB.t :=
  match QuoteQuerySchema_parse query with
  | inl issues => (Returns (inr (catch_reply (ZodError issues))), db0)
  | inr parsed =>
      let units := units_of_query parsed in
      match QuotesService.createQuote aspClient now quoteNano nonce
              (QuotesService.mkQuoteRequest (qq_endpoint parsed)
                 (units_or_undefined units)) db0 with
      | (Returns quote, db1) => (Returns (inl quote), db1)
      | (Throws e, db1) => (Returns (inr (catch_reply e)), db1)
      | (Unmodelled, db1) => (Unmodelled, db1)
      end
  end.

End Handlers.

(** ** The demo client ([client/cli.ts], [BitcoinMeteredClient.payCall]) *)

Module Client.

(** The payment claim the client sends with every call. *)
Definition demo_payment : jsval :=
  JObj [ ("vtxo_spend", JStr "ZGVtby12dHhvLXNwZW5kLWRhdGE=");
         ("proof", JStr "ZGVtby1wcm9vZi1kYXRh");
         ("sender_pubkey", JStr "ark1qdemo12345678") ].

(** The request [payCall] posts: the [Idempotency-Key] header when a key is
    given, and the serialised body. *)
Definition payCall (quoteId endpoint : string) (args : jsval)
  (idempotencyKey : option string) : Handlers.Request :=
  Handlers.mkRequest
    (match idempotencyKey with
     | Some key => if truthy_string key then Some key else None
     | None => None
     end)
    (JSON_stringify
       (JObj [ ("quote_id", JStr quoteId);
               ("ark_payment", demo_payment);
               ("request", JObj [ ("endpoint", JStr endpoint); ("args", args) ]) ])).

End Client.

(** ** Requests in flight ([src/server.ts])

    The server runs one handler per request on a shared store.  A handler
    gives up control where it awaits the payment verifier; until the
    verifier answers, other requests and the periodic clean-up run.  The
    later awaits of a handler, on the job service, are not points of
    interleaving here: an event runs a whole stretch of a handler.  What
    holds at any finer interleaving is stated on sequences of single store
    statements ([execute]). *)

Module Server.

Inductive event : Type :=
(** a request arrives on a connection and its handler runs up to the
    verifier call *)
| Arrive (conn : nat) (now : Z) (req : Handlers.Request)
(** the verifier answers the handler of a connection, which runs to its end *)
| Answer (conn : nat) (now : Z) (payNano jobNano : string)
(** [setInterval(() => quotes.cleanupExpired(), 60_000)] fires *)
| Sweep (now : Z).

Record t : Type := mkServer {
  world : Handlers.World;
  waiting : gmap nat Handlers.Suspended;
  replies : list (nat * outcome Handlers.Reply)
}.

Definition start (w : Handlers.World) : t := mkServer w ∅ [].

Definition step `{Runtime}
  (verifySpend : ArkVerifier.VerificationRequest -> exn + ArkVerifier.VerificationResult)
  (srv : t) (e : event) : t :=
  match e with
  | Arrive conn now req =>
      match waiting srv !! conn with
      | Some _ => srv
      | None =>
          match Handlers.paycall_begin now req (world srv) with
          | (inl reply, w1) =>
              mkServer w1 (waiting srv) (replies srv ++ [(conn, Returns reply)])
          | (inr s, w1) =>
              mkServer w1 (<[conn := s]> (waiting srv)) (replies srv)
          end
      end
  | Answer conn now payNano jobNano =>
      match waiting srv !! conn with
      | None => srv
      | Some s =>
          match Handlers.paycall_resume now payNano jobNano s
                  (verifySpend (Handlers.s_request s)) (world srv) with
          | (out, w1) =>
              mkServer w1 (delete conn (waiting srv)) (replies srv ++ [(conn, out)])
          end
      end
  | Sweep now =>
      mkServer
        (Handlers.mkWorld (QuotesService.cleanupExpired now (Handlers.db (world srv)))
           (Handlers.verifier_calls (world srv)))
        (waiting srv) (replies srv)
  end.

Definition run `{Runtime}
  (verifySpend : ArkVerifier.VerificationRequest -> exn + ArkVerifier.VerificationResult)
  (schedule : list event) (srv : t) : t :=
  fold_left (step verifySpend) schedule srv.

(** The payments recorded against a quote. *)
Definition payments_for (quoteId : string) (db : DB.t) : list DB.Payment :=
  filter (fun p => DB.p_quote_id p = quoteId) (snd <$> map_to_list (DB.payments db)).

(** A [200] reply. *)
Definition succeeded (out : outcome Handlers.Reply) : bool :=
  match out with
  | Returns r => Handlers.code r =? 200
  | _ => false
  end.

End Server.

(** ** A concrete deployment to evaluate the model on *)

Module Sample.

Definition decimal (z : Z) : string := DecimalString.NilZero.string_of_int (Z.to_int z).

(** A runtime for evaluation.  Its primitives are simple stand-ins for the
    engine's (clock text is the decimal instant, only spaces separate words,
    nothing is percent-encoded); every general statement below is proved for
    an arbitrary runtime. *)
Definition split_on_space (s : string) : list string :=
  let step (c : ascii) (acc : list ascii * list string) :=
    if Ascii.eqb c " "%char
    then ([], string_of_list_ascii (fst acc) :: snd acc)
    else (c :: fst acc, snd acc) in
  let '(word, words) := fold_right step ([], []) (list_ascii_of_string s) in
  string_of_list_ascii word :: words.

#[export] Instance runtime : Runtime := {|
  toISOString := fun instant => "t" ++ decimal instant;
  ToString := fun v =>
    match v with
    | JStr s => s
    | JNum (Num q) => decimal (Qfloor q)
    | JNum NaN => "NaN"
    | JUndefined => "undefined"
    | JNull => "null"
    | JBool b => if b then "true" else "false"
    | JArr _ => ""
    | JObj _ => "[object Object]"
    end;
  string_to_number := fun _ => NaN;
  Math_sqrt := fun n =>
    match n with
    | Num q => if Qle_bool 0 q then Num (inject_Z (Z.sqrt (Qfloor q))) else NaN
    | NaN => NaN
    end;
  encodeURIComponent := fun s => s;
  split_whitespace := split_on_space
|}.

Definition config : Config :=
  mkConfig Free "https://asp.testnet.arkade.example" "ark1q...".

Definition aspClient : ASPClient.t := ASPClient.make config.

(** A client whose round lookup is rejected. *)
Definition unreachable_asp : ASPClient.t :=
  ASPClient.mkClient (fun _ => inl (Error "ASP unreachable"))
    (ark_receiverPubkey config) (ark_aspUrl config).

Definition verifySpend (req : ArkVerifier.VerificationRequest)
  : exn + ArkVerifier.VerificationResult :=
  ArkVerifier.verifySpend config aspClient 2000 req.

(** The store after [GET /v1/quote?endpoint=compute&seconds=2] at instant
    [1000] on an empty store. *)
Definition issued : outcome QuotesService.QuoteResponse * DB.t :=
  QuotesService.createQuote aspClient 1000 "A" "nonceA"
    (QuotesService.mkQuoteRequest "compute" (Some {[ "seconds" := 2%Q ]}))
    DB.empty.

Definition world0 : Handlers.World := Handlers.mkWorld (snd issued) [].

Definition payment_json (spend prf : string) : jsval :=
  JObj [ ("vtxo_spend", JStr spend); ("proof", JStr prf);
         ("sender_pubkey", JStr "ark1qtest") ].

Definition body_json (quoteId : string) (payment : jsval) (endpoint : string)
  (args : jsval) : jsval :=
  JObj [ ("quote_id", JStr quoteId);
         ("ark_payment", payment);
         ("request", JObj [ ("endpoint", JStr endpoint); ("args", args) ]) ].

Definition good_payment : jsval :=
  payment_json "dGVzdGluZ3ZveG9zcGVuZGRhdGE=" "dGVzdGluZ3Byb29mZGF0YQ==".

Definition square_10 : jsval :=
  JObj [ ("operation", JStr "square"); ("value", JNum (Num 10)) ].

(** A well-formed settlement request for the issued quote. *)
Definition settle_request (key : option string) : Handlers.Request :=
  Handlers.mkRequest key (body_json "q_A" good_payment "compute" square_10).

(** The same with a payment claim that is too short to be well-formed. *)
Definition short_payment_request : Handlers.Request :=
  Handlers.mkRequest None
    (body_json "q_A" (payment_json "short" "short") "compute" square_10).

(** The same for another endpoint than the quote's. *)
Definition other_endpoint_request : Handlers.Request :=
  Handlers.mkRequest None
    (body_json "q_A" good_payment "summarize" (JObj [ ("text", JStr "some text") ])).

(** The same with arguments the [compute] worker refuses. *)
Definition no_operation_request : Handlers.Request :=
  Handlers.mkRequest (Some "k2") (body_json "q_A" good_payment "compute" (JObj [])).

(** A verifier that accepts and reports neither amount nor reference. *)
Definition terse_verifier (req : ArkVerifier.VerificationRequest)
  : exn + ArkVerifier.VerificationResult :=
  inr (ArkVerifier.mkResult true None None None None).

(** The world after the issued quote was settled under the key ["k1"]. *)
Definition settled : Handlers.World :=
  snd (Handlers.paycall verifySpend 1500 2100 "P" "J" (settle_request (Some "k1")) world0).

(** A store holding one [compute] job that asks for a square of nothing. *)
Definition square_of_nothing : DB.Job :=
  DB.mkJob "job_S" "pay_S" "compute" (JObj [ ("operation", JStr "square") ])
    DB.J_queued None None 1000 None.

Definition store_with_job : DB.t :=
  DB.set_jobs (insert "job_S" square_of_nothing) DB.empty.

End Sample.

(** ** Statements that the properties below refer to *)

(** [price] is [exact] rounded up to a whole number of sats. *)
Definition is_ceiling_of (price exact : Q) : Prop :=
  exists n : Z, price = inject_Z n /\ (exact <= inject_Z n)%Q /\ (inject_Z n < exact + 1)%Q.

(** Every pricing rule is non-decreasing in the unit count it reads, over
    all non-negative counts. *)
Definition price_monotone_from_zero : Prop :=
  forall (endpoint : string) (rule : Pricing.units_t -> Q)
         (units : Pricing.units_t) (a b : Q),
    Pricing.PRICING_RULES endpoint = Some rule ->
    (0 <= a)%Q -> (a <= b)%Q ->
    (rule (<[Pricing.relevant_unit endpoint := a]> units)
     <= rule (<[Pricing.relevant_unit endpoint := b]> units))%Q.

(** The counts for which no rule's arithmetic leaves the finite doubles. *)
Definition largest_count : Q := IEEE.pow2 1000.

(** The count a rule charges for when the units give none, or zero. *)
Definition default_count (endpoint : string) : Q :=
  if String.eqb endpoint "summarize" then 1000
  else if String.eqb endpoint "translate" then 500
  else 1.

(** What each rule charges for a count, in double-precision arithmetic:
    [summarize] and [translate] the amount per hundred, rounded up to a
    whole number of sats; the other rules the count times the rate, as it
    comes. *)
Definition charged (endpoint : string) (count : Q) : Q :=
  if String.eqb endpoint "summarize"
  then Pricing.Math_ceil (IEEE.mul (IEEE.div count 100) 5)
  else if String.eqb endpoint "translate"
  then Pricing.Math_ceil (IEEE.mul (IEEE.div count 100) 3)
  else if String.eqb endpoint "generate_image" then IEEE.mul count 50
  else IEEE.mul count 10.

(** Every pricing rule yields a whole number of sats. *)
Definition every_rule_rounds_up : Prop :=
  forall (endpoint : string) (rule : Pricing.units_t -> Q) (units : Pricing.units_t),
    Pricing.PRICING_RULES endpoint = Some rule ->
    exists n : Z, (rule units == inject_Z n)%Q.

(** A rejected round lookup does not keep [createQuote] from persisting and
    returning an active quote. *)
Definition round_hint_is_best_effort : Prop :=
  forall (aspClient : ASPClient.t) (now : Z) (quoteNano nonce : string)
         (req : QuotesService.QuoteRequest) (db : DB.t) (e : exn),
    QuotesService.endpoint req <> "" ->
    ASPClient.getCurrentRound aspClient now = inl e ->
    exists response db' quote,
      QuotesService.createQuote aspClient now quoteNano nonce req db
      = (Returns response, db')
      /\ DB.getQuote (QuotesService.r_quote_id response) db' = Some quote
      /\ DB.q_status quote = DB.Q_active.

(** Whenever the endpoint of a request differs from the endpoint of the
    stored quote it names, the request is answered [400 endpoint_mismatch]
    and the verifier is not called. *)
Definition endpoint_mismatch_is_always_400 : Prop :=
  forall (rt : Runtime)
         (verifySpend : ArkVerifier.VerificationRequest
                        -> exn + ArkVerifier.VerificationResult)
         (t1 t2 : Z) (payNano jobNano : string) (req : Handlers.Request)
         (w : Handlers.World) (body : Handlers.PayCallBody) (quote : DB.Quote),
    Handlers.PayCallBodySchema_parse (Handlers.body req) = inr body ->
    DB.getQuote (Handlers.quote_id body) (Handlers.db w) = Some quote ->
    DB.q_endpoint quote <> Handlers.endpoint (Handlers.request body) ->
    exists w',
      Handlers.paycall verifySpend t1 t2 payNano jobNano req w
      = (Returns Handlers.endpoint_mismatch, w')
      /\ Handlers.verifier_calls w' = Handlers.verifier_calls w.

(** The schedule in which two requests for the quote of [Sample.world0]
    overlap: both handlers reach the verifier before either is answered. *)
Definition overlapping_settlements : list Server.event :=
  [ Server.Arrive 1 1500 (Sample.settle_request None);
    Server.Arrive 2 1501 (Sample.settle_request None);
    Server.Answer 1 2100 "P1" "J1";
    Server.Answer 2 2101 "P2" "J2" ].

(** ** Statements about the store as a whole *)

(** No two quotes carry the same nonce. *)
Definition nonces_unique (db : DB.t) : Prop :=
  forall id1 id2 q1 q2,
    DB.getQuote id1 db = Some q1 -> DB.getQuote id2 db = Some q2 ->
    DB.q_nonce q1 = DB.q_nonce q2 -> id1 = id2.

(** Every row sits under its own identifier. *)
Definition keys_match (db : DB.t) : Prop :=
  (forall id q, DB.getQuote id db = Some q -> DB.q_id q = id)
  /\ (forall id p, DB.getPayment id db = Some p -> DB.p_id p = id)
  /\ (forall id j, DB.getJob id db = Some j -> DB.j_id j = id)
  /\ (forall key entry, DB.idempotency_keys db !! key = Some entry -> DB.k_key entry = key).

(** Every payment names a stored quote and every job a stored payment. *)
Definition references_resolve (db : DB.t) : Prop :=
  (forall id p, DB.getPayment id db = Some p -> is_Some (DB.getQuote (DB.p_quote_id p) db))
  /\ (forall id j, DB.getJob id db = Some j -> is_Some (DB.getPayment (DB.j_payment_id j) db)).

Definition store_ok (db : DB.t) : Prop :=
  keys_match db /\ references_resolve db /\ nonces_unique db.

(** [q'] is [q] with, at most, another status. *)
Definition same_but_status (q q' : DB.Quote) : Prop :=
  DB.with_status (DB.q_status q) q' = q.

(** [j'] is [j] with, at most, another status, result, error message and
    completion time, and is not [queued] again once [j] has left that
    status. *)
Definition same_job (j j' : DB.Job) : Prop :=
  DB.j_id j' = DB.j_id j
  /\ DB.j_payment_id j' = DB.j_payment_id j
  /\ DB.j_endpoint j' = DB.j_endpoint j
  /\ DB.j_args_json j' = DB.j_args_json j
  /\ DB.j_created_at j' = DB.j_created_at j
  /\ (DB.j_status j <> DB.J_queued -> DB.j_status j' <> DB.J_queued).

(** What [db'] keeps of [db]: every payment as it was; every job with the
    payment, endpoint and arguments it was created with; every quote with at
    most another status, and none made [active] again. *)
Definition rows_kept (db db' : DB.t) : Prop :=
  (forall id p, DB.getPayment id db = Some p -> DB.getPayment id db' = Some p)
  /\ (forall id j, DB.getJob id db = Some j ->
        exists j', DB.getJob id db' = Some j' /\ same_job j j')
  /\ (forall id q, DB.getQuote id db = Some q ->
        exists q', DB.getQuote id db' = Some q' /\ same_but_status q q'
                   /\ (DB.q_status q <> DB.Q_active -> DB.q_status q' <> DB.Q_active)).

(** The statements the services send to the store, one for each call of a
    database method in [quotes.ts], [jobs.ts] and [handlers.ts], with the
    arguments given there.  Every one is a single synchronous SQLite
    statement. *)
Inductive statement : Type :=
(** [db.createQuote(quote)] in [QuotesService.createQuote] *)
| InsertQuote (now : Z) (quote : DB.Quote)
(** [db.updateQuoteStatus(quoteId, 'expired')] in [getValidQuote] *)
| ExpireQuote (id : string)
(** [db.updateQuoteStatus(quoteId, 'used')] in [markQuoteUsed] *)
| UseQuote (id : string)
(** [db.createPayment(...)] in the handler *)
| InsertPayment (now : Z) (payment : DB.Payment)
(** [db.createJob(...)] in [JobsService.createJob] *)
| InsertJob (now : Z) (job : DB.Job)
(** [db.updateJob(jobId, { status: 'processing' })] *)
| StartJob (id : string)
(** [db.updateJob(jobId, { status: 'completed', result_json, completed_at })] *)
| CompleteJob (id : string) (result_json : option (option jsval)) (now : Z)
(** [db.updateJob(jobId, { status: 'failed', error_message, completed_at })] *)
| FailJob (id : string) (message : string) (now : Z)
(** [db.setIdempotencyKey(key, JSON.stringify(response), 120)] *)
| SetIdempotencyKey (now : Z) (key : string) (response : jsval) (ttl : Z)
(** [DELETE FROM idempotency_keys ...], the first statement of
    [db.cleanupExpired()] *)
| DeleteExpiredKeys (now : Z)
(** [UPDATE quotes SET status = 'expired' ...], its second statement *)
| ExpireDueQuotes (now : Z).

Definition execute (db : DB.t) (s : statement) : DB.t :=
  match s with
  | InsertQuote now quote => snd (DB.createQuote now quote db)
  | ExpireQuote id => DB.updateQuoteStatus id DB.Q_expired db
  | UseQuote id => DB.updateQuoteStatus id DB.Q_used db
  | InsertPayment now payment => snd (DB.createPayment now payment db)
  | InsertJob now job => snd (DB.createJob now job db)
  | StartJob id =>
      DB.updateJob id (DB.mkJobUpdates (Some DB.J_processing) None None None) db
  | CompleteJob id result_json now =>
      DB.updateJob id
        (DB.mkJobUpdates (Some DB.J_completed) result_json None (Some (Some now))) db
  | FailJob id message now =>
      DB.updateJob id
        (DB.mkJobUpdates (Some DB.J_failed) None (Some (Some message))
           (Some (Some now))) db
  | SetIdempotencyKey now key response ttl =>
      DB.setIdempotencyKey now key response ttl db
  | DeleteExpiredKeys now =>
      DB.set_idempotency_keys
        (filter (fun kv => DB.sql_lt_now (DB.k_expires_at (snd kv)) now = false)) db
  | ExpireDueQuotes now => DB.set_quotes (fmap (DB.expire_if_due now)) db
  end.

(** [db'] is [db] after some statements, in some order, from any number of
    handlers. *)
Definition executed (db db' : DB.t) : Prop :=
  exists trace : list statement, db' = fold_left execute trace db.

(** A turn of [awaitJobResult]'s loop that finds the job unfinished, within
    the time allowed, and so goes on to the next turn. *)
Definition still_running (jobId : string) (timeoutMs startTime : Z)
  (poll : Z * DB.t) : Prop :=
  fst poll - startTime < timeoutMs
  /\ exists job, DB.getJob jobId (snd poll) = Some job
                 /\ (DB.j_status job = DB.J_queued \/ DB.j_status job = DB.J_processing).

(** The query parameters [GET /v1/quote] reads as unit counts. *)
Definition count_parameters : list string :=
  [ "tokens"; "images"; "characters"; "seconds"; "amount" ].

(** A runtime whose [Number] reads decimal numerals, to evaluate the query
    parameters of [GET /v1/quote]; its other primitives are those of
    [Sample.runtime]. *)
Definition decimal_runtime : Runtime := {|
  toISOString := @toISOString Sample.runtime;
  ToString := @ToString Sample.runtime;
  string_to_number := fun s =>
    match DecimalString.NilZero.int_of_string s with
    | Some i => Num (inject_Z (Z.of_int i))
    | None => NaN
    end;
  Math_sqrt := @Math_sqrt Sample.runtime;
  encodeURIComponent := @encodeURIComponent Sample.runtime;
  split_whitespace := @split_whitespace Sample.runtime
|}.

(** A quote for [default], an endpoint that has a price and no worker,
    issued at instant [1000] on an empty store, and a well-formed settlement
    request for it. *)
Definition unserved_world : Handlers.World :=
  Handlers.mkWorld
    (snd (QuotesService.createQuote Sample.aspClient 1000 "D" "nonceD"
            (QuotesService.mkQuoteRequest "default" None) DB.empty)) [].

Definition unserved_request : Handlers.Request :=
  Handlers.mkRequest None
    (Sample.body_json "q_D" Sample.good_payment "default" (JObj [])).


(** A quote as the issuer stores it, and a later one that repeats its
    nonce under another identifier. *)
Definition first_quote : DB.Quote :=
  DB.mkQuote "q_A" "compute" {[ "seconds" := 2%Q ]} 20 31000 "nonceA"
    "ark1q..." "https://asp.testnet.arkade.example" DB.Q_active 1000.

Definition replayed_nonce : DB.Quote :=
  DB.mkQuote "q_B" "summarize" {[ "tokens" := 1000%Q ]} 50 5030000 "nonceA"
    "ark1q..." "https://asp.testnet.arkade.example" DB.Q_active 5000000.

(** * Properties *)

(** ** The store: which tables an operation leaves alone *)

Section Frames.

Context `{rt : Runtime}.

Lemma getValidQuote_Some now quoteId db quote db1 :
  QuotesService.getValidQuote now quoteId db = (Some quote, db1) ->
  db1 = db
  /\ DB.getQuote quoteId db = Some quote
  /\ DB.q_status quote = DB.Q_active
  /\ now <= DB.q_expires_at quote.
Proof.
  unfold QuotesService.getValidQuote.
  destruct (DB.getQuote quoteId db) as [q|]; [|discriminate].
  destruct (Z.ltb_spec (DB.q_expires_at q) now); [discriminate|].
  destruct (DB.q_status q) eqn:Hs; try discriminate.
  intros [= <- <-]. auto.
Qed.

Lemma getValidQuote_valid now quoteId db quote :
  DB.getQuote quoteId db = Some quote ->
  DB.q_status quote = DB.Q_active ->
  now <= DB.q_expires_at quote ->
  QuotesService.getValidQuote now quoteId db = (Some quote, db).
Proof.
  intros Hq Hs Ht. unfold QuotesService.getValidQuote. rewrite Hq.
  destruct (Z.ltb_spec (DB.q_expires_at quote) now); [lia|]. by rewrite Hs.
Qed.

Lemma createPayment_Returns now payment db row db1 :
  DB.createPayment now payment db = (inr row, db1) ->
  DB.payments db !! DB.p_id payment = None
  /\ db1 = DB.set_payments (insert (DB.p_id payment) row) db
  /\ DB.p_id row = DB.p_id payment
  /\ DB.p_quote_id row = DB.p_quote_id payment
  /\ DB.p_paid_sats row = DB.p_paid_sats payment
  /\ DB.p_ark_ref row = DB.p_ark_ref payment
  /\ DB.p_status row = DB.p_status payment.
Proof.
  unfold DB.createPayment.
  destruct (DB.payments db !! DB.p_id payment); [discriminate|].
  destruct (DB.quotes db !! DB.p_quote_id payment); [|discriminate].
  intros [= <- <-]. auto 10.
Qed.

Lemma createPayment_fails now payment db e db1 :
  DB.createPayment now payment db = (inl e, db1) ->
  db1 = db
  /\ (is_Some (DB.payments db !! DB.p_id payment)
      \/ DB.quotes db !! DB.p_quote_id payment = None).
Proof.
  unfold DB.createPayment.
  destruct (DB.payments db !! DB.p_id payment).
  { intros [= <- <-]. eauto. }
  destruct (DB.quotes db !! DB.p_quote_id payment); [discriminate|].
  intros [= <- <-]. auto.
Qed.

Lemma createJob_Returns now job db row db1 :
  DB.createJob now job db = (inr row, db1) ->
  DB.jobs db !! DB.j_id job = None
  /\ db1 = DB.set_jobs (insert (DB.j_id job) row) db
  /\ DB.j_id row = DB.j_id job
  /\ DB.j_endpoint row = DB.j_endpoint job
  /\ DB.j_args_json row = DB.j_args_json job.
Proof.
  unfold DB.createJob.
  destruct (DB.jobs db !! DB.j_id job); [discriminate|].
  destruct (DB.payments db !! DB.j_payment_id job); [|discriminate].
  intros [= <- <-]. auto 10.
Qed.

Lemma createJob_fails now job db e db1 :
  DB.createJob now job db = (inl e, db1) ->
  db1 = db
  /\ (is_Some (DB.jobs db !! DB.j_id job)
      \/ DB.payments db !! DB.j_payment_id job = None).
Proof.
  unfold DB.createJob.
  destruct (DB.jobs db !! DB.j_id job).
  { intros [= <- <-]. eauto. }
  destruct (DB.payments db !! DB.j_payment_id job); [discriminate|].
  intros [= <- <-]. auto.
Qed.

Lemma updateJob_frame id updates db :
  DB.quotes (DB.updateJob id updates db) = DB.quotes db
  /\ DB.payments (DB.updateJob id updates db) = DB.payments db
  /\ DB.idempotency_keys (DB.updateJob id updates db) = DB.idempotency_keys db.
Proof. unfold DB.updateJob. by destruct (DB.no_updates updates). Qed.

Lemma updateJob_other id id' updates db :
  id <> id' ->
  DB.jobs (DB.updateJob id updates db) !! id' = DB.jobs db !! id'.
Proof.
  intros Hne. unfold DB.updateJob. destruct (DB.no_updates updates); [done|].
  cbn. by rewrite lookup_alter_ne.
Qed.

Lemma updateJob_status id status r e c db :
  DB.jobs (DB.updateJob id (DB.mkJobUpdates (Some status) r e c) db) !! id
  = DB.apply_updates (DB.mkJobUpdates (Some status) r e c) <$> DB.jobs db !! id.
Proof. cbn. by rewrite lookup_alter_eq. Qed.

(** [executeJob] touches the [jobs] table only, and in it only its job. *)
Lemma executeJob_frame now jobId db out db1 :
  JobsService.executeJob now jobId db = (out, db1) ->
  DB.quotes db1 = DB.quotes db
  /\ DB.payments db1 = DB.payments db
  /\ DB.idempotency_keys db1 = DB.idempotency_keys db
  /\ (forall id', jobId <> id' -> DB.jobs db1 !! id' = DB.jobs db !! id').
Proof.
  unfold JobsService.executeJob, JobsService.job_failed.
  destruct (DB.getJob jobId db) as [job|]; [|by intros [= <- <-]].
  destruct (table_get JobsService.WORKERS (DB.j_endpoint job)) as [worker| |];
    [destruct (worker now (JSON_parse (DB.j_args_json job)))| |];
    intros [= <- <-]; cbn; repeat split; intros; by rewrite ?lookup_alter_ne.
Qed.

(** What [executeJob] does to its job. *)
Lemma executeJob_job now jobId db job :
  DB.getJob jobId db = Some job ->
  match JobsService.executeJob now jobId db with
  | (Returns result, db1) =>
      exists job1, DB.jobs db1 !! jobId = Some job1
      /\ match JobsService.status result with
         | JobsService.S_ok =>
             DB.j_status job1 = DB.J_completed
             /\ (exists r, JobsService.result result = Some r
                           /\ DB.j_result_json job1
                              = default (DB.j_result_json job) (JobsService.stringified r))
             /\ DB.j_completed_at job1 = Some now
         | JobsService.S_error =>
             DB.j_status job1 = DB.J_failed
             /\ (exists m, JobsService.error result = Some m
                           /\ DB.j_error_message job1 = Some m)
             /\ DB.j_completed_at job1 = Some now
         end
  | (Throws _, _) => False
  | (Unmodelled, db1) =>
      exists job1, DB.jobs db1 !! jobId = Some job1
                   /\ DB.j_status job1 = DB.J_processing
  end.
Proof.
  intros Hjob. unfold JobsService.executeJob, JobsService.job_failed.
  rewrite Hjob. unfold DB.getJob in Hjob.
  destruct (table_get JobsService.WORKERS (DB.j_endpoint job)) as [worker| |];
    [destruct (worker now (JSON_parse (DB.j_args_json job)))| |];
    cbn; rewrite ?lookup_alter_eq, Hjob; cbn; eauto 10.
Qed.

End Frames.

(** ** The handler, stage by stage *)

Section Paycall.

Context `{rt : Runtime}.

(** A handler that reaches the verifier has found no cached response, a
    well-formed body and a valid quote for the requested endpoint, and has
    changed nothing in the store. *)
Lemma paycall_begin_suspends now req w s w1 :
  Handlers.paycall_begin now req w = (inr s, w1) ->
  Handlers.cached_response now req w = None
  /\ Handlers.PayCallBodySchema_parse (Handlers.body req) = inr (Handlers.s_body s)
  /\ DB.getQuote (Handlers.quote_id (Handlers.s_body s)) (Handlers.db w)
     = Some (Handlers.s_quote s)
  /\ DB.q_status (Handlers.s_quote s) = DB.Q_active
  /\ now <= DB.q_expires_at (Handlers.s_quote s)
  /\ DB.q_endpoint (Handlers.s_quote s)
     = Handlers.endpoint (Handlers.request (Handlers.s_body s))
  /\ Handlers.s_idempotencyKey s = Handlers.idempotencyKey_of req
  /\ ArkVerifier.expectedSats (Handlers.s_request s) = DB.q_price_sats (Handlers.s_quote s)
  /\ w1 = Handlers.mkWorld (Handlers.db w)
            (Handlers.verifier_calls w ++ [Handlers.s_request s]).
Proof.
  unfold Handlers.paycall_begin.
  destruct (Handlers.cached_response now req w); [discriminate|].
  destruct (Handlers.PayCallBodySchema_parse (Handlers.body req)) as [|body];
    [discriminate|].
  destruct (QuotesService.getValidQuote now (Handlers.quote_id body) (Handlers.db w))
    as [[quote|] db1] eqn:Hq; [|discriminate].
  apply getValidQuote_Some in Hq as (-> & Hq & Hs & Ht).
  destruct (String.eqb_spec (DB.q_endpoint quote)
              (Handlers.endpoint (Handlers.request body))); [|discriminate].
  intros [= <- <-]. cbn. auto 12.
Qed.

(** Conversely, those checks are all that stands before the verifier. *)
Lemma paycall_begin_reaches_verifier now req w body quote :
  Handlers.cached_response now req w = None ->
  Handlers.PayCallBodySchema_parse (Handlers.body req) = inr body ->
  DB.getQuote (Handlers.quote_id body) (Handlers.db w) = Some quote ->
  DB.q_status quote = DB.Q_active ->
  now <= DB.q_expires_at quote ->
  DB.q_endpoint quote = Handlers.endpoint (Handlers.request body) ->
  exists s,
    Handlers.paycall_begin now req w
    = (inr s, Handlers.mkWorld (Handlers.db w)
                (Handlers.verifier_calls w ++ [Handlers.s_request s]))
    /\ Handlers.s_body s = body /\ Handlers.s_quote s = quote.
Proof.
  intros Hmiss Hparse Hquote Hactive Hfresh Hsame.
  unfold Handlers.paycall_begin.
  rewrite Hmiss, Hparse, (getValidQuote_valid _ _ _ _ Hquote Hactive Hfresh).
  rewrite Hsame, String.eqb_refl. cbn [negb].
  eexists (Handlers.mkSuspended _ _ _ _). split; [reflexivity|]. by split.
Qed.

(** Without reaching the verifier, a handler changes at most the status of
    the quote it names, and calls no verifier. *)
Lemma paycall_begin_replies now req w reply w1 :
  Handlers.paycall_begin now req w = (inl reply, w1) ->
  Handlers.verifier_calls w1 = Handlers.verifier_calls w
  /\ DB.payments (Handlers.db w1) = DB.payments (Handlers.db w)
  /\ DB.jobs (Handlers.db w1) = DB.jobs (Handlers.db w)
  /\ DB.idempotency_keys (Handlers.db w1) = DB.idempotency_keys (Handlers.db w).
Proof.
  unfold Handlers.paycall_begin.
  destruct (Handlers.cached_response now req w); [by intros [= <- <-]|].
  destruct (Handlers.PayCallBodySchema_parse (Handlers.body req)) as [|body];
    [by intros [= <- <-]|].
  unfold QuotesService.getValidQuote.
  destruct (DB.getQuote (Handlers.quote_id body) (Handlers.db w)) as [quote|];
    [|by intros [= <- <-]].
  destruct (DB.q_expires_at quote <? now); [by intros [= <- <-]|].
  destruct (DB.q_status quote);
    try (by intros [= <- <-]).
  destruct (negb _); [by intros [= <- <-]|discriminate].
Qed.

(** A rejected or failed verification ends the handler at once. *)
Lemma paycall_resume_rejected now payNano jobNano s verified w :
  ArkVerifier.ok verified = false ->
  Handlers.paycall_resume now payNano jobNano s (inr verified) w
  = (Returns (Handlers.payment_invalid (ArkVerifier.reason verified)), w).
Proof. intros Hok. unfold Handlers.paycall_resume. by rewrite Hok. Qed.

(** The ways a handler ends once the verifier has accepted the payment:
    the payment row is refused; or it is recorded and the quote marked used,
    and then the job row is refused, or the job runs and fails, or its worker
    is outside the model, or it completes. *)
Lemma paycall_resume_accepted now payNano jobNano s verified w out w1 :
  ArkVerifier.ok verified = true ->
  Handlers.paycall_resume now payNano jobNano s (inr verified) w = (out, w1) ->
  let body := Handlers.s_body s in
  let key := Handlers.s_idempotencyKey s in
  let paymentId := "pay_" ++ payNano in
  let jobId := "job_" ++ jobNano in
  let db0 := Handlers.db w in
  let db1 := Handlers.db w1 in
  Handlers.verifier_calls w1 = Handlers.verifier_calls w
  /\ ((exists e, out = Returns (Handlers.catch_reply e) /\ db1 = db0
                 /\ (is_Some (DB.payments db0 !! paymentId)
                     \/ DB.quotes db0 !! Handlers.quote_id body = None))
      \/ (exists payment,
            DB.payments db0 !! paymentId = None
            /\ DB.payments db1 = <[paymentId := payment]> (DB.payments db0)
            /\ DB.p_quote_id payment = Handlers.quote_id body
            /\ DB.p_paid_sats payment = Handlers.paid_sats_of verified (Handlers.s_quote s)
            /\ DB.p_ark_ref payment = Handlers.ark_ref_of verified
            /\ DB.p_status payment = DB.P_verified
            /\ DB.quotes db1
               = alter (DB.with_status DB.Q_used) (Handlers.quote_id body) (DB.quotes db0)
            /\ ((exists e, out = Returns (Handlers.catch_reply e)
                           /\ is_Some (DB.jobs db0 !! jobId)
                           /\ DB.jobs db1 = DB.jobs db0
                           /\ DB.idempotency_keys db1 = DB.idempotency_keys db0)
                \/ (exists job,
                      DB.jobs db0 !! jobId = None
                      /\ DB.jobs db1 !! jobId = Some job
                      /\ (forall id', jobId <> id' -> DB.jobs db1 !! id' = DB.jobs db0 !! id')
                      /\ ((DB.j_status job = DB.J_failed
                           /\ out = Returns (Handlers.job_execution_failed
                                               (DB.j_error_message job))
                           /\ DB.idempotency_keys db1 = DB.idempotency_keys db0)
                          \/ (DB.j_status job = DB.J_processing
                              /\ out = Unmodelled
                              /\ DB.idempotency_keys db1 = DB.idempotency_keys db0)
                          \/ (DB.j_status job = DB.J_completed
                              /\ exists result,
                                  let response :=
                                    Handlers.ok_response verified (Handlers.s_quote s)
                                      (Some result) jobId paymentId in
                                  out = Returns (Handlers.mkReply 200 response)
                                  /\ DB.idempotency_keys db1
                                     = if truthy_string key
                                       then <[key := DB.mkIdempotencyKey key
                                                       (JSON_stringify response) now
                                                       (now + 120 * 1000)]>
                                              (DB.idempotency_keys db0)
                                       else DB.idempotency_keys db0)))))).
Proof.
  intros Hok. unfold Handlers.paycall_resume. rewrite Hok. cbn [negb].
  set (payment := DB.mkPayment _ _ _ _ _ _ _ _ _).
  destruct (DB.createPayment now payment (Handlers.db w)) as [[e|row] dbp] eqn:Hp.
  { apply createPayment_fails in Hp as [-> Hwhy].
    intros [= <- <-]. cbn. eauto 10. }
  apply createPayment_Returns in Hp as (Hfresh & -> & Hid & Hqid & Hpaid & Href & Hst).
  cbn in Hfresh, Hid, Hqid, Hpaid, Href, Hst.
  set (req := JobsService.mkJobRequest _ _ _).
  set (db2 := QuotesService.markQuoteUsed _ _).
  destruct (JobsService.createJob now jobNano req db2) as [[e|job] db3] eqn:Hj.
  { unfold JobsService.createJob in Hj.
    apply createJob_fails in Hj as [-> Hwhy]. cbn in Hwhy.
    rewrite lookup_insert_eq in Hwhy.
    destruct Hwhy as [Hwhy|?]; [|discriminate].
    intros [= <- <-]. cbn. split; [done|]. right. exists row. eauto 15. }
  unfold JobsService.createJob in Hj.
  apply createJob_Returns in Hj as (Hjfresh & -> & Hjid & _ & _).
  cbn in Hjfresh, Hjid. rewrite Hjid.
  set (db3 := DB.set_jobs _ db2).
  assert (Hget : DB.getJob ("job_" ++ jobNano) db3 = Some job)
    by (unfold DB.getJob; cbn; apply lookup_insert_eq).
  pose proof (executeJob_job now _ _ _ Hget) as Hrun.
  destruct (JobsService.executeJob now ("job_" ++ jobNano) db3) as [outj db4] eqn:He.
  apply executeJob_frame in He as (Hq4 & Hp4 & Hk4 & Hj4).
  assert (Hothers : forall id', "job_" ++ jobNano <> id' ->
            DB.jobs db4 !! id' = DB.jobs (Handlers.db w) !! id').
  { intros id' Hne. rewrite Hj4 by done. cbn. by rewrite lookup_insert_ne. }
  destruct outj as [result|e|]; [|done|].
  - destruct Hrun as (job1 & Hjob1 & Hrun).
    destruct (JobsService.status result).
    + destruct Hrun as (Hs & (r & Hr & Hjson) & _). rewrite Hr.
      destruct (truthy_string (Handlers.s_idempotencyKey s)) eqn:Hkey;
        intros [= <- <-]; cbn -[JSON_stringify Handlers.ok_response];
        rewrite ?Hp4, ?Hq4, ?Hk4; cbn -[JSON_stringify Handlers.ok_response];
        (split; [done|]); right; exists row; (do 7 (split; [done|]));
        right; exists job1; (do 3 (split; [done|])); right; right;
        (split; [done|]); exists r; by rewrite ?Hkey.
    + destruct Hrun as (Hs & (m & Hm & Hmsg) & _).
      intros [= <- <-]. cbn. split; [done|]. right. exists row.
      rewrite Hp4, Hq4, Hk4. cbn. do 7 (split; [done|]).
      right. exists job1. do 3 (split; [done|]). left.
      by rewrite Hm, Hmsg.
  - destruct Hrun as (job1 & Hjob1 & Hs).
    intros [= <- <-]. cbn. split; [done|]. right. exists row.
    rewrite Hp4, Hq4, Hk4. cbn. do 7 (split; [done|]).
    right. exists job1. do 3 (split; [done|]). right. left. done.
Qed.

(** No invocation stores an entry under the empty key, the value an absent
    [Idempotency-Key] header is read as. *)
Lemma empty_key_is_never_stored verifySpend t1 t2 payNano jobNano req w :
  DB.idempotency_keys (Handlers.db w) !! "" = None ->
  DB.idempotency_keys
    (Handlers.db (snd (Handlers.paycall verifySpend t1 t2 payNano jobNano req w))) !! ""
  = None.
Proof.
  intros Hnone. unfold Handlers.paycall.
  destruct (Handlers.paycall_begin t1 req w) as [[reply|s] w1] eqn:Hbegin.
  { apply paycall_begin_replies in Hbegin as (_ & _ & _ & Hkeys).
    cbn [snd]. by rewrite Hkeys. }
  apply paycall_begin_suspends in Hbegin as (_ & _ & _ & _ & _ & _ & _ & _ & ->).
  destruct (verifySpend (Handlers.s_request s)) as [e|verified]; [done|].
  destruct (ArkVerifier.ok verified) eqn:Hok;
    [|by rewrite paycall_resume_rejected].
  destruct (Handlers.paycall_resume t2 payNano jobNano s (inr verified) _)
    as [out w'] eqn:Hresume.
  apply paycall_resume_accepted in Hresume as (_ & Hcases); [|done].
  cbn [Handlers.db snd] in *.
  destruct Hcases as [(e & _ & -> & _)|(payment & _ & _ & _ & _ & _ & _ & _ & Hjob)];
    [done|].
  destruct Hjob as [(e & _ & _ & _ & ->)|(job & _ & _ & _ & Hend)]; [done|].
  destruct Hend as [(_ & _ & ->)|[(_ & _ & ->)|(_ & result & _ & ->)]]; [done..|].
  destruct (Handlers.s_idempotencyKey s) as [|c key]; [done|].
  cbn [truthy_string]. by rewrite lookup_insert_ne.
Qed.

End Paycall.

(** ** Rounding to the nearest double is monotone *)

Lemma pow2_pos (e : Z) : (0 < IEEE.pow2 e)%Q.
Proof. apply Qpower_0_lt. reflexivity. Qed.

Lemma pow2_plus (a b : Z) : (IEEE.pow2 (a + b) == IEEE.pow2 a * IEEE.pow2 b)%Q.
Proof. apply Qpower_plus. discriminate. Qed.

Lemma pow2_le (a b : Z) : (a <= b)%Z -> (IEEE.pow2 a <= IEEE.pow2 b)%Q.
Proof. intros Hab. apply Qpower_le_compat_l; [exact Hab|]. discriminate. Qed.

Lemma pow2_succ (a : Z) : (IEEE.pow2 (a + 1) == 2 * IEEE.pow2 a)%Q.
Proof. rewrite pow2_plus. change (IEEE.pow2 1) with 2%Q. ring. Qed.

Lemma pow2_inject (n : Z) : (0 <= n)%Z -> (inject_Z (2 ^ n) == IEEE.pow2 n)%Q.
Proof. intros Hn. apply (Zpower_Qpower 2 n Hn). Qed.

Lemma Qabs_num_den (q : Q) :
  (Qabs q * inject_Z (Z.pos (Qden q)) == inject_Z (Z.abs (Qnum q)))%Q.
Proof.
  destruct q as [n d]. unfold Qabs, Qeq, Qmult, inject_Z. cbn. lia.
Qed.

(** [ilog2] brackets its argument between two powers of two. *)
Lemma ilog2_spec (q : Q) :
  ~ (q == 0)%Q ->
  (IEEE.pow2 (IEEE.ilog2 q) <= Qabs q)%Q /\ (Qabs q < IEEE.pow2 (IEEE.ilog2 q + 1))%Q.
Proof.
  intros Hq.
  assert (Hn : (0 < Z.abs (Qnum q))%Z).
  { destruct q as [n d]. unfold Qeq in Hq. cbn in *. lia. }
  pose proof (Z.log2_spec _ Hn) as [Hn1 Hn2].
  pose proof (Z.log2_spec (Z.pos (Qden q)) ltac:(lia)) as [Hd1 Hd2].
  pose proof (Z.log2_nonneg (Z.abs (Qnum q))) as Hln.
  pose proof (Z.log2_nonneg (Z.pos (Qden q))) as Hld.
  set (ln := Z.log2 (Z.abs (Qnum q))) in *.
  set (ld := Z.log2 (Z.pos (Qden q))) in *.
  pose proof (Qabs_num_den q) as Hx.
  rewrite Zle_Qle, pow2_inject in Hn1, Hd1 by lia.
  rewrite Zlt_Qlt in Hn2, Hd2.
  replace (Z.succ ln) with (ln + 1)%Z in Hn2 by lia.
  replace (Z.succ ld) with (ld + 1)%Z in Hd2 by lia.
  rewrite pow2_inject, pow2_succ in Hn2, Hd2 by lia.
  assert (Hk : (IEEE.pow2 (ln - ld) * IEEE.pow2 ld == IEEE.pow2 ln)%Q).
  { rewrite <- pow2_plus. replace (ln - ld + ld)%Z with ln by lia. reflexivity. }
  pose proof (pow2_pos (ln - ld)) as Hpk.
  pose proof (pow2_pos ld) as Hpd.
  pose proof (pow2_pos ln) as Hpn.
  pose proof (Qabs_nonneg q) as Hx0.
  unfold IEEE.ilog2. fold ln ld.
  set (x := Qabs q) in *.
  set (n := inject_Z (Z.abs (Qnum q))) in *.
  set (d := inject_Z (Z.pos (Qden q))) in *.
  set (A := IEEE.pow2 (ln - ld)) in *.
  set (B := IEEE.pow2 ld) in *.
  set (C := IEEE.pow2 ln) in *.
  destruct (Qle_bool A x) eqn:Htest.
  - apply Qle_bool_iff in Htest. split; [exact Htest|].
    rewrite pow2_succ. fold A.
    destruct (Qlt_le_dec x (2 * A)) as [Hlt|Hge]; [exact Hlt|exfalso].
    assert (H1 : (2 * A * B <= x * d)%Q).
    { apply Qle_trans with (x * B)%Q.
      - apply Qmult_le_compat_r; lra.
      - rewrite (Qmult_comm x B), (Qmult_comm x d). apply Qmult_le_compat_r; lra. }
    rewrite Hx in H1. rewrite <- Qmult_assoc, Hk in H1. lra.
  - assert (Hlt : (x < A)%Q).
    { destruct (Qlt_le_dec x A) as [Hlt|Hge]; [exact Hlt|].
      apply Qle_bool_iff in Hge. congruence. }
    replace (ln - ld - 1 + 1)%Z with (ln - ld)%Z by lia. fold A.
    split; [|exact Hlt].
    assert (Hhalf : (2 * IEEE.pow2 (ln - ld - 1) == A)%Q).
    { rewrite <- pow2_succ. replace (ln - ld - 1 + 1)%Z with (ln - ld)%Z by lia.
      reflexivity. }
    destruct (Qlt_le_dec x (IEEE.pow2 (ln - ld - 1))) as [Hlow|Hok]; [exfalso|exact Hok].
    assert (H1 : (x * d <= IEEE.pow2 (ln - ld - 1) * (2 * B))%Q).
    { apply Qle_trans with (x * (2 * B))%Q.
      - rewrite (Qmult_comm x d), (Qmult_comm x (2 * B)).
        apply Qmult_le_compat_r; lra.
      - apply Qmult_le_compat_r; lra. }
    rewrite Hx in H1.
    assert (H2 : (IEEE.pow2 (ln - ld - 1) * (2 * B) == C)%Q).
    { rewrite <- Hk, <- Hhalf. ring. }
    rewrite H2 in H1.
    (* n = C and x*d = n with x < pow2 (k-1): strictness *)
    assert (H3 : (x * d < IEEE.pow2 (ln - ld - 1) * (2 * B))%Q).
    { apply Qlt_le_trans with (IEEE.pow2 (ln - ld - 1) * d)%Q.
      - apply Qmult_lt_compat_r; lra.
      - rewrite (Qmult_comm _ d), (Qmult_comm _ (2 * B)).
        apply Qmult_le_compat_r; [lra|]. pose proof (pow2_pos (ln - ld - 1)). lra. }
    rewrite Hx, H2 in H3. lra.
Qed.

Lemma ilog2_mono (x y : Q) :
  (0 < x)%Q -> (x <= y)%Q -> (IEEE.ilog2 x <= IEEE.ilog2 y)%Z.
Proof.
  intros Hx Hxy.
  destruct (ilog2_spec x) as [Hx1 _]; [lra|].
  destruct (ilog2_spec y) as [_ Hy2]; [lra|].
  rewrite Qabs_pos in Hx1, Hy2 by lra.
  assert (Hlt : (IEEE.pow2 (IEEE.ilog2 x) < IEEE.pow2 (IEEE.ilog2 y + 1))%Q) by lra.
  apply Qpower_lt_compat_l_inv in Hlt; [lia|reflexivity].
Qed.

Lemma round_half_even_bounds (q : Q) :
  (Qfloor q <= IEEE.round_half_even q <= Qfloor q + 1)%Z.
Proof.
  unfold IEEE.round_half_even.
  destruct (Qle_bool _ _); [destruct (Qle_bool _ _); [destruct (Z.even _)|]|]; lia.
Qed.

Lemma round_half_even_Z (z : Z) : IEEE.round_half_even (inject_Z z) = z.
Proof.
  unfold IEEE.round_half_even. rewrite Qfloor_Z.
  assert (Hr : (inject_Z z - inject_Z z == 0)%Q) by ring.
  destruct (Qle_bool (inject_Z z - inject_Z z) (1 # 2)) eqn:H1.
  - destruct (Qle_bool (1 # 2) (inject_Z z - inject_Z z)) eqn:H2; [|reflexivity].
    apply Qle_bool_iff in H2. rewrite Hr in H2. exfalso. revert H2. by vm_compute.
  - assert (H : Qle_bool (inject_Z z - inject_Z z) (1 # 2) = true).
    { apply Qle_bool_iff. rewrite Hr. by vm_compute. }
    congruence.
Qed.

Lemma round_half_even_mono (x y : Q) :
  (x <= y)%Q -> (IEEE.round_half_even x <= IEEE.round_half_even y)%Z.
Proof.
  intros Hxy.
  pose proof (Qfloor_resp_le _ _ Hxy) as Hf.
  pose proof (round_half_even_bounds x) as Hbx.
  pose proof (round_half_even_bounds y) as Hby.
  destruct (Z.eq_dec (Qfloor x) (Qfloor y)) as [Heq|Hne]; [|lia].
  clear Hbx Hby. unfold IEEE.round_half_even. rewrite <- Heq.
  set (f := inject_Z (Qfloor x)).
  destruct (Qle_bool (x - f) (1 # 2)) eqn:Hx1;
    destruct (Qle_bool (1 # 2) (x - f)) eqn:Hx2;
    destruct (Qle_bool (y - f) (1 # 2)) eqn:Hy1;
    destruct (Qle_bool (1 # 2) (y - f)) eqn:Hy2;
    try (destruct (Z.even (Qfloor x))); try lia; exfalso;
    repeat match goal with
           | H : Qle_bool _ _ = true |- _ => apply Qle_bool_iff in H
           | H : Qle_bool ?a ?b = false |- _ =>
               assert (b < a)%Q
                 by (destruct (Qlt_le_dec b a) as [?|Hc]; [assumption|];
                     apply Qle_bool_iff in Hc; congruence);
               clear H
           end; lra.
Qed.

Lemma Qeq_bool_false (q : Q) : Qeq_bool q 0 = false -> ~ (q == 0)%Q.
Proof. intros H Hq. apply Qeq_eq_bool in Hq. congruence. Qed.

Lemma fl_nonneg (x : Q) : (0 <= x)%Q -> (0 <= IEEE.fl x)%Q.
Proof.
  intros Hx. unfold IEEE.fl. destruct (Qeq_bool x 0); [lra|].
  pose proof (pow2_pos (IEEE.last_place x)) as Hp.
  rewrite Qred_correct. apply Qmult_le_0_compat; [|lra].
  change 0%Q with (inject_Z 0). rewrite <- Zle_Qle.
  rewrite <- (round_half_even_Z 0). apply round_half_even_mono.
  change (inject_Z 0) with 0%Q. apply Qle_shift_div_l; lra.
Qed.

Lemma fl_nonpos (x : Q) : (x <= 0)%Q -> (IEEE.fl x <= 0)%Q.
Proof.
  intros Hx. unfold IEEE.fl. destruct (Qeq_bool x 0); [lra|].
  pose proof (pow2_pos (IEEE.last_place x)) as Hp.
  rewrite Qred_correct.
  assert (Hr : (inject_Z (IEEE.round_half_even (x / IEEE.pow2 (IEEE.last_place x)))
                <= 0)%Q).
  { change 0%Q with (inject_Z 0). rewrite <- Zle_Qle.
    rewrite <- (round_half_even_Z 0). apply round_half_even_mono.
    change (inject_Z 0) with 0%Q. apply Qle_shift_div_r; lra. }
  set (r := inject_Z _) in *. nra.
Qed.

(** On the non-negative numbers, a greater exact result never rounds to a
    smaller double. *)
Lemma fl_mono (x y : Q) : (0 <= x)%Q -> (x <= y)%Q -> (IEEE.fl x <= IEEE.fl y)%Q.
Proof.
  intros Hx Hxy.
  pose proof (fl_nonneg y ltac:(lra)) as Hy0.
  unfold IEEE.fl in *.
  destruct (Qeq_bool x 0) eqn:Ex; [exact Hy0|].
  apply Qeq_bool_false in Ex.
  assert (Hxpos : (0 < x)%Q) by lra.
  destruct (Qeq_bool y 0) eqn:Ey; [apply Qeq_bool_eq in Ey; lra|].
  clear Hy0 Ey. rewrite !Qred_correct.
  pose proof (ilog2_mono x y Hxpos Hxy) as Hlog.
  pose proof (pow2_pos (IEEE.last_place x)) as Hpx.
  pose proof (pow2_pos (IEEE.last_place y)) as Hpy.
  destruct (Z.eq_dec (IEEE.last_place x) (IEEE.last_place y)) as [Heq|Hne].
  - rewrite <- Heq in *. apply Qmult_le_compat_r; [|lra].
    rewrite <- Zle_Qle. apply round_half_even_mono.
    apply Qle_shift_div_l; [lra|].
    unfold Qdiv. rewrite <- Qmult_assoc, (Qmult_comm (/ _)), Qmult_inv_r; lra.
  - assert (Hlt : (IEEE.last_place x + 1 <= IEEE.last_place y)%Z)
      by (unfold IEEE.last_place in *; lia).
    assert (Hey : IEEE.last_place y = (IEEE.ilog2 y - 52)%Z)
      by (unfold IEEE.last_place in *; lia).
    assert (Hex : (IEEE.ilog2 x - 52 <= IEEE.last_place x)%Z)
      by (unfold IEEE.last_place; lia).
    destruct (ilog2_spec x) as [_ Hx2]; [lra|].
    destruct (ilog2_spec y) as [Hy1 _]; [lra|].
    rewrite Qabs_pos in Hx2, Hy1 by lra.
    (* fl x <= 2^(ex+53) <= 2^(ey+52) <= fl y *)
    apply Qle_trans with (IEEE.pow2 (IEEE.last_place y + 52)).
    + apply Qle_trans with (IEEE.pow2 (IEEE.last_place x + 53)).
      * rewrite (Z.add_comm _ 53), pow2_plus.
        apply Qmult_le_compat_r; [|lra].
        rewrite <- (pow2_inject 53) by lia. rewrite <- Zle_Qle.
        rewrite <- (round_half_even_Z (2 ^ 53)). apply round_half_even_mono.
        rewrite (pow2_inject 53) by lia.
        apply Qle_shift_div_r; [lra|]. rewrite <- pow2_plus.
        apply Qle_trans with (IEEE.pow2 (IEEE.ilog2 x + 1)); [lra|].
        apply pow2_le. lia.
      * apply pow2_le. lia.
    + rewrite (Z.add_comm _ 52), pow2_plus.
      apply Qmult_le_compat_r; [|lra].
      rewrite <- (pow2_inject 52) by lia. rewrite <- Zle_Qle.
      rewrite <- (round_half_even_Z (2 ^ 52)) at 1. apply round_half_even_mono.
      rewrite (pow2_inject 52) by lia.
      apply Qle_shift_div_l; [lra|]. rewrite <- pow2_plus.
      replace (52 + IEEE.last_place y)%Z with (IEEE.ilog2 y) by lia. exact Hy1.
Qed.

Lemma mul_mono (a b rate : Q) :
  (0 <= a)%Q -> (a <= b)%Q -> (0 <= rate)%Q -> (IEEE.mul a rate <= IEEE.mul b rate)%Q.
Proof.
  intros Ha Hab Hr. apply fl_mono; [nra|]. apply Qmult_le_compat_r; lra.
Qed.

Lemma div_mono (a b d : Q) :
  (0 <= a)%Q -> (a <= b)%Q -> (0 < d)%Q -> (IEEE.div a d <= IEEE.div b d)%Q.
Proof.
  intros Ha Hab Hd. unfold IEEE.div, Qdiv.
  assert (0 < / d)%Q by (by apply Qinv_lt_0_compat).
  apply fl_mono; [nra|]. apply Qmult_le_compat_r; lra.
Qed.

(** ** Pricing *)

Lemma truthy_Q_pos (a : Q) : (0 < a)%Q -> truthy_Q a = true.
Proof.
  intros Ha. unfold truthy_Q.
  destruct (Qeq_bool a 0) eqn:E; [|reflexivity].
  apply Qeq_bool_eq in E. rewrite E in Ha. exfalso. revert Ha. apply Qlt_irrefl.
Qed.

Lemma truthy_Q_zero (a : Q) : (a == 0)%Q -> truthy_Q a = false.
Proof. intros Ha. unfold truthy_Q. apply Qeq_eq_bool in Ha. by rewrite Ha. Qed.

Lemma unit_or_insert_pos (units : Pricing.units_t) (k : string) (a d : Q) :
  (0 < a)%Q -> Pricing.unit_or (<[k := a]> units) k d = a.
Proof.
  intros Ha. unfold Pricing.unit_or. rewrite lookup_insert_eq.
  by rewrite truthy_Q_pos.
Qed.

Lemma unit_or_insert_zero (units : Pricing.units_t) (k : string) (d : Q) :
  Pricing.unit_or (<[k := 0%Q]> units) k d = d.
Proof. unfold Pricing.unit_or. by rewrite lookup_insert_eq. Qed.

Lemma unit_or_delete (units : Pricing.units_t) (k : string) (d : Q) :
  Pricing.unit_or (delete k units) k d = d.
Proof. unfold Pricing.unit_or. by rewrite lookup_delete_eq. Qed.

Lemma Math_ceil_mono (x y : Q) :
  (x <= y)%Q -> (Pricing.Math_ceil x <= Pricing.Math_ceil y)%Q.
Proof.
  intros Hxy. unfold Pricing.Math_ceil. rewrite <- Zle_Qle.
  by apply Qceiling_resp_le.
Qed.

Lemma Math_ceil_is_ceiling (x : Q) : is_ceiling_of (Pricing.Math_ceil x) x.
Proof.
  exists (Qceiling x). split; [reflexivity|]. split.
  - apply Qle_ceiling.
  - pose proof (Qceiling_lt x) as Hlt.
    replace (Qceiling x - 1) with (Qceiling x + (-1)) in Hlt by lia.
    rewrite inject_Z_plus in Hlt. change (inject_Z (-1)) with (-1 # 1)%Q in Hlt.
    lra.
Qed.

Lemma per_hundred_mono (a b rate : Q) :
  (0 <= a)%Q -> (a <= b)%Q -> (0 <= rate)%Q ->
  (IEEE.mul (IEEE.div a 100) rate <= IEEE.mul (IEEE.div b 100) rate)%Q.
Proof.
  intros Ha Hab Hr. apply mul_mono; [|apply div_mono|]; try done.
  apply fl_nonneg. apply Qle_shift_div_l; [done|lra].
Qed.

(** The table has exactly five own rules. *)
Lemma PRICING_RULES_cases endpoint rule :
  Pricing.PRICING_RULES endpoint = Some rule ->
  (endpoint = "summarize" /\ rule = Pricing.summarize)
  \/ (endpoint = "generate_image" /\ rule = Pricing.generate_image)
  \/ (endpoint = "translate" /\ rule = Pricing.translate)
  \/ (endpoint = "compute" /\ rule = Pricing.compute)
  \/ (endpoint = "default" /\ rule = Pricing.default).
Proof.
  unfold Pricing.PRICING_RULES.
  repeat (match goal with
          | |- context [String.eqb ?x ?y] => destruct (String.eqb_spec x y)
          end);
    intros [= <-]; subst; auto 10.
Qed.

(** Every rule is non-decreasing in the count it reads, over the strictly
    positive counts. *)
Lemma rule_mono endpoint rule (units : Pricing.units_t) (a b : Q) :
  Pricing.PRICING_RULES endpoint = Some rule ->
  (0 < a)%Q -> (a <= b)%Q ->
  (rule (<[Pricing.relevant_unit endpoint := a]> units)
   <= rule (<[Pricing.relevant_unit endpoint := b]> units))%Q.
Proof.
  intros Hrule Ha Hab.
  assert (Hb : (0 < b)%Q) by lra.
  assert (Ha0 : (0 <= a)%Q) by lra.
  destruct (PRICING_RULES_cases _ _ Hrule)
    as [[-> ->]|[[-> ->]|[[-> ->]|[[-> ->]|[-> ->]]]]];
    cbn [Pricing.relevant_unit String.eqb Ascii.eqb Bool.eqb];
    unfold Pricing.summarize, Pricing.generate_image, Pricing.translate,
      Pricing.compute, Pricing.default;
    rewrite !unit_or_insert_pos by assumption.
  - apply Math_ceil_mono, per_hundred_mono; [done|done|by vm_compute].
  - apply mul_mono; [done|done|by vm_compute].
  - apply Math_ceil_mono, per_hundred_mono; [done|done|by vm_compute].
  - apply mul_mono; [done|done|by vm_compute].
  - apply mul_mono; [done|done|by vm_compute].
Qed.

Lemma rule_is_charged endpoint rule (units : Pricing.units_t) :
  Pricing.PRICING_RULES endpoint = Some rule ->
  rule units
  = charged endpoint
      (Pricing.unit_or units (Pricing.relevant_unit endpoint) (default_count endpoint)).
Proof.
  intros Hrule.
  by destruct (PRICING_RULES_cases _ _ Hrule)
    as [[-> ->]|[[-> ->]|[[-> ->]|[[-> ->]|[-> ->]]]]].
Qed.

(** C3, as amended.  In double-precision arithmetic, and for counts up to
    [2^1000], which keep every price among the finite doubles: every
    pricing rule is non-decreasing in the unit count it reads over the
    strictly positive counts; a count of zero is priced like an absent
    count, and an absent count like the rule's default count (1000 tokens,
    500 characters, 1 image, second or amount); [summarize] and [translate]
    charge the double [(count / 100) * rate] rounded up to the next whole
    number of sats; [generate_image], [compute] and [default] charge the
    double [count * rate] as it comes, whole or not. *)
Theorem pricing_monotone_positive
  (endpoint : string) (rule : Pricing.units_t -> Q) (units : Pricing.units_t) (a b : Q) :
  Pricing.PRICING_RULES endpoint = Some rule ->
  (0 < a)%Q -> (a <= b)%Q -> (b <= largest_count)%Q ->
  (rule (<[Pricing.relevant_unit endpoint := a]> units)
   <= rule (<[Pricing.relevant_unit endpoint := b]> units))%Q
  /\ (rule (<[Pricing.relevant_unit endpoint := b]> units) <= IEEE.max_value)%Q
  /\ rule (<[Pricing.relevant_unit endpoint := 0%Q]> units)
     = rule (delete (Pricing.relevant_unit endpoint) units)
  /\ rule (delete (Pricing.relevant_unit endpoint) units)
     = rule (<[Pricing.relevant_unit endpoint := default_count endpoint]> units)
  /\ rule units
     = charged endpoint
         (Pricing.unit_or units (Pricing.relevant_unit endpoint) (default_count endpoint))
  /\ is_ceiling_of (Pricing.summarize units)
       (IEEE.mul (IEEE.div (Pricing.unit_or units "tokens" 1000) 100) 5)
  /\ is_ceiling_of (Pricing.translate units)
       (IEEE.mul (IEEE.div (Pricing.unit_or units "characters" 500) 100) 3)
  /\ Pricing.generate_image units = IEEE.mul (Pricing.unit_or units "images" 1) 50
  /\ Pricing.compute units = IEEE.mul (Pricing.unit_or units "seconds" 1) 10
  /\ Pricing.default units = IEEE.mul (Pricing.unit_or units "amount" 1) 10.
Proof.
  intros Hrule Ha Hab Hrange.
  assert (Hb : (0 < b)%Q) by lra.
  split; [by apply rule_mono|].
  split.
  { apply Qle_trans
      with (rule (<[Pricing.relevant_unit endpoint := largest_count]> units));
      [by apply rule_mono|].
    destruct (PRICING_RULES_cases _ _ Hrule)
      as [[-> ->]|[[-> ->]|[[-> ->]|[[-> ->]|[-> ->]]]]];
      cbn [Pricing.relevant_unit String.eqb Ascii.eqb Bool.eqb];
      unfold Pricing.summarize, Pricing.generate_image, Pricing.translate,
        Pricing.compute, Pricing.default;
      rewrite unit_or_insert_pos by (by vm_compute); by vm_compute. }
  split; [|split; [|split; [by apply rule_is_charged|]]].
  3:{ repeat split; apply Math_ceil_is_ceiling. }
  all: destruct (PRICING_RULES_cases _ _ Hrule)
         as [[-> ->]|[[-> ->]|[[-> ->]|[[-> ->]|[-> ->]]]]];
    cbn [Pricing.relevant_unit String.eqb Ascii.eqb Bool.eqb];
    unfold Pricing.summarize, Pricing.generate_image, Pricing.translate,
      Pricing.compute, Pricing.default;
    rewrite ?unit_or_insert_zero, ?unit_or_delete;
    rewrite ?unit_or_insert_pos by (by vm_compute);
    reflexivity.
Qed.

Lemma pricing_monotone_positive_witness :
  ((0 < 150)%Q /\ (150 <= 1000)%Q /\ (1000 <= largest_count)%Q)
  /\ (Pricing.summarize (<["tokens" := 150%Q]> ∅)
      <= Pricing.summarize (<["tokens" := 1000%Q]> ∅))%Q.
Proof.
  split; [repeat split; by vm_compute|].
  refine (proj1 (pricing_monotone_positive "summarize" Pricing.summarize ∅ 150 1000 _ _ _ _));
    [reflexivity| by vm_compute | by vm_compute | by vm_compute].
Defined.

(** C3 as stated fails on both counts: a zero token count is priced at the
    default 1000 tokens (50 sats) while 100 tokens cost 5 sats, and a quarter
    of an image costs 12.5 sats. *)
Lemma pricing_claim_refuted : ~ price_monotone_from_zero /\ ~ every_rule_rounds_up.
Proof.
  split.
  - intros Hmono.
    specialize (Hmono "summarize" Pricing.summarize ∅ 0%Q 100%Q eq_refl).
    cbn [Pricing.relevant_unit String.eqb Ascii.eqb Bool.eqb] in Hmono.
    assert (Hle : (0 <= 0)%Q /\ (0 <= 100)%Q) by (split; by vm_compute).
    specialize (Hmono (proj1 Hle) (proj2 Hle)).
    vm_compute in Hmono. by apply Hmono.
  - intros Hwhole.
    destruct (Hwhole "generate_image" Pricing.generate_image
                {[ "images" := (1 # 4)%Q ]} eq_refl) as [n Hn].
    assert (Hp : Pricing.generate_image {[ "images" := (1 # 4)%Q ]} = (25 # 2)%Q)
      by (by vm_compute).
    rewrite Hp in Hn. unfold Qeq in Hn. cbn [Qnum Qden inject_Z] in Hn. lia.
Qed.

(** The rounding of the arithmetic shows in the prices: a count small
    enough for [count / 100] to round to zero is quoted for nothing; one and
    a tenth of an image costs a little more than 55 sats; and the price of
    8381395973722841 tokens is one sat below the exact amount rounded up. *)
Lemma prices_are_rounded_doubles :
  Pricing.summarize {[ "tokens" := (2 * IEEE.pow2 (-1074))%Q ]} = 0%Q
  /\ Pricing.generate_image {[ "images" := IEEE.fl (11 # 10) ]}
     = (7740561859543041 # 140737488355328)%Q
  /\ Pricing.summarize {[ "tokens" := 8381395973722841%Q ]} = 419069798686142%Q
  /\ Qceiling (8381395973722841 / 100 * 5) = 419069798686143.
Proof. repeat split; by vm_compute. Qed.

(** ** Settlement: one invocation of the handler *)

Section Settlement.

Context `{rt : Runtime}.
Variable verifySpend :
  ArkVerifier.VerificationRequest -> exn + ArkVerifier.VerificationResult.

Lemma truthy_string_nonempty (s : string) : s <> "" -> truthy_string s = true.
Proof. by destruct s. Qed.

Lemma truthy_string_true (s : string) : truthy_string s = true -> s <> "".
Proof. by destruct s. Qed.

(** A live entry is found: the lookup compares calendar dates, and an entry
    whose expiry instant is still ahead has today's date or a later one. *)
Lemma getIdempotencyKey_live now key db entry :
  DB.idempotency_keys db !! key = Some entry ->
  now < DB.k_expires_at entry ->
  DB.getIdempotencyKey now key db = Some (DB.k_response_json entry).
Proof.
  intros Hentry Hlive. unfold DB.getIdempotencyKey, DB.sql_gt_now, DB.utc_date.
  rewrite Hentry.
  destruct (Z.leb_spec (now / DB.ms_per_day) (DB.k_expires_at entry / DB.ms_per_day))
    as [|Hlt]; [done|].
  exfalso. apply Z.lt_nge in Hlt. apply Hlt.
  apply Z.div_le_mono; [by vm_compute|lia].
Qed.

(** C4.  A request whose [Idempotency-Key] names an unexpired entry is
    answered [200] with the entry's stored response whatever its body is,
    before the body is even validated; the store is left as it was and the
    verifier is not called. *)
Theorem cached_response_is_replayed
  (t1 t2 : Z) (payNano jobNano key : string) (body : jsval)
  (w : Handlers.World) (entry : DB.IdempotencyKey) :
  key <> "" ->
  DB.idempotency_keys (Handlers.db w) !! key = Some entry ->
  t1 < DB.k_expires_at entry ->
  Handlers.paycall verifySpend t1 t2 payNano jobNano
    (Handlers.mkRequest (Some key) body) w
  = (Returns (Handlers.mkReply 200 (JSON_parse (DB.k_response_json entry))), w).
Proof.
  intros Hkey Hentry Hlive.
  unfold Handlers.paycall, Handlers.paycall_begin, Handlers.cached_response.
  change (Handlers.idempotencyKey_of (Handlers.mkRequest (Some key) body)) with key.
  rewrite (truthy_string_nonempty _ Hkey).
  by rewrite (getIdempotencyKey_live _ _ _ _ Hentry Hlive).
Qed.

(** C5.  When the handler reaches the verifier and the verifier rejects the
    claim, the reply is [402 payment_invalid] with the verifier's reason, the
    store is exactly as before the request (no payment, job or idempotency
    entry) and the quote is still [active]. *)
Theorem rejected_payment_changes_nothing
  (t1 t2 : Z) (payNano jobNano : string) (req : Handlers.Request)
  (w w1 : Handlers.World) (s : Handlers.Suspended)
  (verified : ArkVerifier.VerificationResult) :
  Handlers.paycall_begin t1 req w = (inr s, w1) ->
  verifySpend (Handlers.s_request s) = inr verified ->
  ArkVerifier.ok verified = false ->
  exists w',
    Handlers.paycall verifySpend t1 t2 payNano jobNano req w
    = (Returns (Handlers.mkReply 402
                  (JObj [ ("error", JStr "payment_invalid");
                          ("details", Handlers.opt_str (ArkVerifier.reason verified)) ])),
       w')
    /\ Handlers.db w' = Handlers.db w
    /\ exists quote,
         DB.getQuote (Handlers.quote_id (Handlers.s_body s)) (Handlers.db w') = Some quote
         /\ DB.q_status quote = DB.Q_active.
Proof.
  intros Hbegin Hverify Hok.
  exists w1. unfold Handlers.paycall. rewrite Hbegin, Hverify.
  rewrite paycall_resume_rejected by done.
  apply paycall_begin_suspends in Hbegin
    as (_ & _ & Hquote & Hactive & _ & _ & _ & _ & ->).
  cbn. eauto.
Qed.

(** C8, as amended.  A request whose endpoint differs from the endpoint of the quote it
    names never gets to the verifier; and when it passes the checks that come
    first (no cached response for its key, quote active and not past its
    expiry) the reply is [400 endpoint_mismatch] and the store is unchanged. *)
Theorem endpoint_mismatch_precedes_verification
  (t1 t2 : Z) (payNano jobNano : string) (req : Handlers.Request)
  (w : Handlers.World) (body : Handlers.PayCallBody) (quote : DB.Quote) :
  Handlers.PayCallBodySchema_parse (Handlers.body req) = inr body ->
  DB.getQuote (Handlers.quote_id body) (Handlers.db w) = Some quote ->
  DB.q_endpoint quote <> Handlers.endpoint (Handlers.request body) ->
  Handlers.verifier_calls
    (snd (Handlers.paycall verifySpend t1 t2 payNano jobNano req w))
  = Handlers.verifier_calls w
  /\ (Handlers.cached_response t1 req w = None ->
      DB.q_status quote = DB.Q_active ->
      t1 <= DB.q_expires_at quote ->
      Handlers.paycall verifySpend t1 t2 payNano jobNano req w
      = (Returns (Handlers.mkReply 400
                    (JObj [ ("error", JStr "endpoint_mismatch");
                            ("message", JStr "Request endpoint does not match quote") ])),
         w)).
Proof.
  intros Hparse Hquote Hdiff. split.
  - unfold Handlers.paycall.
    destruct (Handlers.paycall_begin t1 req w) as [[reply|s] w1] eqn:Hbegin.
    + cbn [snd]. by apply paycall_begin_replies in Hbegin as (-> & _).
    + apply paycall_begin_suspends in Hbegin
        as (_ & Hparse' & Hquote' & _ & _ & Hsame & _).
      rewrite Hparse in Hparse'. by simplify_eq.
  - intros Hmiss Hactive Hfresh.
    unfold Handlers.paycall, Handlers.paycall_begin.
    rewrite Hmiss, Hparse.
    rewrite (getValidQuote_valid _ _ _ _ Hquote Hactive Hfresh).
    destruct (String.eqb_spec (DB.q_endpoint quote)
                (Handlers.endpoint (Handlers.request body))); [done|].
    cbn. by destruct w.
Qed.

Lemma catch_reply_not_200 e response :
  Handlers.catch_reply e <> Handlers.mkReply 200 response.
Proof. by destruct e. Qed.

(** C9.  When the verifier accepts and the payment row is recorded: if the
    verifier reported no settled amount, or zero, the row's [paid_sats] is the
    quote's price, and so is [receipt.paid_sats] of a [200] reply; if the
    verifier gave no settlement reference, the row's [ark_ref] is the empty
    string. *)
Theorem payment_falls_back_to_quote_price
  (t1 t2 : Z) (payNano jobNano : string) (req : Handlers.Request)
  (w w1 : Handlers.World) (s : Handlers.Suspended)
  (verified : ArkVerifier.VerificationResult) :
  Handlers.paycall_begin t1 req w = (inr s, w1) ->
  verifySpend (Handlers.s_request s) = inr verified ->
  ArkVerifier.ok verified = true ->
  DB.payments (Handlers.db w) !! ("pay_" ++ payNano) = None ->
  let out := Handlers.paycall verifySpend t1 t2 payNano jobNano req w in
  exists payment,
    DB.getPayment ("pay_" ++ payNano) (Handlers.db (snd out)) = Some payment
    /\ DB.p_quote_id payment = Handlers.quote_id (Handlers.s_body s)
    /\ DB.p_status payment = DB.P_verified
    /\ ((forall a, ArkVerifier.actualSats verified = Some a -> (a == 0)%Q) ->
        DB.p_paid_sats payment = DB.q_price_sats (Handlers.s_quote s)
        /\ forall response,
             fst out = Returns (Handlers.mkReply 200 response) ->
             prop (prop response "receipt") "paid_sats"
             = JNum (Num (DB.q_price_sats (Handlers.s_quote s))))
    /\ (ArkVerifier.settlementRef verified = None -> DB.p_ark_ref payment = "").
Proof.
  intros Hbegin Hverify Hok Hfresh out. subst out.
  unfold Handlers.paycall. rewrite Hbegin, Hverify.
  apply paycall_begin_suspends in Hbegin
    as (_ & _ & Hquote & _ & _ & _ & _ & _ & ->).
  destruct (Handlers.paycall_resume t2 payNano jobNano s (inr verified) _)
    as [out w'] eqn:Hresume.
  apply paycall_resume_accepted in Hresume as (_ & Hcases); [|done].
  cbn [Handlers.db] in Hcases. unfold DB.getQuote in Hquote.
  destruct Hcases as [(e & _ & _ & [[? Hdup]|Hnoquote])|Hrecorded];
    [congruence|congruence|].
  destruct Hrecorded as (payment & _ & Hrows & Hqid & Hpaid & Href & Hst & _ & Hjob).
  exists payment. cbn [fst snd]. unfold DB.getPayment.
  rewrite Hrows, lookup_insert_eq. do 3 (split; [done|]). split.
  - intros Hzero.
    assert (Hprice : Handlers.paid_sats_of verified (Handlers.s_quote s)
                     = DB.q_price_sats (Handlers.s_quote s)).
    { unfold Handlers.paid_sats_of.
      destruct (ArkVerifier.actualSats verified) as [a|]; [|done].
      by rewrite (truthy_Q_zero a (Hzero a eq_refl)). }
    split; [by rewrite Hpaid|].
    intros response Hreply.
    destruct Hjob as [(e & -> & _)|(job & _ & _ & _ & Hend)].
    { injection Hreply as Hreply. by destruct (catch_reply_not_200 _ _ Hreply). }
    destruct Hend as [(_ & -> & _)|[(_ & -> & _)|(_ & result & -> & _)]];
      try discriminate.
    injection Hreply as <-. cbn. by rewrite Hprice.
  - intros Hnone. rewrite Href. unfold Handlers.ark_ref_of. by rewrite Hnone.
Qed.

(** C6.  For the job this invocation creates: when it ends [failed], the
    reply is [500 job_execution_failed] with the recorded error and the
    idempotency table is untouched; the idempotency table changes only when
    the job ended [completed] and a key was sent, and then by exactly one
    entry, holding the [200] response and expiring 120 seconds after it was
    written; and a completed job with a key always leaves that entry. *)
Theorem failed_job_is_not_cached
  (t1 t2 : Z) (payNano jobNano : string) (req : Handlers.Request)
  (w : Handlers.World) :
  let jobId := "job_" ++ jobNano in
  let key := Handlers.idempotencyKey_of req in
  let out := fst (Handlers.paycall verifySpend t1 t2 payNano jobNano req w) in
  let db0 := Handlers.db w in
  let db1 := Handlers.db (snd (Handlers.paycall verifySpend t1 t2 payNano jobNano req w)) in
  let entry_for response :=
    DB.mkIdempotencyKey key (JSON_stringify response) t2 (t2 + 120000) in
  DB.getJob jobId db0 = None ->
  (forall job,
     DB.getJob jobId db1 = Some job -> DB.j_status job = DB.J_failed ->
     out = Returns (Handlers.mkReply 500
                      (JObj [ ("error", JStr "job_execution_failed");
                              ("message", Handlers.opt_str (DB.j_error_message job)) ]))
     /\ DB.idempotency_keys db1 = DB.idempotency_keys db0)
  /\ (DB.idempotency_keys db1 <> DB.idempotency_keys db0 ->
      key <> ""
      /\ exists job response,
           DB.getJob jobId db1 = Some job /\ DB.j_status job = DB.J_completed
           /\ out = Returns (Handlers.mkReply 200 response)
           /\ DB.idempotency_keys db1
              = <[key := entry_for response]> (DB.idempotency_keys db0))
  /\ (forall job,
        DB.getJob jobId db1 = Some job -> DB.j_status job = DB.J_completed ->
        key <> "" ->
        exists response,
          out = Returns (Handlers.mkReply 200 response)
          /\ DB.idempotency_keys db1 !! key = Some (entry_for response)).
Proof.
  intros jobId key out db0 db1 entry_for Hfresh.
  subst jobId key out db0 db1 entry_for. unfold DB.getJob in *.
  unfold Handlers.paycall.
  destruct (Handlers.paycall_begin t1 req w) as [[reply|s] w1] eqn:Hbegin.
  { apply paycall_begin_replies in Hbegin as (_ & _ & Hjobs & Hkeys).
    cbn [fst snd]. rewrite Hjobs, Hkeys, Hfresh.
    repeat split; intros; try discriminate; done. }
  apply paycall_begin_suspends in Hbegin
    as (_ & _ & _ & _ & _ & _ & Hkey & _ & ->).
  destruct (verifySpend (Handlers.s_request s)) as [e|verified].
  { cbn [Handlers.paycall_resume fst snd Handlers.db]. rewrite Hfresh.
    repeat split; intros; try discriminate; done. }
  destruct (ArkVerifier.ok verified) eqn:Hok.
  2:{ rewrite paycall_resume_rejected by done.
      cbn [fst snd Handlers.db]. rewrite Hfresh.
      repeat split; intros; try discriminate; done. }
  destruct (Handlers.paycall_resume t2 payNano jobNano s (inr verified) _)
    as [out w'] eqn:Hresume.
  apply paycall_resume_accepted in Hresume as (_ & Hcases); [|done].
  cbn [Handlers.db fst snd] in *. rewrite Hkey in Hcases.
  destruct Hcases as [(e & -> & -> & _)|Hrecorded].
  { rewrite Hfresh. repeat split; intros; try discriminate; done. }
  destruct Hrecorded as (payment & _ & _ & _ & _ & _ & _ & _ & Hjob).
  destruct Hjob as [(e & -> & _ & -> & ->)|(job & _ & Hjob & _ & Hend)].
  { rewrite Hfresh. repeat split; intros; try discriminate; done. }
  rewrite Hjob.
  destruct Hend as [(Hst & -> & ->)|[(Hst & -> & ->)|(Hst & result & -> & ->)]].
  - repeat split; intros; simplify_eq; try done; congruence.
  - repeat split; intros; simplify_eq; try done; congruence.
  - replace (t2 + 120 * 1000) with (t2 + 120000) by lia.
    destruct (truthy_string (Handlers.idempotencyKey_of req)) eqn:Htruthy.
    + apply truthy_string_true in Htruthy.
      repeat split; intros; simplify_eq; try congruence; try done.
      * eauto 10.
      * eexists. split; [done|]. by rewrite lookup_insert_eq.
    + repeat split; intros; simplify_eq; try congruence; try done.
      destruct (Handlers.idempotencyKey_of req); [done|discriminate].
Qed.

End Settlement.

(** C8 as stated fails: a request for another endpoint than that of the
    quote it names is answered [409], not [400], when the quote has already
    been settled. *)
Lemma endpoint_mismatch_claim_refuted : ~ endpoint_mismatch_is_always_400.
Proof.
  intros Hclaim.
  edestruct (Hclaim Sample.runtime Sample.verifySpend 3000 3100 "P2" "J2"
               Sample.other_endpoint_request Sample.settled)
    as (w' & Hreply & _);
    [vm_compute; reflexivity | vm_compute; reflexivity | discriminate |].
  vm_compute in Hreply. discriminate Hreply.
Qed.

(** ** Quote life cycle *)

(** The periodic clean-up leaves every quote where it is, except that it
    moves [active] quotes to [expired]. *)
Lemma cleanupExpired_status now db id quote :
  DB.getQuote id db = Some quote ->
  exists quote',
    DB.getQuote id (QuotesService.cleanupExpired now db) = Some quote'
    /\ (DB.q_status quote' = DB.q_status quote
        \/ (DB.q_status quote = DB.Q_active /\ DB.q_status quote' = DB.Q_expired)).
Proof.
  intros Hq. unfold QuotesService.cleanupExpired, DB.cleanupExpired, DB.getQuote in *.
  cbn. rewrite lookup_fmap, Hq. cbn. eexists. split; [done|].
  unfold DB.expire_if_due.
  destruct (DB.q_status quote) eqn:Hs; auto.
  destruct (DB.sql_lt_now _ _); cbn; auto.
Qed.

(** [updateQuoteStatus] writes the status it is given whatever the current
    status is; [markQuoteUsed] and the expiry branch of [getValidQuote] are
    calls of it. *)
Lemma updateQuoteStatus_unconditional id status db quote :
  DB.getQuote id db = Some quote ->
  DB.q_status <$> DB.getQuote id (DB.updateQuoteStatus id status db) = Some status.
Proof.
  intros Hq. unfold DB.getQuote, DB.updateQuoteStatus in *. cbn.
  by rewrite lookup_alter_eq, Hq.
Qed.

(** C2, where the code departs from it.  Quote validation looks at the expiry
    instant before it looks at the status and rewrites the status without a
    condition: a quote that is [used] and past its expiry is set to
    [expired]. *)
Theorem getValidQuote_expires_a_used_quote
  (now : Z) (quoteId : string) (db : DB.t) (quote : DB.Quote) :
  DB.getQuote quoteId db = Some quote ->
  DB.q_status quote = DB.Q_used ->
  DB.q_expires_at quote < now ->
  fst (QuotesService.getValidQuote now quoteId db) = None
  /\ DB.q_status <$> DB.getQuote quoteId (snd (QuotesService.getValidQuote now quoteId db))
     = Some DB.Q_expired.
Proof.
  intros Hq _ Hpast. unfold QuotesService.getValidQuote. rewrite Hq.
  destruct (Z.ltb_spec (DB.q_expires_at quote) now); [|lia].
  split; [done|]. cbn [snd]. unfold DB.getQuote, DB.updateQuoteStatus in *. cbn.
  by rewrite lookup_alter_eq, Hq.
Qed.

(** The quote issuer's part of C7. *)
Lemma repository_client_finds_a_round `{rt : Runtime} (config : Config) (now : Z) :
  exists round, ASPClient.getCurrentRound (ASPClient.make config) now = inr round.
Proof. cbn. destruct (paymentsMode config); eauto. Qed.

Lemma table_get_not_inherited {A : Type} (own : string -> option A) (k : string) :
  inherited_name k = false -> table_get own k <> Inherited.
Proof. intros Hk. unfold table_get. destruct (own k); [done|]. by rewrite Hk. Qed.

(** C7, as amended.  [createQuote] asks for the round before it persists
    anything.  For a non-empty endpoint that is not a name inherited from
    [Object.prototype] and fresh identifiers: when the lookup succeeds, as it
    always does with the repository's client, an [active] quote expiring in 30
    seconds is persisted and returned with the round as hint; when the lookup
    fails, [createQuote] fails with the lookup's error and the store is
    unchanged. *)
Theorem createQuote_waits_for_the_round
  (aspClient : ASPClient.t) (now : Z) (quoteNano nonce : string)
  (req : QuotesService.QuoteRequest) (db : DB.t) :
  QuotesService.endpoint req <> "" ->
  inherited_name (QuotesService.endpoint req) = false ->
  DB.getQuote ("q_" ++ quoteNano) db = None ->
  DB.nonce_taken nonce db = false ->
  match ASPClient.getCurrentRound aspClient now with
  | inr round =>
      exists response db' quote,
        QuotesService.createQuote aspClient now quoteNano nonce req db
        = (Returns response, db')
        /\ QuotesService.r_quote_id response = "q_" ++ quoteNano
        /\ QuotesService.r_round_hint response = ASPClient.roundId round
        /\ DB.getQuote ("q_" ++ quoteNano) db' = Some quote
        /\ DB.q_status quote = DB.Q_active
        /\ DB.q_endpoint quote = QuotesService.endpoint req
        /\ DB.q_expires_at quote = now + 30000
        /\ DB.q_price_sats quote = QuotesService.r_price_sats response
  | inl e =>
      QuotesService.createQuote aspClient now quoteNano nonce req db = (Throws e, db)
  end.
Proof.
  intros Hnonempty Hown Hfresh Hnonce.
  unfold QuotesService.createQuote.
  rewrite (truthy_string_nonempty _ Hnonempty). cbn [negb].
  pose proof (table_get_not_inherited Pricing.PRICING_RULES _ Hown) as Hfound.
  destruct (ASPClient.getCurrentRound aspClient now) as [e|round].
  - by destruct (table_get Pricing.PRICING_RULES (QuotesService.endpoint req)).
  - unfold DB.createQuote, DB.getQuote in *. cbn.
    destruct (table_get Pricing.PRICING_RULES (QuotesService.endpoint req));
      [|done|]; cbn; rewrite Hfresh, Hnonce; cbn;
      do 3 eexists; (split; [done|]); cbn; rewrite lookup_insert_eq; eauto 10.
Qed.

(** C7 as stated fails: with a client whose round lookup is rejected,
    [createQuote] throws and persists nothing. *)
Lemma round_hint_claim_refuted : ~ round_hint_is_best_effort.
Proof.
  intros Hclaim.
  destruct (Hclaim Sample.unreachable_asp 1000 "A" "nonceA"
              (QuotesService.mkQuoteRequest "summarize" None) DB.empty
              (Error "ASP unreachable"))
    as (response & db' & quote & Hcreate & _); [done|done|].
  vm_compute in Hcreate. discriminate Hcreate.
Qed.

(** ** Job execution *)

Section Jobs.

Context `{rt : Runtime}.

(** C10.  A [compute] job asking for ["square"] or ["double"] without a
    [value] is executed to the end: [executeJob] returns [ok] with [output]
    [NaN] and marks the job [completed], its stored result having [output]
    [null].  The other three workers do check their required argument: a
    [summarize] or [translate] job without [text] and a [generate_image] job
    without [prompt] end [failed]. *)
Theorem compute_without_value_completes
  (now : Z) (jobId : string) (db : DB.t) (job : DB.Job)
  (fields : list (string * jsval)) (operation : string) :
  DB.getJob jobId db = Some job ->
  DB.j_args_json job = JObj fields ->
  (DB.j_endpoint job = "compute"
   /\ get_field "operation" fields = JStr operation
   /\ (operation = "square" \/ operation = "double")
   /\ get_field "value" fields = JUndefined ->
   exists result job1,
     fst (JobsService.executeJob now jobId db)
     = Returns (JobsService.mkJobResult JobsService.S_ok (Some result) None)
     /\ prop result "output" = JNum NaN
     /\ DB.getJob jobId (snd (JobsService.executeJob now jobId db)) = Some job1
     /\ DB.j_status job1 = DB.J_completed
     /\ (fun stored => prop stored "output") <$> DB.j_result_json job1 = Some JNull)
  /\ ((DB.j_endpoint job = "summarize" /\ get_field "text" fields = JUndefined)
      \/ (DB.j_endpoint job = "translate" /\ get_field "text" fields = JUndefined)
      \/ (DB.j_endpoint job = "generate_image" /\ get_field "prompt" fields = JUndefined) ->
      exists message job1,
        fst (JobsService.executeJob now jobId db)
        = Returns (JobsService.mkJobResult JobsService.S_error None (Some message))
        /\ DB.getJob jobId (snd (JobsService.executeJob now jobId db)) = Some job1
        /\ DB.j_status job1 = DB.J_failed).
Proof.
  intros Hjob Hargs. unfold JobsService.executeJob, JobsService.job_failed.
  rewrite Hjob, Hargs. unfold DB.getJob in *. split.
  - intros (-> & Hop & Hops & Hvalue).
    change (table_get JobsService.WORKERS "compute") with (Own JobsService.compute).
    unfold JobsService.compute, JSON_parse. cbn [JobsService.with_args prop].
    rewrite Hop, Hvalue.
    destruct Hops as [-> | ->]; cbn -[JSON_stringify];
      do 2 eexists; (split; [done|]); (split; [done|]);
      rewrite lookup_alter_eq, lookup_alter_eq, Hjob;
      (split; [done|]); by cbn.
  - intros [(-> & Hmissing)|[(-> & Hmissing)|(-> & Hmissing)]].
    + change (table_get JobsService.WORKERS "summarize") with (Own JobsService.summarize).
      unfold JobsService.summarize, JSON_parse. cbn [JobsService.with_args prop].
      rewrite Hmissing. cbn.
      do 2 eexists. split; [done|].
      rewrite lookup_alter_eq, lookup_alter_eq, Hjob. by cbn.
    + change (table_get JobsService.WORKERS "translate") with (Own JobsService.translate).
      unfold JobsService.translate, JSON_parse. cbn [JobsService.with_args prop].
      rewrite Hmissing. cbn.
      do 2 eexists. split; [done|].
      rewrite lookup_alter_eq, lookup_alter_eq, Hjob. by cbn.
    + change (table_get JobsService.WORKERS "generate_image")
        with (Own JobsService.generate_image).
      unfold JobsService.generate_image, JSON_parse. cbn [JobsService.with_args prop].
      rewrite Hmissing. cbn.
      do 2 eexists. split; [done|].
      rewrite lookup_alter_eq, lookup_alter_eq, Hjob. by cbn.
Qed.

End Jobs.

(** ** Settlements in flight together *)

Section Race.

Context `{rt : Runtime}.
Variable verifySpend :
  ArkVerifier.VerificationRequest -> exn + ArkVerifier.VerificationResult.

(** One request after the other: a quote that is no longer [active] is
    refused with [409] before the verifier is asked. *)
Lemma spent_quote_is_refused t1 t2 payNano jobNano req w body quote :
  Handlers.cached_response t1 req w = None ->
  Handlers.PayCallBodySchema_parse (Handlers.body req) = inr body ->
  DB.getQuote (Handlers.quote_id body) (Handlers.db w) = Some quote ->
  DB.q_status quote <> DB.Q_active ->
  exists w',
    Handlers.paycall verifySpend t1 t2 payNano jobNano req w
    = (Returns Handlers.quote_conflict, w')
    /\ Handlers.verifier_calls w' = Handlers.verifier_calls w
    /\ DB.payments (Handlers.db w') = DB.payments (Handlers.db w).
Proof.
  intros Hmiss Hparse Hquote Hspent.
  unfold Handlers.paycall, Handlers.paycall_begin, QuotesService.getValidQuote.
  rewrite Hmiss, Hparse, Hquote.
  destruct (DB.q_expires_at quote <? t1); [by eauto|].
  destruct (DB.q_status quote); [done| |]; by eauto.
Qed.

(** In particular a second request for a quote that an earlier, finished
    invocation has paid for is refused, unless it is answered from the
    idempotency cache. *)
Lemma settled_quote_is_refused
  t1 t2 payNano jobNano req w s w1 verified t3 t4 payNano' jobNano' req' body' :
  Handlers.paycall_begin t1 req w = (inr s, w1) ->
  verifySpend (Handlers.s_request s) = inr verified ->
  ArkVerifier.ok verified = true ->
  DB.getPayment ("pay_" ++ payNano) (Handlers.db w) = None ->
  let w' := snd (Handlers.paycall verifySpend t1 t2 payNano jobNano req w) in
  Handlers.cached_response t3 req' w' = None ->
  Handlers.PayCallBodySchema_parse (Handlers.body req') = inr body' ->
  Handlers.quote_id body' = Handlers.quote_id (Handlers.s_body s) ->
  fst (Handlers.paycall verifySpend t3 t4 payNano' jobNano' req' w')
  = Returns Handlers.quote_conflict.
Proof.
  intros Hbegin Hverify Hok Hfresh w' Hmiss Hparse Hsame.
  assert (Hused : exists quote,
             DB.getQuote (Handlers.quote_id (Handlers.s_body s)) (Handlers.db w')
             = Some quote /\ DB.q_status quote = DB.Q_used).
  { subst w'. unfold Handlers.paycall. rewrite Hbegin, Hverify.
    apply paycall_begin_suspends in Hbegin
      as (_ & _ & Hquote & _ & _ & _ & _ & _ & ->).
    destruct (Handlers.paycall_resume t2 payNano jobNano s (inr verified) _)
      as [out w'] eqn:Hresume.
    apply paycall_resume_accepted in Hresume as (_ & Hcases); [|done].
    cbn [Handlers.db snd] in *. unfold DB.getPayment, DB.getQuote in *.
    destruct Hcases as [(e & _ & _ & [[? Hdup]|Hnoquote])|Hrecorded];
      [congruence|congruence|].
    destruct Hrecorded as (payment & _ & _ & _ & _ & _ & _ & Hquotes & _).
    rewrite Hquotes, lookup_alter_eq, Hquote. by eexists. }
  destruct Hused as (quote & Hquote & Hstatus).
  rewrite <- Hsame in Hquote.
  edestruct (spent_quote_is_refused t3 t4 payNano' jobNano' req' w' body' quote)
    as (w'' & -> & _); try done.
  by rewrite Hstatus.
Qed.

Lemma pay_id_inj (a b : string) : a <> b -> "pay_" ++ a <> "pay_" ++ b.
Proof. intros Hne Heq. apply Hne. by injection Heq. Qed.

(** C1, where the code departs from it.  When a second request for the same
    quote arrives while the first is waiting for the verifier, both handlers
    have read the quote as [active]; once the verifier has accepted both
    claims, each handler records a [verified] payment against that quote. *)
Theorem overlapping_settlements_both_recorded
  (ta tb tc td : Z) (pay1 job1 pay2 job2 : string)
  (req1 req2 : Handlers.Request) (w w1 w2 : Handlers.World)
  (s1 s2 : Handlers.Suspended)
  (v1 v2 : ArkVerifier.VerificationResult) :
  Handlers.paycall_begin ta req1 w = (inr s1, w1) ->
  Handlers.paycall_begin tb req2 w1 = (inr s2, w2) ->
  Handlers.quote_id (Handlers.s_body s2) = Handlers.quote_id (Handlers.s_body s1) ->
  verifySpend (Handlers.s_request s1) = inr v1 -> ArkVerifier.ok v1 = true ->
  verifySpend (Handlers.s_request s2) = inr v2 -> ArkVerifier.ok v2 = true ->
  pay1 <> pay2 ->
  DB.getPayment ("pay_" ++ pay1) (Handlers.db w) = None ->
  DB.getPayment ("pay_" ++ pay2) (Handlers.db w) = None ->
  let srv :=
    Server.run verifySpend
      [ Server.Arrive 1 ta req1; Server.Arrive 2 tb req2;
        Server.Answer 1 tc pay1 job1; Server.Answer 2 td pay2 job2 ]
      (Server.start w) in
  let db' := Handlers.db (Server.world srv) in
  exists p1 p2,
    DB.getPayment ("pay_" ++ pay1) db' = Some p1
    /\ DB.getPayment ("pay_" ++ pay2) db' = Some p2
    /\ DB.p_quote_id p1 = Handlers.quote_id (Handlers.s_body s1)
    /\ DB.p_quote_id p2 = Handlers.quote_id (Handlers.s_body s1)
    /\ DB.p_status p1 = DB.P_verified
    /\ DB.p_status p2 = DB.P_verified.
Proof.
  intros Hb1 Hb2 Hsame Hv1 Hok1 Hv2 Hok2 Hne Hf1 Hf2 srv db'.
  subst srv db'. unfold DB.getPayment in *.
  apply pay_id_inj in Hne.
  unfold Server.run, Server.start.
  cbn [fold_left Server.step Server.waiting Server.world Server.replies].
  rewrite lookup_empty, Hb1.
  cbn [Server.waiting Server.world Server.replies].
  rewrite lookup_insert_ne by done. rewrite lookup_empty, Hb2.
  cbn [Server.waiting Server.world Server.replies].
  rewrite lookup_insert_ne by done. rewrite lookup_insert_eq, Hv1.
  destruct (Handlers.paycall_resume tc pay1 job1 s1 (inr v1) w2) as [out1 w3] eqn:Hr1.
  cbn [Server.waiting Server.world Server.replies].
  rewrite lookup_delete_ne by done. rewrite lookup_insert_eq, Hv2.
  destruct (Handlers.paycall_resume td pay2 job2 s2 (inr v2) w3) as [out2 w4] eqn:Hr2.
  cbn [Server.world].
  apply paycall_begin_suspends in Hb1 as (_ & _ & Hq1 & _ & _ & _ & _ & _ & ->).
  apply paycall_begin_suspends in Hb2 as (_ & _ & _ & _ & _ & _ & _ & _ & ->).
  cbn [Handlers.db] in *. unfold DB.getQuote in Hq1.
  apply paycall_resume_accepted in Hr1 as (_ & Hc1); [|done].
  cbn [Handlers.db] in Hc1.
  destruct Hc1 as [(e & _ & _ & [[? Hdup]|Hnoquote])|Hrec1]; [congruence|congruence|].
  destruct Hrec1 as (p1 & _ & Hrows1 & Hqid1 & _ & _ & Hst1 & Hquotes1 & _).
  apply paycall_resume_accepted in Hr2 as (_ & Hc2); [|done].
  rewrite Hrows1, Hquotes1, Hsame in Hc2.
  rewrite lookup_insert_ne, lookup_alter_eq, Hq1 in Hc2 by done.
  destruct Hc2 as [(e & _ & _ & [[? Hdup]|Hnoquote])|Hrec2];
    [congruence|discriminate|].
  destruct Hrec2 as (p2 & _ & Hrows2 & Hqid2 & _ & _ & Hst2 & _).
  exists p1, p2. rewrite Hrows2.
  rewrite lookup_insert_ne, lookup_insert_eq, lookup_insert_eq by done.
  auto 10.
Qed.

End Race.

(** ** More on the store *)

Lemma nonce_taken_false nonce db :
  DB.nonce_taken nonce db = false ->
  forall id q, DB.getQuote id db = Some q -> DB.q_nonce q <> nonce.
Proof.
  unfold DB.nonce_taken, DB.getQuote. intros Hfree id q Hq Hsame.
  apply bool_decide_eq_false in Hfree. apply Hfree.
  apply map_Exists_lookup. eauto.
Qed.

Lemma nonce_taken_true nonce db :
  DB.nonce_taken nonce db = true ->
  exists id q, DB.getQuote id db = Some q /\ DB.q_nonce q = nonce.
Proof.
  unfold DB.nonce_taken, DB.getQuote. intros Htaken.
  apply bool_decide_eq_true in Htaken.
  by apply map_Exists_lookup in Htaken.
Qed.

Lemma createQuote_Returns now quote db row db' :
  DB.createQuote now quote db = (inr row, db') ->
  DB.getQuote (DB.q_id quote) db = None
  /\ DB.nonce_taken (DB.q_nonce quote) db = false
  /\ row = DB.mkQuote (DB.q_id quote) (DB.q_endpoint quote) (DB.q_units quote)
             (DB.q_price_sats quote) (DB.q_expires_at quote) (DB.q_nonce quote)
             (DB.q_receiver_pubkey quote) (DB.q_asp_url quote) (DB.q_status quote) now
  /\ db' = DB.set_quotes (insert (DB.q_id quote) row) db.
Proof.
  unfold DB.createQuote, DB.getQuote.
  destruct (DB.quotes db !! DB.q_id quote); [discriminate|].
  destruct (DB.nonce_taken (DB.q_nonce quote) db); [discriminate|].
  by intros [= <- <-].
Qed.

Lemma createQuote_fails now quote db e db' :
  DB.createQuote now quote db = (inl e, db') ->
  db' = db
  /\ (is_Some (DB.getQuote (DB.q_id quote) db)
      \/ DB.nonce_taken (DB.q_nonce quote) db = true).
Proof.
  unfold DB.createQuote, DB.getQuote.
  destruct (DB.quotes db !! DB.q_id quote); [intros [= <- <-]; eauto|].
  destruct (DB.nonce_taken (DB.q_nonce quote) db); [|discriminate].
  intros [= <- <-]. auto.
Qed.

Lemma utc_date_mono (a b : Z) : a <= b -> DB.utc_date a <= DB.utc_date b.
Proof. intros Hab. unfold DB.utc_date. apply Z.div_le_mono; [by vm_compute|lia]. Qed.

(** X3.  An idempotency entry written with a non-negative time to live is
    returned by every lookup made before its expiry instant; writing the key
    again replaces the entry, and other keys are not affected. *)
Theorem idempotency_entry_round_trip
  (now later : Z) (key other : string) (first second : jsval) (ttl : Z) (db : DB.t) :
  now <= later < now + ttl * 1000 ->
  other <> key ->
  DB.getIdempotencyKey later key (DB.setIdempotencyKey now key first ttl db) = Some first
  /\ DB.getIdempotencyKey later key
       (DB.setIdempotencyKey now key second ttl (DB.setIdempotencyKey now key first ttl db))
     = Some second
  /\ DB.getIdempotencyKey later other (DB.setIdempotencyKey now key first ttl db)
     = DB.getIdempotencyKey later other db.
Proof.
  intros [Hafter Hbefore] Hother.
  assert (Hlive : DB.sql_gt_now (now + ttl * 1000) later = true).
  { unfold DB.sql_gt_now. apply Z.leb_le, utc_date_mono. lia. }
  unfold DB.getIdempotencyKey, DB.setIdempotencyKey. cbn.
  rewrite !lookup_insert_eq. cbn. rewrite Hlive.
  by rewrite lookup_insert_ne.
Qed.

Lemma served_by_date now key db entry :
  DB.idempotency_keys db !! key = Some entry ->
  DB.getIdempotencyKey now key db
  = if DB.utc_date now <=? DB.utc_date (DB.k_expires_at entry)
    then Some (DB.k_response_json entry) else None.
Proof.
  intros Hentry. unfold DB.getIdempotencyKey, DB.sql_gt_now. by rewrite Hentry.
Qed.

Section Midnight.

Context `{rt : Runtime}.
Variable verifySpend :
  ArkVerifier.VerificationRequest -> exn + ArkVerifier.VerificationResult.

(** X4.  The idempotency lookup compares the stored ISO text with SQLite's
    [datetime('now')] text, and so by calendar date.  An entry is therefore
    returned at every instant before the first UTC midnight after its expiry
    instant, the first multiple of 86 400 000 ms beyond it and up to a whole
    day later, and at no instant from that midnight on.  Until that
    midnight, so also after the expiry, a request carrying the key is
    answered [200] with the stored response and changes nothing. *)
Theorem expired_entry_is_served_until_midnight
  (key : string) (db : DB.t) (entry : DB.IdempotencyKey) :
  DB.idempotency_keys db !! key = Some entry ->
  let expiry := DB.k_expires_at entry in
  let midnight := 86400000 * (expiry / 86400000 + 1) in
  expiry < midnight <= expiry + 86400000
  /\ (forall now, now < midnight ->
        DB.getIdempotencyKey now key db = Some (DB.k_response_json entry))
  /\ (forall now, midnight <= now -> DB.getIdempotencyKey now key db = None)
  /\ (forall now t2 payNano jobNano body calls,
        key <> "" -> now < midnight ->
        Handlers.paycall verifySpend now t2 payNano jobNano
          (Handlers.mkRequest (Some key) body) (Handlers.mkWorld db calls)
        = (Returns (Handlers.mkReply 200 (JSON_parse (DB.k_response_json entry))),
           Handlers.mkWorld db calls)).
Proof.
  intros Hentry expiry midnight.
  pose proof (Z.div_mod expiry 86400000 ltac:(lia)) as Hdiv.
  pose proof (Z.mod_pos_bound expiry 86400000 ltac:(lia)) as Hmod.
  assert (Hserved : forall now, now < midnight ->
            DB.getIdempotencyKey now key db = Some (DB.k_response_json entry)).
  { intros now Hnow. rewrite (served_by_date _ _ _ _ Hentry).
    unfold DB.utc_date, DB.ms_per_day. fold expiry.
    assert (now / 86400000 < expiry / 86400000 + 1)
      by (apply Z.div_lt_upper_bound; [lia|exact Hnow]).
    by destruct (Z.leb_spec (now / 86400000) (expiry / 86400000)); [|lia]. }
  split; [subst midnight; lia|]. split; [exact Hserved|]. split.
  - intros now Hnow. rewrite (served_by_date _ _ _ _ Hentry).
    unfold DB.utc_date, DB.ms_per_day. fold expiry.
    assert (expiry / 86400000 + 1 <= now / 86400000)
      by (apply Z.div_le_lower_bound; [lia|exact Hnow]).
    by destruct (Z.leb_spec (now / 86400000) (expiry / 86400000)); [lia|].
  - intros now t2 payNano jobNano body calls Hkey Hnow.
    unfold Handlers.paycall, Handlers.paycall_begin, Handlers.cached_response.
    change (Handlers.idempotencyKey_of (Handlers.mkRequest (Some key) body)) with key.
    rewrite (truthy_string_nonempty _ Hkey). cbn [Handlers.db].
    by rewrite (Hserved now Hnow).
Qed.

End Midnight.

(** The clean-up at an instant only removes entries, and only expires
    quotes, whose date lies before that instant's date. *)
Lemma sql_lt_now_past expires_at now :
  DB.sql_lt_now expires_at now = true -> expires_at < now.
Proof.
  unfold DB.sql_lt_now. intros Hlt%Z.ltb_lt.
  destruct (Z.lt_ge_cases expires_at now) as [|Hge]; [done|].
  apply utc_date_mono in Hge. lia.
Qed.

Lemma getValidQuote_answer now id db :
  fst (QuotesService.getValidQuote now id db)
  = match DB.getQuote id db with
    | Some quote =>
        if DB.q_expires_at quote <? now then None
        else match DB.q_status quote with
             | DB.Q_active => Some quote
             | _ => None
             end
    | None => None
    end.
Proof.
  unfold QuotesService.getValidQuote.
  destruct (DB.getQuote id db) as [quote|]; [|done].
  destruct (DB.q_expires_at quote <? now); [done|].
  by destruct (DB.q_status quote).
Qed.

(** X5.  The periodic clean-up is invisible to the requests that come after
    it: an idempotency lookup and a quote validation made at the instant of
    the clean-up or later answer the same with or without it.  It also leaves
    payments and jobs alone and a second clean-up at the same instant changes
    nothing more. *)
Theorem cleanup_is_invisible_to_later_requests
  (swept now : Z) (id : string) (db : DB.t) :
  swept <= now ->
  DB.getIdempotencyKey now id (QuotesService.cleanupExpired swept db)
  = DB.getIdempotencyKey now id db
  /\ fst (QuotesService.getValidQuote now id (QuotesService.cleanupExpired swept db))
     = fst (QuotesService.getValidQuote now id db)
  /\ DB.payments (QuotesService.cleanupExpired swept db) = DB.payments db
  /\ DB.jobs (QuotesService.cleanupExpired swept db) = DB.jobs db
  /\ QuotesService.cleanupExpired swept (QuotesService.cleanupExpired swept db)
     = QuotesService.cleanupExpired swept db.
Proof.
  intros Horder.
  unfold QuotesService.cleanupExpired, DB.cleanupExpired. repeat split.
  - unfold DB.getIdempotencyKey. cbn.
    destruct (DB.idempotency_keys db !! id) as [entry|] eqn:Hentry.
    + destruct (DB.sql_lt_now (DB.k_expires_at entry) swept) eqn:Hswept.
      * rewrite map_lookup_filter_None_2; [|right; intros x Hx; simplify_eq; cbn; congruence].
        apply sql_lt_now_past in Hswept as Hpast.
        unfold DB.sql_lt_now in Hswept. apply Z.ltb_lt in Hswept.
        pose proof (utc_date_mono _ _ Horder).
        unfold DB.sql_gt_now.
        by destruct (Z.leb_spec (DB.utc_date now) (DB.utc_date (DB.k_expires_at entry)));
          [lia|].
      * by rewrite (map_lookup_filter_Some_2 _ _ _ _ Hentry Hswept).
    + by rewrite map_lookup_filter_None_2; [|left].
  - rewrite !getValidQuote_answer. unfold DB.getQuote. cbn. rewrite lookup_fmap.
    destruct (DB.quotes db !! id) as [quote|] eqn:Hquote; [|done]. cbn.
    unfold DB.expire_if_due.
    destruct (DB.q_status quote) eqn:Hstatus; rewrite ?Hstatus; try done.
    destruct (DB.sql_lt_now (DB.q_expires_at quote) swept) eqn:Hswept;
      cbn; rewrite ?Hstatus; [|done].
    apply sql_lt_now_past in Hswept.
    by destruct (Z.ltb_spec (DB.q_expires_at quote) now); [|lia].
  - destruct db as [quotes payments jobs keys].
    unfold DB.set_quotes, DB.set_idempotency_keys. cbn. f_equal.
    + apply map_eq. intros i. rewrite !lookup_fmap.
      destruct (quotes !! i) as [quote|]; [|done]. cbn. f_equal.
      unfold DB.expire_if_due.
      destruct (DB.q_status quote) eqn:Hstatus; cbn; rewrite ?Hstatus; try done.
      by destruct (DB.sql_lt_now (DB.q_expires_at quote) swept) eqn:Hswept;
        cbn; rewrite ?Hstatus, ?Hswept.
    + apply map_eq. intros i. apply option_eq. intros entry.
      rewrite !map_lookup_filter_Some. tauto.
Qed.

(** ** What every statement keeps *)

Lemma same_but_status_refl q : same_but_status q q.
Proof. unfold same_but_status. by destruct q. Qed.

Lemma same_but_status_with q status : same_but_status q (DB.with_status status q).
Proof. unfold same_but_status. by destruct q. Qed.

Lemma same_but_status_trans q1 q2 q3 :
  same_but_status q1 q2 -> same_but_status q2 q3 -> same_but_status q1 q3.
Proof.
  unfold same_but_status, DB.with_status. intros H12 H23.
  destruct q1, q2, q3. cbn in *. injection H12 as ->. injection H23 as ->.
  congruence.
Qed.

Lemma same_but_status_nonce q q' : same_but_status q q' -> DB.q_nonce q' = DB.q_nonce q.
Proof. unfold same_but_status. intros <-. by destruct q'. Qed.

Lemma same_job_refl j : same_job j j.
Proof. by repeat split. Qed.

Lemma same_job_trans j1 j2 j3 : same_job j1 j2 -> same_job j2 j3 -> same_job j1 j3.
Proof.
  intros (? & ? & ? & ? & ? & ?) (? & ? & ? & ? & ? & ?).
  repeat split; try congruence. auto.
Qed.

Lemma same_job_updated j updates :
  DB.u_status updates <> Some DB.J_queued ->
  same_job j (DB.apply_updates updates j).
Proof.
  intros Hstatus. repeat split. cbn.
  destruct (DB.u_status updates) as [status|]; cbn; [congruence|done].
Qed.

Lemma rows_kept_refl db : rows_kept db db.
Proof.
  split; [done|]. split.
  - intros id j Hj. exists j. split; [done|apply same_job_refl].
  - intros id q Hq. exists q. split; [done|]. split; [apply same_but_status_refl|done].
Qed.

Lemma rows_kept_trans db1 db2 db3 :
  rows_kept db1 db2 -> rows_kept db2 db3 -> rows_kept db1 db3.
Proof.
  intros (Hp12 & Hj12 & Hq12) (Hp23 & Hj23 & Hq23). split; [by auto|]. split.
  - intros id j Hj.
    destruct (Hj12 _ _ Hj) as (j2 & Hj2 & Hsame12).
    destruct (Hj23 _ _ Hj2) as (j3 & Hj3 & Hsame23).
    exists j3. split; [done|]. by eapply same_job_trans.
  - intros id q Hq.
    destruct (Hq12 _ _ Hq) as (q2 & Hq2 & Hsame12 & Hact12).
    destruct (Hq23 _ _ Hq2) as (q3 & Hq3 & Hsame23 & Hact23).
    exists q3. split; [done|]. split; [by eapply same_but_status_trans|auto].
Qed.

(** A store that differs in the idempotency table only keeps every row. *)
Lemma rows_kept_same_tables db db' :
  DB.quotes db' = DB.quotes db -> DB.payments db' = DB.payments db ->
  DB.jobs db' = DB.jobs db -> rows_kept db db'.
Proof.
  intros Hq Hp Hj. unfold rows_kept, DB.getPayment, DB.getJob, DB.getQuote.
  rewrite Hq, Hp, Hj. apply rows_kept_refl.
Qed.

Lemma updateQuoteStatus_rows_kept id status db :
  status <> DB.Q_active -> rows_kept db (DB.updateQuoteStatus id status db).
Proof.
  intros Hstatus. split; [done|]. split.
  { intros i j Hj. exists j. split; [done|apply same_job_refl]. }
  intros i q Hq. unfold DB.getQuote in *. cbn.
  destruct (decide (i = id)) as [->|Hne].
  - rewrite lookup_alter_eq, Hq. cbn. eexists. split; [done|].
    split; [apply same_but_status_with|by destruct q].
  - rewrite lookup_alter_ne by done. exists q.
    split; [done|]. split; [apply same_but_status_refl|done].
Qed.

Lemma updateJob_rows_kept id updates db :
  DB.u_status updates <> Some DB.J_queued ->
  rows_kept db (DB.updateJob id updates db).
Proof.
  intros Hstatus. unfold DB.updateJob.
  destruct (DB.no_updates updates); [apply rows_kept_refl|].
  split; [done|]. split.
  - intros i j Hj. unfold DB.getJob in *. cbn.
    destruct (decide (i = id)) as [->|Hne].
    + rewrite lookup_alter_eq, Hj. cbn. eexists. split; [done|].
      by apply same_job_updated.
    + rewrite lookup_alter_ne by done. exists j. split; [done|apply same_job_refl].
  - intros i q Hq. exists q. split; [done|]. split; [apply same_but_status_refl|done].
Qed.

Lemma execute_rows_kept db s : rows_kept db (execute db s).
Proof.
  destruct s as [now quote|id|id|now payment|now job|id|id result now|id message now
                |now key response ttl|now|now]; cbn [execute].
  - destruct (DB.createQuote now quote db) as [[e|row] db1] eqn:Hcreate; cbn [snd].
    + apply createQuote_fails in Hcreate as [-> _]. apply rows_kept_refl.
    + apply createQuote_Returns in Hcreate as (Hfresh & _ & _ & ->).
      split; [done|]. split.
      { intros i j Hj. exists j. split; [done|apply same_job_refl]. }
      intros i q Hq. unfold DB.getQuote in *. cbn.
      rewrite lookup_insert_ne by congruence. exists q.
      split; [done|]. split; [apply same_but_status_refl|done].
  - by apply updateQuoteStatus_rows_kept.
  - by apply updateQuoteStatus_rows_kept.
  - destruct (DB.createPayment now payment db) as [[e|row] db1] eqn:Hcreate; cbn [snd].
    + apply createPayment_fails in Hcreate as [-> _]. apply rows_kept_refl.
    + apply createPayment_Returns in Hcreate as (Hfresh & -> & _).
      split; [|split].
      * intros i p Hp. unfold DB.getPayment in *. cbn.
        rewrite lookup_insert_ne by congruence. done.
      * intros i j Hj. exists j. split; [done|apply same_job_refl].
      * intros i q Hq. exists q. split; [done|].
        split; [apply same_but_status_refl|done].
  - destruct (DB.createJob now job db) as [[e|row] db1] eqn:Hcreate; cbn [snd].
    + apply createJob_fails in Hcreate as [-> _]. apply rows_kept_refl.
    + apply createJob_Returns in Hcreate as (Hfresh & -> & _).
      split; [done|]. split.
      * intros i j Hj. unfold DB.getJob in *. cbn.
        rewrite lookup_insert_ne by congruence. exists j.
        split; [done|apply same_job_refl].
      * intros i q Hq. exists q. split; [done|].
        split; [apply same_but_status_refl|done].
  - by apply updateJob_rows_kept.
  - by apply updateJob_rows_kept.
  - by apply updateJob_rows_kept.
  - by apply rows_kept_same_tables.
  - by apply rows_kept_same_tables.
  - split; [done|]. split.
    { intros i j Hj. exists j. split; [done|apply same_job_refl]. }
    intros i q Hq. unfold DB.getQuote in *. cbn. rewrite lookup_fmap, Hq. cbn.
    eexists. split; [done|]. unfold DB.expire_if_due.
    destruct (DB.q_status q) eqn:Hstatus;
      try (split; [apply same_but_status_refl|congruence]).
    destruct (DB.sql_lt_now (DB.q_expires_at q) now);
      (split; [apply same_but_status_with || apply same_but_status_refl|done]).
Qed.

Lemma trace_rows_kept trace db : rows_kept db (fold_left execute trace db).
Proof.
  revert db. induction trace as [|s trace IH]; intros db; cbn [fold_left].
  - apply rows_kept_refl.
  - eapply rows_kept_trans; [apply execute_rows_kept|apply IH].
Qed.

Lemma executed_rows_kept db db' : executed db db' -> rows_kept db db'.
Proof. intros (trace & ->). apply trace_rows_kept. Qed.

Lemma executed_refl db : executed db db.
Proof. by exists []. Qed.

Lemma executed_one db s : executed db (execute db s).
Proof. by exists [s]. Qed.

Lemma executed_trans db1 db2 db3 : executed db1 db2 -> executed db2 db3 -> executed db1 db3.
Proof.
  intros (t1 & ->) (t2 & ->). exists (t1 ++ t2)%list. by rewrite fold_left_app.
Qed.

Lemma executed_then db1 db2 s : executed db1 db2 -> executed db1 (execute db2 s).
Proof. intros H. eapply executed_trans; [exact H|apply executed_one]. Qed.

(** The effect of each service method on the store is that of the
    statements it sends. *)
Lemma cleanupExpired_executed now db : executed db (DB.cleanupExpired now db).
Proof. by exists [DeleteExpiredKeys now; ExpireDueQuotes now]. Qed.

Lemma getValidQuote_executed now id db :
  executed db (snd (QuotesService.getValidQuote now id db)).
Proof.
  unfold QuotesService.getValidQuote.
  destruct (DB.getQuote id db) as [quote|]; [|apply executed_refl].
  destruct (DB.q_expires_at quote <? now); [apply (executed_one db (ExpireQuote id))|].
  destruct (DB.q_status quote); apply executed_refl.
Qed.

Lemma issuer_executed aspClient now quoteNano nonce req db :
  executed db (snd (QuotesService.createQuote aspClient now quoteNano nonce req db)).
Proof.
  unfold QuotesService.createQuote.
  destruct (negb _); [apply executed_refl|].
  destruct (table_get Pricing.PRICING_RULES (QuotesService.endpoint req));
    [|apply executed_refl|];
    (destruct (ASPClient.getCurrentRound aspClient now) as [e|round];
       [apply executed_refl|]);
    match goal with
    | |- context [DB.createQuote now ?q ?d] =>
        pose proof (executed_one d (InsertQuote now q)) as Hone; cbn [execute] in Hone;
        by destruct (DB.createQuote now q d) as [[e|row] db']
    end.
Qed.

Section Schedules.

Context `{rt : Runtime}.
Variable verifySpend :
  ArkVerifier.VerificationRequest -> exn + ArkVerifier.VerificationResult.

Lemma executeJob_executed now jobId db :
  executed db (snd (JobsService.executeJob now jobId db)).
Proof.
  unfold JobsService.executeJob, JobsService.job_failed.
  destruct (DB.getJob jobId db) as [job|]; [|apply executed_refl].
  pose proof (executed_one db (StartJob jobId)) as Hstart. cbn [execute] in Hstart.
  destruct (table_get JobsService.WORKERS (DB.j_endpoint job)) as [worker| |];
    [destruct (worker now (JSON_parse (DB.j_args_json job))) as [e|result]| |];
    cbn [snd].
  - apply (executed_then _ _ (FailJob jobId (exn_message e) now) Hstart).
  - apply (executed_then _ _ (CompleteJob jobId (JobsService.stringified result) now)
             Hstart).
  - exact Hstart.
  - apply (executed_then _ _
             (FailJob jobId (exn_message
                               (Error ("no worker for endpoint: " ++ DB.j_endpoint job)))
                now) Hstart).
Qed.

Lemma paycall_begin_executed now req w :
  executed (Handlers.db w) (Handlers.db (snd (Handlers.paycall_begin now req w))).
Proof.
  unfold Handlers.paycall_begin.
  destruct (Handlers.cached_response now req w); [apply executed_refl|].
  destruct (Handlers.PayCallBodySchema_parse (Handlers.body req)) as [|body];
    [apply executed_refl|].
  pose proof (getValidQuote_executed now (Handlers.quote_id body) (Handlers.db w)) as Hq.
  destruct (QuotesService.getValidQuote now (Handlers.quote_id body) (Handlers.db w))
    as [[quote|] db1]; cbn in *; [|done].
  by destruct (negb _).
Qed.

Lemma paycall_resume_executed now payNano jobNano s answer w :
  executed (Handlers.db w)
    (Handlers.db (snd (Handlers.paycall_resume now payNano jobNano s answer w))).
Proof.
  unfold Handlers.paycall_resume.
  destruct answer as [e|verified]; [apply executed_refl|].
  destruct (negb _); [apply executed_refl|].
  set (payment := DB.mkPayment _ _ _ _ _ _ _ _ _).
  pose proof (executed_one (Handlers.db w) (InsertPayment now payment)) as H1.
  cbn [execute] in H1.
  destruct (DB.createPayment now payment (Handlers.db w)) as [[e|row] db1];
    cbn [snd] in *; [done|].
  pose proof (executed_then _ _ (UseQuote (Handlers.quote_id (Handlers.s_body s))) H1)
    as H2.
  cbn [execute] in H2. unfold QuotesService.markQuoteUsed, JobsService.createJob.
  set (db2 := DB.updateQuoteStatus _ _ db1) in *.
  set (job := DB.mkJob _ _ _ _ _ _ _ _ _).
  pose proof (executed_then _ _ (InsertJob now job) H2) as H3. cbn [execute] in H3.
  destruct (DB.createJob now job db2) as [[e|jrow] db3]; cbn [snd] in *; [done|].
  pose proof (executeJob_executed now (DB.j_id jrow) db3) as H4.
  destruct (JobsService.executeJob now (DB.j_id jrow) db3) as [[result|e|] db4];
    cbn [snd] in *; try (by eapply executed_trans).
  destruct (JobsService.status result); cbn [snd Handlers.db];
    [|by eapply executed_trans].
  destruct (truthy_string (Handlers.s_idempotencyKey s)); [|by eapply executed_trans].
  eapply executed_trans; [exact H3|]. eapply executed_trans; [exact H4|].
  apply (executed_one db4 (SetIdempotencyKey now _ _ 120)).
Qed.

Lemma step_executed srv e :
  executed (Handlers.db (Server.world srv))
    (Handlers.db (Server.world (Server.step verifySpend srv e))).
Proof.
  destruct e as [conn now req|conn now payNano jobNano|now]; cbn.
  - destruct (Server.waiting srv !! conn); [apply executed_refl|].
    pose proof (paycall_begin_executed now req (Server.world srv)) as Hbegin.
    by destruct (Handlers.paycall_begin now req (Server.world srv)) as [[reply|s] w1].
  - destruct (Server.waiting srv !! conn) as [s|]; [|apply executed_refl].
    pose proof (paycall_resume_executed now payNano jobNano s
                  (verifySpend (Handlers.s_request s)) (Server.world srv)) as Hresume.
    by destruct (Handlers.paycall_resume now payNano jobNano s _ (Server.world srv))
      as [out w1].
  - apply cleanupExpired_executed.
Qed.

Lemma run_executed schedule srv :
  executed (Handlers.db (Server.world srv))
    (Handlers.db (Server.world (Server.run verifySpend schedule srv))).
Proof.
  unfold Server.run. revert srv.
  induction schedule as [|e schedule IH]; intros srv; cbn [fold_left].
  - apply executed_refl.
  - eapply executed_trans; [apply step_executed|apply IH].
Qed.

(** X6.  Statement by statement, the store keeps what it holds.  After any
    sequence of the statements the services send, in any order and from any
    number of handlers or server processes: a payment row, once stored, is
    never deleted or changed; a job row is never deleted and keeps the
    payment, endpoint and arguments it was created with, only its status,
    result, error and completion time change, and it is never [queued]
    again once started; a quote is never deleted, only its status changes,
    and a quote that is no longer [active] never becomes [active] again.
    Every step of a handler, the periodic clean-up and the quote issuer act
    on the store through such statements only, so this holds for every
    schedule, however finely the handlers are interleaved. *)
Theorem stored_rows_are_kept :
  (forall (trace : list statement) (db : DB.t), rows_kept db (fold_left execute trace db))
  /\ (forall (srv : Server.t) (e : Server.event),
        executed (Handlers.db (Server.world srv))
          (Handlers.db (Server.world (Server.step verifySpend srv e))))
  /\ (forall aspClient now quoteNano nonce req db,
        executed db
          (snd (QuotesService.createQuote aspClient now quoteNano nonce req db)))
  /\ (forall (schedule : list Server.event) (srv : Server.t),
        rows_kept (Handlers.db (Server.world srv))
          (Handlers.db (Server.world (Server.run verifySpend schedule srv)))).
Proof.
  split; [intros trace db; apply trace_rows_kept|].
  split; [apply step_executed|]. split; [apply issuer_executed|].
  intros schedule srv. apply executed_rows_kept, run_executed.
Qed.

End Schedules.

(** X1.  An identifier or a nonce that a stored quote carries is never
    issued again.  Once [createQuote] has stored a quote, then whatever
    statements the services send afterwards, a later [createQuote] with the
    same identifier or the same nonce throws and changes nothing. *)
Theorem issued_quote_stays_taken
  (now now' : Z) (quote quote' row : DB.Quote) (db db1 : DB.t)
  (trace : list statement) :
  DB.createQuote now quote db = (inr row, db1) ->
  DB.q_id quote' = DB.q_id quote \/ DB.q_nonce quote' = DB.q_nonce quote ->
  exists e,
    DB.createQuote now' quote' (fold_left execute trace db1)
    = (inl e, fold_left execute trace db1).
Proof.
  intros Hcreate Hsame.
  apply createQuote_Returns in Hcreate as (_ & _ & -> & ->).
  set (stored := DB.mkQuote _ _ _ _ _ _ _ _ _ _).
  set (db1 := DB.set_quotes _ db).
  assert (Hstored : DB.getQuote (DB.q_id quote) db1 = Some stored)
    by (unfold DB.getQuote; cbn; apply lookup_insert_eq).
  destruct (trace_rows_kept trace db1) as (_ & _ & Hquotes).
  destruct (Hquotes _ _ Hstored) as (kept & Hkept & Hsame_row & _).
  apply same_but_status_nonce in Hsame_row. cbn in Hsame_row.
  set (db2 := fold_left execute trace db1) in *.
  destruct (DB.createQuote now' quote' db2) as [[e|row'] db3] eqn:Hagain.
  - apply createQuote_fails in Hagain as [-> _]. by exists e.
  - exfalso. apply createQuote_Returns in Hagain as (Hfree & Hnonce & _).
    destruct Hsame as [Hid|Hn].
    + rewrite Hid in Hfree. congruence.
    + eapply (nonce_taken_false _ _ Hnonce); [exact Hkept|]. congruence.
Qed.

(** ** Integrity of the store *)

Lemma store_ok_empty : store_ok DB.empty.
Proof.
  unfold store_ok, keys_match, references_resolve, nonces_unique,
    DB.getQuote, DB.getPayment, DB.getJob. cbn.
  repeat split; intros *; by rewrite ?lookup_empty.
Qed.

Lemma updateQuoteStatus_store_ok id status db :
  store_ok db -> store_ok (DB.updateQuoteStatus id status db).
Proof.
  intros ((Kq & Kp & Kj & Kk) & (Rp & Rj) & Hn).
  assert (Hlookup : forall i q,
            DB.getQuote i (DB.updateQuoteStatus id status db) = Some q ->
            exists q0, DB.getQuote i db = Some q0
                       /\ DB.q_id q = DB.q_id q0 /\ DB.q_nonce q = DB.q_nonce q0).
  { intros i q. unfold DB.getQuote. cbn.
    destruct (decide (i = id)) as [->|Hne].
    - rewrite lookup_alter_eq. destruct (DB.quotes db !! id) as [q0|]; [|done].
      cbn. intros [= <-]. eauto.
    - rewrite lookup_alter_ne by done. eauto. }
  split; [|split].
  - repeat split; try done.
    intros i q Hq. apply Hlookup in Hq as (q0 & Hq0 & -> & _). by apply Kq.
  - split.
    + intros i p Hp. destruct (Rp i p Hp) as [q Hq]. unfold DB.getQuote in *. cbn.
      destruct (decide (DB.p_quote_id p = id)) as [<-|Hne];
        [rewrite lookup_alter_eq, Hq | rewrite lookup_alter_ne by done]; by eauto.
    + done.
  - intros i1 i2 q1 q2 H1 H2 Hsame.
    apply Hlookup in H1 as (q1' & H1 & _ & Hn1).
    apply Hlookup in H2 as (q2' & H2 & _ & Hn2).
    apply (Hn i1 i2 q1' q2' H1 H2). congruence.
Qed.

Lemma cleanupExpired_store_ok now db : store_ok db -> store_ok (DB.cleanupExpired now db).
Proof.
  intros ((Kq & Kp & Kj & Kk) & (Rp & Rj) & Hn).
  assert (Hlookup : forall i q,
            DB.getQuote i (DB.cleanupExpired now db) = Some q ->
            exists q0, DB.getQuote i db = Some q0
                       /\ DB.q_id q = DB.q_id q0 /\ DB.q_nonce q = DB.q_nonce q0).
  { intros i q. unfold DB.getQuote. cbn. rewrite lookup_fmap.
    destruct (DB.quotes db !! i) as [q0|]; [|done]. cbn. intros [= <-].
    exists q0. split; [done|]. unfold DB.expire_if_due.
    destruct (DB.q_status q0); try done.
    by destruct (DB.sql_lt_now _ _). }
  split; [|split].
  - repeat split; try done.
    + intros i q Hq. apply Hlookup in Hq as (q0 & Hq0 & -> & _). by apply Kq.
    + intros key entry. cbn. rewrite map_lookup_filter_Some. intros [Hentry _].
      by apply Kk.
  - split; [|done].
    intros i p Hp. destruct (Rp i p Hp) as [q Hq]. unfold DB.getQuote in *. cbn.
    rewrite lookup_fmap, Hq. by eauto.
  - intros i1 i2 q1 q2 H1 H2 Hsame.
    apply Hlookup in H1 as (q1' & H1 & _ & Hn1).
    apply Hlookup in H2 as (q2' & H2 & _ & Hn2).
    apply (Hn i1 i2 q1' q2' H1 H2). congruence.
Qed.

Lemma createQuote_store_ok now quote db :
  store_ok db -> store_ok (snd (DB.createQuote now quote db)).
Proof.
  intros Hok.
  destruct (DB.createQuote now quote db) as [[e|row] db'] eqn:Hcreate; cbn;
    [by apply createQuote_fails in Hcreate as [-> _]|].
  apply createQuote_Returns in Hcreate as (Hfresh & Hnonce & Hrow & ->).
  destruct Hok as ((Kq & Kp & Kj & Kk) & (Rp & Rj) & Hn).
  assert (Hlookup : forall i q,
            DB.getQuote i (DB.set_quotes (insert (DB.q_id quote) row) db) = Some q ->
            (i = DB.q_id quote /\ q = row) \/ (i <> DB.q_id quote /\ DB.getQuote i db = Some q)).
  { intros i q. unfold DB.getQuote. cbn.
    destruct (decide (i = DB.q_id quote)) as [->|Hne];
      [rewrite lookup_insert_eq; intros [= <-]; auto
      |rewrite lookup_insert_ne by done; auto]. }
  split; [|split].
  - repeat split; try done.
    intros i q [[-> ->]|[_ Hq]]%Hlookup; [by rewrite Hrow|by apply Kq].
  - split; [|done].
    intros i p Hp. destruct (Rp i p Hp) as [q Hq]. unfold DB.getQuote in *. cbn.
    destruct (decide (DB.p_quote_id p = DB.q_id quote)) as [->|Hne];
      [rewrite lookup_insert_eq | rewrite lookup_insert_ne by done]; by eauto.
  - intros i1 i2 q1 q2 [[-> ->]|[Hne1 H1]]%Hlookup [[-> ->]|[Hne2 H2]]%Hlookup Hsame;
      try done.
    + exfalso. apply (nonce_taken_false _ _ Hnonce _ _ H2). rewrite <- Hsame.
      by rewrite Hrow.
    + exfalso. apply (nonce_taken_false _ _ Hnonce _ _ H1). rewrite Hsame.
      by rewrite Hrow.
    + by eapply Hn.
Qed.

Lemma createPayment_store_ok now payment db :
  store_ok db -> store_ok (snd (DB.createPayment now payment db)).
Proof.
  intros Hok.
  destruct (DB.createPayment now payment db) as [[e|row] db'] eqn:Hcreate; cbn;
    [by apply createPayment_fails in Hcreate as [-> _]|].
  assert (Hquote : is_Some (DB.getQuote (DB.p_quote_id payment) db)).
  { revert Hcreate. unfold DB.createPayment, DB.getQuote.
    destruct (DB.payments db !! DB.p_id payment); [discriminate|].
    destruct (DB.quotes db !! DB.p_quote_id payment); [by eauto|discriminate]. }
  apply createPayment_Returns in Hcreate as (Hfresh & -> & Hid & Hqid & _).
  destruct Hok as ((Kq & Kp & Kj & Kk) & (Rp & Rj) & Hn).
  assert (Hlookup : forall i p,
            DB.getPayment i (DB.set_payments (insert (DB.p_id payment) row) db) = Some p ->
            (i = DB.p_id payment /\ p = row) \/ DB.getPayment i db = Some p).
  { intros i p. unfold DB.getPayment. cbn.
    destruct (decide (i = DB.p_id payment)) as [->|Hne];
      [rewrite lookup_insert_eq; intros [= <-]; auto
      |rewrite lookup_insert_ne by done; auto]. }
  split; [|split; [|done]].
  - repeat split; try done.
    intros i p [[-> ->]|Hp]%Hlookup; [done|by apply Kp].
  - split.
    + intros i p [[-> ->]|Hp]%Hlookup; [by rewrite Hqid|by eapply Rp].
    + intros i j Hj. destruct (Rj i j Hj) as [p Hp]. unfold DB.getPayment in *. cbn.
      destruct (decide (DB.j_payment_id j = DB.p_id payment)) as [->|Hne];
        [rewrite lookup_insert_eq | rewrite lookup_insert_ne by done]; by eauto.
Qed.

Lemma createJob_store_ok now job db :
  store_ok db -> store_ok (snd (DB.createJob now job db)).
Proof.
  intros Hok. unfold DB.createJob, DB.getPayment.
  destruct (DB.jobs db !! DB.j_id job) eqn:Hfresh; [done|].
  destruct (DB.payments db !! DB.j_payment_id job) as [p|] eqn:Hp; [|done].
  cbn. destruct Hok as ((Kq & Kp & Kj & Kk) & (Rp & Rj) & Hn).
  split; [|split; [|done]].
  - repeat split; try done.
    intros i j. unfold DB.getJob. cbn.
    destruct (decide (i = DB.j_id job)) as [->|Hne];
      [rewrite lookup_insert_eq; by intros [= <-]
      |rewrite lookup_insert_ne by done; apply Kj].
  - split; [done|].
    intros i j. unfold DB.getJob, DB.getPayment. cbn.
    destruct (decide (i = DB.j_id job)) as [->|Hne];
      [rewrite lookup_insert_eq; intros [= <-]; cbn; by eauto
      |rewrite lookup_insert_ne by done; apply Rj].
Qed.

Lemma updateJob_store_ok id updates db :
  store_ok db -> store_ok (DB.updateJob id updates db).
Proof.
  intros Hok. unfold DB.updateJob. destruct (DB.no_updates updates); [done|].
  destruct Hok as ((Kq & Kp & Kj & Kk) & (Rp & Rj) & Hn).
  assert (Hlookup : forall i j,
            DB.getJob i (DB.set_jobs (alter (DB.apply_updates updates) id) db) = Some j ->
            exists j0, DB.getJob i db = Some j0
                       /\ DB.j_id j = DB.j_id j0
                       /\ DB.j_payment_id j = DB.j_payment_id j0).
  { intros i j. unfold DB.getJob. cbn.
    destruct (decide (i = id)) as [->|Hne].
    - rewrite lookup_alter_eq. destruct (DB.jobs db !! id) as [j0|]; [|done].
      cbn. intros [= <-]. eauto.
    - rewrite lookup_alter_ne by done. eauto. }
  split; [|split; [|done]].
  - repeat split; try done.
    intros i j (j0 & Hj0 & -> & _)%Hlookup. by apply Kj.
  - split; [done|].
    intros i j (j0 & Hj0 & _ & ->)%Hlookup. by eapply Rj.
Qed.

Lemma setIdempotencyKey_store_ok now key response ttl db :
  store_ok db -> store_ok (DB.setIdempotencyKey now key response ttl db).
Proof.
  intros ((Kq & Kp & Kj & Kk) & HR & Hn). split; [|done].
  repeat split; try done.
  intros k entry. cbn.
  destruct (decide (k = key)) as [->|Hne];
    [rewrite lookup_insert_eq; by intros [= <-]
    |rewrite lookup_insert_ne by done; apply Kk].
Qed.

Section Integrity.

Context `{rt : Runtime}.
Variable verifySpend :
  ArkVerifier.VerificationRequest -> exn + ArkVerifier.VerificationResult.

Lemma executeJob_store_ok now jobId db :
  store_ok db -> store_ok (snd (JobsService.executeJob now jobId db)).
Proof.
  intros Hok. unfold JobsService.executeJob, JobsService.job_failed.
  destruct (DB.getJob jobId db) as [job|]; [|done].
  destruct (table_get JobsService.WORKERS (DB.j_endpoint job)) as [worker| |];
    [destruct (worker now (JSON_parse (DB.j_args_json job)))| |];
    cbn [snd]; by repeat apply updateJob_store_ok.
Qed.

Lemma getValidQuote_store_ok now id db :
  store_ok db -> store_ok (snd (QuotesService.getValidQuote now id db)).
Proof.
  intros Hok. unfold QuotesService.getValidQuote.
  destruct (DB.getQuote id db) as [quote|]; [|done].
  destruct (DB.q_expires_at quote <? now); [by apply updateQuoteStatus_store_ok|].
  by destruct (DB.q_status quote).
Qed.

Lemma paycall_begin_store_ok now req w :
  store_ok (Handlers.db w) ->
  store_ok (Handlers.db (snd (Handlers.paycall_begin now req w))).
Proof.
  intros Hok. unfold Handlers.paycall_begin.
  destruct (Handlers.cached_response now req w); [done|].
  destruct (Handlers.PayCallBodySchema_parse (Handlers.body req)) as [|body]; [done|].
  pose proof (getValidQuote_store_ok now (Handlers.quote_id body) _ Hok) as Hvalid.
  destruct (QuotesService.getValidQuote now (Handlers.quote_id body) (Handlers.db w))
    as [[quote|] db1]; [|done].
  by destruct (negb _).
Qed.

Lemma paycall_resume_store_ok now payNano jobNano s answer w :
  store_ok (Handlers.db w) ->
  store_ok (Handlers.db (snd (Handlers.paycall_resume now payNano jobNano s answer w))).
Proof.
  intros Hok. unfold Handlers.paycall_resume.
  destruct answer as [e|verified]; [done|].
  destruct (negb (ArkVerifier.ok verified)); [done|].
  match goal with
  | |- context [DB.createPayment now ?p (Handlers.db w)] =>
      pose proof (createPayment_store_ok now p _ Hok) as Hpaid;
      destruct (DB.createPayment now p (Handlers.db w)) as [[e|row] db1]
  end; [done|].
  cbn [snd] in Hpaid.
  apply (updateQuoteStatus_store_ok
           (Handlers.quote_id (Handlers.s_body s)) DB.Q_used) in Hpaid.
  unfold QuotesService.markQuoteUsed, JobsService.createJob.
  match goal with
  | |- context [DB.createJob now ?j ?d] =>
      pose proof (createJob_store_ok now j d Hpaid) as Hjob;
      destruct (DB.createJob now j d) as [[e|job] db3]
  end; [done|].
  cbn [snd] in Hjob.
  pose proof (executeJob_store_ok now (DB.j_id job) _ Hjob) as Hrun.
  destruct (JobsService.executeJob now (DB.j_id job) db3) as [[result|e|] db4];
    [|done|done].
  cbn [snd] in Hrun.
  destruct (JobsService.status result); [|done].
  destruct (truthy_string (Handlers.s_idempotencyKey s)); [|done].
  by apply setIdempotencyKey_store_ok.
Qed.

Lemma step_store_ok srv e :
  store_ok (Handlers.db (Server.world srv)) ->
  store_ok (Handlers.db (Server.world (Server.step verifySpend srv e))).
Proof.
  intros Hok. destruct e as [conn now req|conn now payNano jobNano|now]; cbn.
  - destruct (Server.waiting srv !! conn); [done|].
    pose proof (paycall_begin_store_ok now req _ Hok) as Hbegin.
    by destruct (Handlers.paycall_begin now req (Server.world srv)) as [[reply|s] w1].
  - destruct (Server.waiting srv !! conn) as [s|]; [|done].
    pose proof (paycall_resume_store_ok now payNano jobNano s
                  (verifySpend (Handlers.s_request s)) _ Hok) as Hresume.
    by destruct (Handlers.paycall_resume now payNano jobNano s _ (Server.world srv)).
  - by apply cleanupExpired_store_ok.
Qed.

(** X7.  Starting from a store in which every row sits under its own
    identifier, every payment names a stored quote, every job names a stored
    payment and no two quotes share a nonce, the same holds after any
    schedule of settlement requests and clean-ups, and after issuing a quote;
    the empty store is such a store. *)
Theorem store_integrity_is_kept
  (schedule : list Server.event) (srv : Server.t)
  (aspClient : ASPClient.t) (now : Z) (quoteNano nonce : string)
  (req : QuotesService.QuoteRequest) :
  store_ok (Handlers.db (Server.world srv)) ->
  store_ok (Handlers.db (Server.world (Server.run verifySpend schedule srv)))
  /\ store_ok (snd (QuotesService.createQuote aspClient now quoteNano nonce req
                      (Handlers.db (Server.world srv))))
  /\ store_ok DB.empty.
Proof.
  intros Hok. split; [|split; [|apply store_ok_empty]].
  - unfold Server.run. revert srv Hok.
    induction schedule as [|e schedule IH]; intros srv Hok; cbn [fold_left]; [done|].
    by apply IH, step_store_ok.
  - unfold QuotesService.createQuote.
    destruct (negb _); [done|].
    destruct (table_get Pricing.PRICING_RULES (QuotesService.endpoint req));
      [|done|];
      (destruct (ASPClient.getCurrentRound aspClient now) as [e|round]; [done|]);
      match goal with
      | |- context [DB.createQuote now ?q ?d] =>
          pose proof (createQuote_store_ok now q d Hok) as Hcreate;
          by destruct (DB.createQuote now q d) as [[e|row] db']
      end.
Qed.

End Integrity.

(** ** More on single requests *)

Section Requests.

Context `{rt : Runtime}.
Variable verifySpend :
  ArkVerifier.VerificationRequest -> exn + ArkVerifier.VerificationResult.

Lemma world_eta w : Handlers.mkWorld (Handlers.db w) (Handlers.verifier_calls w) = w.
Proof. by destruct w. Qed.

(** X8.  How a request that has no cached response is turned away before the
    verifier is asked: a body that fails the schema gets [400
    validation_error] with the failing paths; an unknown quote gets [409]; so
    does a quote past its expiry instant, which is thereby marked [expired];
    so does a quote that is not [active].  Except for that one status, the
    store and the verifier log are as before. *)
Theorem refusals_before_verification
  (t1 t2 : Z) (payNano jobNano : string) (req : Handlers.Request) (w : Handlers.World) :
  Handlers.cached_response t1 req w = None ->
  match Handlers.PayCallBodySchema_parse (Handlers.body req) with
  | inl issues =>
      Handlers.paycall verifySpend t1 t2 payNano jobNano req w
      = (Returns (Handlers.mkReply 400
                    (JObj [ ("error", JStr "validation_error");
                            ("details", JArr (map JStr issues)) ])), w)
  | inr body =>
      match DB.getQuote (Handlers.quote_id body) (Handlers.db w) with
      | None =>
          Handlers.paycall verifySpend t1 t2 payNano jobNano req w
          = (Returns Handlers.quote_conflict, w)
      | Some quote =>
          (DB.q_expires_at quote < t1 ->
           Handlers.paycall verifySpend t1 t2 payNano jobNano req w
           = (Returns Handlers.quote_conflict,
              Handlers.mkWorld
                (DB.updateQuoteStatus (Handlers.quote_id body) DB.Q_expired (Handlers.db w))
                (Handlers.verifier_calls w)))
          /\ (t1 <= DB.q_expires_at quote -> DB.q_status quote <> DB.Q_active ->
              Handlers.paycall verifySpend t1 t2 payNano jobNano req w
              = (Returns Handlers.quote_conflict, w))
      end
  end.
Proof.
  intros Hmiss.
  unfold Handlers.paycall, Handlers.paycall_begin, QuotesService.getValidQuote.
  rewrite Hmiss.
  destruct (Handlers.PayCallBodySchema_parse (Handlers.body req)) as [issues|body];
    [done|].
  destruct (DB.getQuote (Handlers.quote_id body) (Handlers.db w)) as [quote|];
    [|by rewrite world_eta].
  split.
  - intros Hpast. by destruct (Z.ltb_spec (DB.q_expires_at quote) t1); [|lia].
  - intros Hfresh Hstatus.
    destruct (Z.ltb_spec (DB.q_expires_at quote) t1); [lia|].
    destruct (DB.q_status quote); [done| |]; by rewrite world_eta.
Qed.



(** X10.  An endpoint for which [WORKERS] has no worker is not turned away at
    settlement: once the verifier accepts, the payment is recorded and the
    quote is marked [used], and only then does the job fail, with [500
    job_execution_failed] and the message [no worker for endpoint: ...]. *)
Theorem endpoint_without_worker_is_paid_for
  (t1 t2 : Z) (payNano jobNano : string) (req : Handlers.Request)
  (w w1 : Handlers.World) (s : Handlers.Suspended)
  (verified : ArkVerifier.VerificationResult) :
  Handlers.paycall_begin t1 req w = (inr s, w1) ->
  JobsService.WORKERS (Handlers.endpoint (Handlers.request (Handlers.s_body s))) = None ->
  inherited_name (Handlers.endpoint (Handlers.request (Handlers.s_body s))) = false ->
  verifySpend (Handlers.s_request s) = inr verified ->
  ArkVerifier.ok verified = true ->
  DB.getPayment ("pay_" ++ payNano) (Handlers.db w) = None ->
  DB.getJob ("job_" ++ jobNano) (Handlers.db w) = None ->
  let out := Handlers.paycall verifySpend t1 t2 payNano jobNano req w in
  fst out
  = Returns (Handlers.mkReply 500
               (JObj [ ("error", JStr "job_execution_failed");
                       ("message",
                         JStr ("no worker for endpoint: "
                               ++ Handlers.endpoint (Handlers.request (Handlers.s_body s)))) ]))
  /\ (exists payment,
        DB.getPayment ("pay_" ++ payNano) (Handlers.db (snd out)) = Some payment
        /\ DB.p_status payment = DB.P_verified)
  /\ DB.q_status <$> DB.getQuote (Handlers.quote_id (Handlers.s_body s)) (Handlers.db (snd out))
     = Some DB.Q_used
  /\ DB.j_status <$> DB.getJob ("job_" ++ jobNano) (Handlers.db (snd out))
     = Some DB.J_failed.
Proof.
  intros Hbegin Hnone Hown Hverify Hok Hpfresh Hjfresh out. subst out.
  unfold Handlers.paycall. rewrite Hbegin, Hverify.
  apply paycall_begin_suspends in Hbegin as (_ & _ & Hquote & _ & _ & _ & _ & _ & ->).
  unfold DB.getPayment, DB.getJob, DB.getQuote in *.
  unfold Handlers.paycall_resume. rewrite Hok. cbn [negb Handlers.db].
  unfold DB.createPayment. cbn [DB.p_id DB.p_quote_id]. rewrite Hpfresh, Hquote.
  unfold JobsService.createJob, DB.createJob, QuotesService.markQuoteUsed.
  cbn [DB.j_id DB.j_payment_id DB.updateQuoteStatus DB.set_quotes DB.set_payments
       DB.jobs DB.payments DB.quotes JobsService.paymentId JobsService.endpoint
       JobsService.args].
  rewrite Hjfresh, lookup_insert_eq.
  unfold JobsService.executeJob, DB.getJob.
  cbn [DB.j_id DB.set_jobs DB.jobs]. rewrite lookup_insert_eq.
  cbn [DB.j_endpoint]. unfold table_get. rewrite Hnone, Hown.
  cbn -[String.append]. rewrite !lookup_alter_eq, !lookup_insert_eq, Hquote.
  cbn -[String.append]. eauto 10.
Qed.

End Requests.

(** ** The repository's verifier *)

Section Verifier.

Context `{rt : Runtime}.

Lemma validatePaymentFormat_empty_l p : ArkVerifier.validatePaymentFormat "" p = false.
Proof. done. Qed.

Lemma validatePaymentFormat_empty_r s : ArkVerifier.validatePaymentFormat s "" = false.
Proof.
  unfold ArkVerifier.validatePaymentFormat. cbn [utf16_length].
  change (0 <? 10)%nat with true. by rewrite orb_true_r.
Qed.

Lemma truthy_string_false (s : string) : truthy_string s = false -> s = "".
Proof. by destruct s. Qed.

(** The characters of the base-64 alphabet are one byte and one UTF-16 unit
    each. *)
Lemma base64_char_unit (c : ascii) :
  ArkVerifier.base64_char c = true -> utf16_units c = 1%nat.
Proof.
  destruct c as [[|] [|] [|] [|] [|] [|] [|] [|]]; vm_compute; congruence.
Qed.

Lemma base64_length (s : string) :
  forallb ArkVerifier.base64_char (list_ascii_of_string s) = true ->
  utf16_length s = String.length s.
Proof.
  induction s as [|c s IH]; [done|]. cbn [list_ascii_of_string forallb].
  intros [Hc Hs]%andb_true_iff. cbn [utf16_length String.length].
  by rewrite (base64_char_unit _ Hc), (IH Hs).
Qed.

Lemma base64Regex_test_false (s : string) :
  forallb ArkVerifier.base64_char (list_ascii_of_string s) = false ->
  ArkVerifier.base64Regex_test s = false.
Proof. by destruct s. Qed.

Lemma base64Regex_test_long (s : string) :
  (10 <= String.length s)%nat ->
  ArkVerifier.base64Regex_test s = forallb ArkVerifier.base64_char (list_ascii_of_string s).
Proof. destruct s; cbn; [lia|done]. Qed.

Lemma validatePaymentFormat_spec (spend prf : string) :
  ArkVerifier.validatePaymentFormat spend prf
  = (10 <=? String.length spend)%nat && (10 <=? String.length prf)%nat
    && forallb ArkVerifier.base64_char (list_ascii_of_string spend)
    && forallb ArkVerifier.base64_char (list_ascii_of_string prf).
Proof.
  unfold ArkVerifier.validatePaymentFormat.
  destruct (forallb ArkVerifier.base64_char (list_ascii_of_string spend)) eqn:Fs.
  2:{ rewrite (base64Regex_test_false _ Fs), andb_false_r. cbn [andb].
      by destruct (_ || _). }
  destruct (forallb ArkVerifier.base64_char (list_ascii_of_string prf)) eqn:Fp.
  2:{ rewrite (base64Regex_test_false _ Fp), !andb_false_r.
      by destruct (_ || _). }
  rewrite (base64_length _ Fs), (base64_length _ Fp), !andb_true_r.
  destruct (Nat.ltb_spec (String.length spend) 10) as [Hs|Hs];
    destruct (Nat.ltb_spec (String.length prf) 10) as [Hp|Hp]; cbn [orb].
  - by rewrite (proj2 (Nat.leb_gt _ _) Hs).
  - by rewrite (proj2 (Nat.leb_gt _ _) Hs).
  - by rewrite (proj2 (Nat.leb_gt _ _) Hp), andb_false_r.
  - rewrite (proj2 (Nat.leb_le _ _) Hs), (proj2 (Nat.leb_le _ _) Hp).
    by rewrite !base64Regex_test_long, Fs, Fp.
Qed.

Lemma verifySpend_repository config now req :
  exists result,
    ArkVerifier.verifySpend config (ASPClient.make config) now req = inr result
    /\ ArkVerifier.ok result
       = ArkVerifier.validatePaymentFormat (ArkVerifier.spendBlob req) (ArkVerifier.proof req)
    /\ (ArkVerifier.ok result = true ->
        ArkVerifier.actualSats result = Some (ArkVerifier.expectedSats req)
        /\ ArkVerifier.reason result = None
        /\ exists rest, ArkVerifier.settlementRef result = Some ("ark:round:" ++ rest))
    /\ (ArkVerifier.ok result = false ->
        ArkVerifier.actualSats result = None
        /\ ArkVerifier.settlementRef result = None
        /\ ArkVerifier.reason result
           = Some (if truthy_string (ArkVerifier.spendBlob req)
                      && truthy_string (ArkVerifier.proof req)
                   then "invalid_payment_format" else "missing_payment_data")).
Proof.
  unfold ArkVerifier.verifySpend.
  destruct (truthy_string (ArkVerifier.spendBlob req)) eqn:Hspend.
  2:{ apply truthy_string_false in Hspend as ->. cbn [negb orb andb].
      eexists. split; [done|]. by rewrite validatePaymentFormat_empty_l. }
  destruct (truthy_string (ArkVerifier.proof req)) eqn:Hproof.
  2:{ apply truthy_string_false in Hproof as ->. cbn [negb orb andb].
      eexists. split; [done|]. by rewrite validatePaymentFormat_empty_r. }
  cbn [negb orb andb]. destruct config as [mode aspUrl receiverPubkey].
  destruct (ArkVerifier.validatePaymentFormat _ _) eqn:Hformat; cbn [negb].
  - destruct mode; cbn -[String.append];
      (eexists; split; [done|]); cbn -[String.append];
      (split; [done|]); (split; [|done]); intros _;
      (split; [done|]); (split; [done|]); by eexists.
  - destruct mode; (eexists; split; [done|]; by cbn).
Qed.

(** X11.  With the repository's own network client the verifier never
    throws, and it accepts a claim exactly when the spend blob and the proof
    both have at least ten characters, all from the base-64 alphabet; the
    expected amount, the receiver and the network locator play no part.  An
    accepted claim is reported as settled for the full expected amount under
    a reference starting [ark:round:]; a refused one carries the reason
    [missing_payment_data] when the blob or the proof is empty and
    [invalid_payment_format] otherwise. *)
Theorem repository_verifier_checks_the_format_only
  (config : Config) (now : Z) (req : ArkVerifier.VerificationRequest) :
  exists result,
    ArkVerifier.verifySpend config (ASPClient.make config) now req = inr result
    /\ ArkVerifier.ok result
       = (10 <=? String.length (ArkVerifier.spendBlob req))%nat
         && (10 <=? String.length (ArkVerifier.proof req))%nat
         && forallb ArkVerifier.base64_char (list_ascii_of_string (ArkVerifier.spendBlob req))
         && forallb ArkVerifier.base64_char (list_ascii_of_string (ArkVerifier.proof req))
    /\ (ArkVerifier.ok result = true ->
        ArkVerifier.actualSats result = Some (ArkVerifier.expectedSats req)
        /\ exists rest, ArkVerifier.settlementRef result = Some ("ark:round:" ++ rest))
    /\ (ArkVerifier.ok result = false ->
        ArkVerifier.reason result
        = Some (if truthy_string (ArkVerifier.spendBlob req)
                   && truthy_string (ArkVerifier.proof req)
                then "invalid_payment_format" else "missing_payment_data")).
Proof.
  destruct (verifySpend_repository config now req)
    as (result & Hrun & Hok & Haccepted & Hrefused).
  exists result. split; [done|]. split; [|split].
  - by rewrite Hok, validatePaymentFormat_spec.
  - intros Htrue. by destruct (Haccepted Htrue) as (? & _ & ?).
  - intros Hfalse. by destruct (Hrefused Hfalse) as (_ & _ & ?).
Qed.



(** X13.  Under the repository's verifier and client, a payment that a
    settlement records is always recorded as [verified], for exactly the
    price of the quote it names, and with a settlement reference that is not
    empty. *)
Theorem recorded_payment_is_for_the_quoted_price
  (config : Config) (verifiedAt t1 t2 : Z) (payNano jobNano : string)
  (req : Handlers.Request) (w : Handlers.World) (payment : DB.Payment) :
  let verifySpend := ArkVerifier.verifySpend config (ASPClient.make config) verifiedAt in
  DB.getPayment ("pay_" ++ payNano) (Handlers.db w) = None ->
  DB.getPayment ("pay_" ++ payNano)
    (Handlers.db (snd (Handlers.paycall verifySpend t1 t2 payNano jobNano req w)))
  = Some payment ->
  exists quote,
    DB.getQuote (DB.p_quote_id payment) (Handlers.db w) = Some quote
    /\ DB.p_paid_sats payment = DB.q_price_sats quote
    /\ DB.p_status payment = DB.P_verified
    /\ DB.p_ark_ref payment <> "".
Proof.
  intros verifySpend Hfresh. subst verifySpend. unfold Handlers.paycall, DB.getPayment in *.
  destruct (Handlers.paycall_begin t1 req w) as [[reply|s] w1] eqn:Hbegin.
  { apply paycall_begin_replies in Hbegin as (_ & Hp & _). cbn [snd]. congruence. }
  apply paycall_begin_suspends in Hbegin
    as (_ & _ & Hquote & _ & _ & _ & _ & Hprice & ->).
  destruct (verifySpend_repository config verifiedAt (Handlers.s_request s))
    as (result & -> & _ & Haccepted & _).
  destruct (ArkVerifier.ok result) eqn:Hok;
    [|rewrite paycall_resume_rejected by done; cbn; congruence].
  destruct (Haccepted eq_refl) as (Hsats & _ & rest & Href).
  destruct (Handlers.paycall_resume t2 payNano jobNano s (inr result) _)
    as [out w'] eqn:Hresume.
  apply paycall_resume_accepted in Hresume as (_ & Hcases); [|done].
  cbn [Handlers.db snd] in *.
  destruct Hcases as [(e & _ & -> & _)|Hrecorded]; [congruence|].
  destruct Hrecorded as (row & _ & Hrows & Hqid & Hpaid & Hark & Hst & _).
  rewrite Hrows, lookup_insert_eq. intros [= <-].
  exists (Handlers.s_quote s). rewrite Hqid. split; [done|]. split; [|split; [done|]].
  - rewrite Hpaid. unfold Handlers.paid_sats_of. rewrite Hsats, Hprice.
    by destruct (truthy_Q _).
  - rewrite Hark. unfold Handlers.ark_ref_of. by rewrite Href.
Qed.

End Verifier.

(** ** The quote route *)

Section QuoteRoute.

Context `{rt : Runtime}.

Lemma catch_reply_code e :
  Handlers.code (Handlers.catch_reply e) = 400 \/ Handlers.code (Handlers.catch_reply e) = 500.
Proof. destruct e; cbn; auto. Qed.

(** What the issuer does, whatever it is asked. *)
Lemma issuer_cases aspClient now quoteNano nonce req db :
  match QuotesService.createQuote aspClient now quoteNano nonce req db with
  | (Returns quote, db1) =>
      QuotesService.endpoint req <> ""
      /\ DB.getQuote ("q_" ++ quoteNano) db = None
      /\ db1 = DB.set_quotes
                 (insert ("q_" ++ quoteNano)
                    (DB.mkQuote ("q_" ++ quoteNano) (QuotesService.endpoint req)
                       (QuotesService.r_units quote) (QuotesService.r_price_sats quote)
                       (now + 30000) nonce
                       (ASPClient.getReceiverPubkey aspClient)
                       (ASPClient.getAspUrl aspClient) DB.Q_active now)) db
      /\ QuotesService.r_endpoint quote = QuotesService.endpoint req
      /\ QuotesService.r_quote_id quote = "q_" ++ quoteNano
      /\ QuotesService.r_expires_at quote = now + 30000
      /\ QuotesService.r_units quote
         = default {[ "tokens" := 1000%Q ]} (QuotesService.units req)
      /\ QuotesService.r_price_sats quote
         = default Pricing.default (Pricing.PRICING_RULES (QuotesService.endpoint req))
             (QuotesService.r_units quote)
  | (Throws _, db1) => db1 = db
  | (Unmodelled, db1) => db1 = db /\ inherited_name (QuotesService.endpoint req) = true
  end.
Proof.
  unfold QuotesService.createQuote, table_get.
  destruct (truthy_string (QuotesService.endpoint req)) eqn:Hep; cbn [negb]; [|done].
  apply truthy_string_true in Hep.
  destruct (Pricing.PRICING_RULES (QuotesService.endpoint req)) as [rule|] eqn:Hrule.
  - destruct (ASPClient.getCurrentRound aspClient now) as [e|round]; [done|].
    destruct (DB.createQuote _ _ _) as [[e|row] db1] eqn:Hcreate.
    + by apply createQuote_fails in Hcreate as [-> _].
    + apply createQuote_Returns in Hcreate as (Hfresh & _ & -> & ->). by cbn in *.
  - destruct (inherited_name (QuotesService.endpoint req)) eqn:Hinh; [done|].
    destruct (ASPClient.getCurrentRound aspClient now) as [e|round]; [done|].
    destruct (DB.createQuote _ _ _) as [[e|row] db1] eqn:Hcreate.
    + by apply createQuote_fails in Hcreate as [-> _].
    + apply createQuote_Returns in Hcreate as (Hfresh & _ & -> & ->). by cbn in *.
Qed.

Lemma QuoteQuerySchema_parse_endpoint query parsed :
  Handlers.QuoteQuerySchema_parse query = inr parsed ->
  query !! "endpoint" = Some (Handlers.qq_endpoint parsed)
  /\ Handlers.qq_endpoint parsed <> "".
Proof.
  unfold Handlers.QuoteQuerySchema_parse, Handlers.QuoteQuerySchema_issues.
  destruct (query !! "endpoint") as [ep|]; [|done].
  cbn [Handlers.string_min1].
  destruct (truthy_string ep) eqn:Hep; [|done].
  apply truthy_string_true in Hep.
  cbn [Handlers.issue_unless app].
  repeat (destruct (Handlers.coerce_number_optional _); [|done]).
  cbn. by intros [= <-].
Qed.

(** X14.  [GET /v1/quote] answers in one of two ways.  On a [200] the quote
    it sends is the quote it has just stored: an [active] row under the
    returned identifier, for the endpoint of the query, with the returned
    units, price and expiry, thirty seconds ahead; that identifier was free,
    and nothing else in the store has changed.  Every other answer is a [400]
    or a [500] from the [catch] block and leaves the store as it was. *)
Theorem quote_route_stores_what_it_returns
  (aspClient : ASPClient.t) (now : Z) (quoteNano nonce : string)
  (query : gmap string string) (db0 : DB.t) :
  match Handlers.get_quote aspClient now quoteNano nonce query db0 with
  | (Returns (inl quote), db1) =>
      query !! "endpoint" = Some (QuotesService.r_endpoint quote)
      /\ QuotesService.r_expires_at quote = now + 30000
      /\ DB.getQuote (QuotesService.r_quote_id quote) db0 = None
      /\ (exists row,
            DB.getQuote (QuotesService.r_quote_id quote) db1 = Some row
            /\ DB.q_status row = DB.Q_active
            /\ DB.q_endpoint row = QuotesService.r_endpoint quote
            /\ DB.q_units row = QuotesService.r_units quote
            /\ DB.q_price_sats row = QuotesService.r_price_sats quote
            /\ DB.q_expires_at row = QuotesService.r_expires_at quote)
      /\ (forall id, id <> QuotesService.r_quote_id quote ->
            DB.getQuote id db1 = DB.getQuote id db0)
      /\ DB.payments db1 = DB.payments db0 /\ DB.jobs db1 = DB.jobs db0
      /\ DB.idempotency_keys db1 = DB.idempotency_keys db0
  | (Returns (inr reply), db1) =>
      db1 = db0 /\ (Handlers.code reply = 400 \/ Handlers.code reply = 500)
  | (Throws _, _) => False
  | (Unmodelled, db1) => db1 = db0
  end.
Proof.
  unfold Handlers.get_quote.
  destruct (Handlers.QuoteQuerySchema_parse query) as [issues|parsed] eqn:Hparse;
    [by auto|].
  apply QuoteQuerySchema_parse_endpoint in Hparse as [Hep _].
  pose proof (issuer_cases aspClient now quoteNano nonce
                (QuotesService.mkQuoteRequest (Handlers.qq_endpoint parsed)
                   (Handlers.units_or_undefined (Handlers.units_of_query parsed))) db0)
    as Hissue.
  destruct (QuotesService.createQuote _ _ _ _ _ _) as [[quote|e|] db1].
  - destruct Hissue as (_ & Hfresh & -> & Hendpoint & Hid & Hexp & _ & _).
    cbn [QuotesService.endpoint] in *. rewrite Hid, Hendpoint, Hexp.
    unfold DB.getQuote in *. cbn. rewrite lookup_insert_eq.
    repeat split; try done; [eauto 10|].
    intros id Hne. by rewrite lookup_insert_ne.
  - split; [done|]. apply catch_reply_code.
  - by destruct Hissue.
Qed.

Lemma add_unit_zero k n units :
  (n == 0)%Q -> Handlers.add_unit k (Some n) units = Handlers.add_unit k None units.
Proof. intros Hn. cbn. by rewrite (truthy_Q_zero _ Hn). Qed.

(** X15.  A unit count of zero in the query of [GET /v1/quote] is the same
    as no count at all: the answer and the store are those of the query
    without the parameter. *)
Theorem zero_count_is_an_omitted_count
  (aspClient : ASPClient.t) (now : Z) (quoteNano nonce : string)
  (query : gmap string string) (db0 : DB.t) (k text : string) (n : Q) :
  In k count_parameters ->
  string_to_number text = Num n -> (n == 0)%Q ->
  Handlers.get_quote aspClient now quoteNano nonce (<[k := text]> query) db0
  = Handlers.get_quote aspClient now quoteNano nonce (delete k query) db0.
Proof.
  intros Hk Hnum Hzero.
  assert (Hsame :
    match Handlers.QuoteQuerySchema_parse (<[k := text]> query),
          Handlers.QuoteQuerySchema_parse (delete k query) with
    | inl issues, inl issues' => issues = issues'
    | inr parsed, inr parsed' =>
        Handlers.qq_endpoint parsed = Handlers.qq_endpoint parsed'
        /\ Handlers.units_of_query parsed = Handlers.units_of_query parsed'
    | _, _ => False
    end).
  { unfold Handlers.QuoteQuerySchema_parse, Handlers.QuoteQuerySchema_issues.
    cbn in Hk.
    destruct Hk as [<-|[<-|[<-|[<-|[<-|[]]]]]];
      rewrite ?lookup_insert_eq, ?lookup_delete_eq;
      rewrite ?lookup_insert_ne, ?lookup_delete_ne by done;
      cbn [Handlers.coerce_number_optional]; rewrite Hnum;
      (destruct (query !! "endpoint") as [ep|]; [cbn [Handlers.string_min1];
         destruct (truthy_string ep)|]);
      repeat (destruct (Handlers.coerce_number_optional _) as [?|]);
      cbn [Handlers.issue_unless app]; try done;
      (split; [done|]); unfold Handlers.units_of_query;
      cbn [Handlers.qq_tokens Handlers.qq_images Handlers.qq_characters
           Handlers.qq_seconds Handlers.qq_amount];
      by rewrite (add_unit_zero _ _ _ Hzero). }
  unfold Handlers.get_quote.
  destruct (Handlers.QuoteQuerySchema_parse (<[k := text]> query)) as [issues|parsed],
    (Handlers.QuoteQuerySchema_parse (delete k query)) as [issues'|parsed'];
    try done; [by subst|].
  destruct Hsame as [-> ->]. done.
Qed.

(** X16.  A query that names an endpoint and no unit count is quoted for
    the units [{tokens: 1000}], whatever the endpoint: 50 sats for
    [summarize] and for [generate_image], 15 for [translate], 10 for
    [compute], [default] and any endpoint without a rule of its own. *)
Theorem query_without_counts_is_priced_by_default
  (aspClient : ASPClient.t) (now : Z) (quoteNano nonce : string)
  (query : gmap string string) (db0 : DB.t) (endpoint : string)
  (round : ASPClient.RoundInfo) :
  query !! "endpoint" = Some endpoint ->
  endpoint <> "" -> inherited_name endpoint = false ->
  (forall k, In k count_parameters -> query !! k = None) ->
  ASPClient.getCurrentRound aspClient now = inr round ->
  DB.getQuote ("q_" ++ quoteNano) db0 = None ->
  DB.nonce_taken nonce db0 = false ->
  exists quote db1,
    Handlers.get_quote aspClient now quoteNano nonce query db0
    = (Returns (inl quote), db1)
    /\ QuotesService.r_endpoint quote = endpoint
    /\ QuotesService.r_units quote = {[ "tokens" := 1000%Q ]}
    /\ QuotesService.r_price_sats quote
       = (if String.eqb endpoint "summarize" then 50
          else if String.eqb endpoint "generate_image" then 50
          else if String.eqb endpoint "translate" then 15
          else 10)%Q.
Proof.
  intros Hep Hnonempty Hinh Hnone Hround Hfresh Hnonce.
  unfold Handlers.get_quote, Handlers.QuoteQuerySchema_parse,
    Handlers.QuoteQuerySchema_issues.
  rewrite Hep, !Hnone by (cbn; tauto).
  cbn [Handlers.string_min1 Handlers.coerce_number_optional].
  rewrite (truthy_string_nonempty _ Hnonempty).
  cbn [Handlers.issue_unless app Handlers.qq_endpoint].
  change (Handlers.units_or_undefined _) with (@None Pricing.units_t).
  unfold QuotesService.createQuote, table_get. cbn [QuotesService.endpoint QuotesService.units].
  rewrite (truthy_string_nonempty _ Hnonempty), Hround. cbn [negb default].
  unfold DB.createQuote, DB.getQuote in *.
  assert (Hprice :
    default Pricing.default (Pricing.PRICING_RULES endpoint) {[ "tokens" := 1000%Q ]}
    = (if String.eqb endpoint "summarize" then 50
       else if String.eqb endpoint "generate_image" then 50
       else if String.eqb endpoint "translate" then 15
       else 10)%Q).
  { unfold Pricing.PRICING_RULES.
    repeat (destruct (String.eqb endpoint _); [by vm_compute|]). by vm_compute. }
  destruct (Pricing.PRICING_RULES endpoint) as [rule|]; [|rewrite Hinh];
    cbn [DB.q_id DB.q_nonce]; rewrite Hfresh, Hnonce;
    do 2 eexists; (split; [reflexivity|]); by cbn.
Qed.

End QuoteRoute.

(** ** Prices and counts *)

Lemma Math_ceil_nonneg (x : Q) : (0 <= x)%Q -> (0 <= Pricing.Math_ceil x)%Q.
Proof. intros Hx. by apply (Math_ceil_mono 0 x). Qed.

Lemma Math_ceil_nonpos (x : Q) : (x <= 0)%Q -> (Pricing.Math_ceil x <= 0)%Q.
Proof. intros Hx. by apply (Math_ceil_mono x 0). Qed.

Lemma mul_nonneg (a rate : Q) : (0 <= a)%Q -> (0 <= rate)%Q -> (0 <= IEEE.mul a rate)%Q.
Proof. intros Ha Hr. apply fl_nonneg. nra. Qed.

Lemma mul_nonpos (a rate : Q) : (a <= 0)%Q -> (0 <= rate)%Q -> (IEEE.mul a rate <= 0)%Q.
Proof. intros Ha Hr. apply fl_nonpos. nra. Qed.

Lemma div_nonneg (a d : Q) : (0 <= a)%Q -> (0 < d)%Q -> (0 <= IEEE.div a d)%Q.
Proof. intros Ha Hd. apply fl_nonneg. by apply Qle_shift_div_l; [|lra]. Qed.

Lemma div_nonpos (a d : Q) : (a <= 0)%Q -> (0 < d)%Q -> (IEEE.div a d <= 0)%Q.
Proof. intros Ha Hd. apply fl_nonpos. by apply Qle_shift_div_r; [|lra]. Qed.

Lemma charged_nonneg (endpoint : string) (n : Q) :
  (0 <= n)%Q -> (0 <= charged endpoint n)%Q.
Proof.
  intros Hn. unfold charged.
  repeat (destruct (String.eqb endpoint _));
    try apply Math_ceil_nonneg; apply mul_nonneg; try apply div_nonneg;
    first [exact Hn | by vm_compute].
Qed.

Lemma charged_nonpos (endpoint : string) (n : Q) :
  (n <= 0)%Q -> (charged endpoint n <= 0)%Q.
Proof.
  intros Hn. unfold charged.
  repeat (destruct (String.eqb endpoint _));
    try apply Math_ceil_nonpos; apply mul_nonpos; try apply div_nonpos;
    first [exact Hn | by vm_compute].
Qed.

Lemma charged_mono (endpoint : string) (a b : Q) :
  (0 <= a)%Q -> (a <= b)%Q -> (charged endpoint a <= charged endpoint b)%Q.
Proof.
  intros Ha Hab. unfold charged.
  repeat (destruct (String.eqb endpoint _));
    try (apply Math_ceil_mono, per_hundred_mono; [done|done|by vm_compute]);
    (apply mul_mono; [done|done|by vm_compute]).
Qed.

(** A whole unit is never free. *)
Lemma charged_one (endpoint : string) : (0 < charged endpoint 1)%Q.
Proof. unfold charged. repeat (destruct (String.eqb endpoint _)); by vm_compute. Qed.

Lemma charged_default (endpoint : string) :
  (0 < charged endpoint (default_count endpoint))%Q.
Proof.
  unfold charged, default_count.
  repeat (destruct (String.eqb endpoint _)); by vm_compute.
Qed.

Lemma unit_or_given (units : Pricing.units_t) (k : string) (n d : Q) :
  units !! k = Some n -> ~ (n == 0)%Q -> Pricing.unit_or units k d = n.
Proof.
  intros Hk Hn. unfold Pricing.unit_or, truthy_Q. rewrite Hk.
  destruct (Qeq_bool n 0) eqn:E; [|done]. by apply Qeq_bool_eq in E.
Qed.

Lemma unit_or_missing (units : Pricing.units_t) (k : string) (d : Q) :
  units !! k = None \/ (exists n, units !! k = Some n /\ (n == 0)%Q) ->
  Pricing.unit_or units k d = d.
Proof.
  intros [Hk|(n & Hk & Hn)]; unfold Pricing.unit_or; rewrite Hk; [done|].
  by rewrite (truthy_Q_zero _ Hn).
Qed.

(** X17.  The sign of a price follows the sign of the count the rule
    reads, up to the rounding of the arithmetic.  With that count absent or
    zero the price is that of the default count and strictly positive.  A
    positive count is never priced below zero, and from one whole unit on it
    is priced above zero; a negative count, which nothing before the rule
    refuses, is priced at zero or below.  Under [summarize] and [translate]
    there are positive counts quoted for nothing: the smallest positive
    double, divided by 100, rounds to zero. *)
Theorem price_sign_follows_the_count
  (endpoint : string) (rule : Pricing.units_t -> Q) (units : Pricing.units_t) :
  Pricing.PRICING_RULES endpoint = Some rule ->
  let k := Pricing.relevant_unit endpoint in
  (units !! k = None \/ (exists n, units !! k = Some n /\ (n == 0)%Q) ->
   rule units = charged endpoint (default_count endpoint) /\ (0 < rule units)%Q)
  /\ (forall n, units !! k = Some n -> (0 < n)%Q -> (0 <= rule units)%Q)
  /\ (forall n, units !! k = Some n -> (1 <= n)%Q -> (n <= largest_count)%Q ->
        (0 < rule units)%Q /\ (rule units <= IEEE.max_value)%Q)
  /\ (forall n, units !! k = Some n -> (n < 0)%Q -> (rule units <= 0)%Q)
  /\ (endpoint = "summarize" \/ endpoint = "translate" ->
      (0 < IEEE.pow2 (-1074))%Q
      /\ rule (<[k := IEEE.pow2 (-1074)]> units) = 0%Q).
Proof.
  intros Hrule k.
  pose proof (rule_is_charged endpoint rule units Hrule) as Hcharged. fold k in Hcharged.
  split; [|split; [|split; [|split]]].
  - intros Hmissing. rewrite Hcharged, (unit_or_missing _ _ _ Hmissing).
    split; [done|apply charged_default].
  - intros n Hn Hpos. rewrite Hcharged, (unit_or_given _ _ _ _ Hn) by lra.
    apply charged_nonneg. lra.
  - intros n Hn Hone Hrange. rewrite Hcharged, (unit_or_given _ _ _ _ Hn) by lra.
    split.
    + apply Qlt_le_trans with (charged endpoint 1); [apply charged_one|].
      apply charged_mono; lra.
    + apply Qle_trans with (charged endpoint largest_count);
        [apply charged_mono; lra|].
      unfold charged. repeat (destruct (String.eqb endpoint _)); by vm_compute.
  - intros n Hn Hneg. rewrite Hcharged, (unit_or_given _ _ _ _ Hn) by lra.
    apply charged_nonpos. lra.
  - intros Hwhich. split; [by vm_compute|].
    rewrite (rule_is_charged endpoint rule _ Hrule). fold k.
    rewrite unit_or_insert_pos by (by vm_compute).
    by destruct Hwhich as [-> | ->]; vm_compute.
Qed.

(** ** Waiting for a job *)

Section Waiting.

Context `{rt : Runtime}.

Lemma awaitJobResult_skips jobId timeoutMs startTime pending rest :
  Forall (still_running jobId timeoutMs startTime) pending ->
  JobsService.awaitJobResult jobId timeoutMs startTime (pending ++ rest)
  = JobsService.awaitJobResult jobId timeoutMs startTime rest.
Proof.
  induction 1 as [|[now db] pending (Ht & job & Hjob & Hst) _ IH]; [done|].
  cbn [app JobsService.awaitJobResult]. cbn [fst snd] in Ht, Hjob.
  destruct (Z.ltb_spec (now - startTime) timeoutMs); [|lia].
  rewrite Hjob. by destruct Hst as [-> | ->].
Qed.

Lemma executeJob_modelled now jobId db job :
  DB.getJob jobId db = Some job ->
  inherited_name (DB.j_endpoint job) = false ->
  fst (JobsService.executeJob now jobId db) <> Unmodelled.
Proof.
  intros Hjob Hinh. unfold JobsService.executeJob, JobsService.job_failed, table_get.
  rewrite Hjob, Hinh.
  destruct (JobsService.WORKERS (DB.j_endpoint job)) as [worker|]; [|done].
  by destruct (worker now (JSON_parse (DB.j_args_json job))).
Qed.

(** X18.  [executeJob] and [awaitJobResult] agree.  Once a stored job has
    been executed, a caller waiting for it, however many turns of the loop
    found it unfinished before, gets on the first turn after the execution,
    if still within the time allowed, a result with the status that
    [executeJob] returned: for [ok] the worker's result as [JSON.stringify]
    keeps it, for [error] the error message, or [job failed] when the
    message is empty. *)
Theorem awaited_result_is_the_executed_result
  (now : Z) (jobId : string) (db : DB.t) (job : DB.Job)
  (timeoutMs startTime later : Z) (pending more : list (Z * DB.t)) :
  DB.getJob jobId db = Some job ->
  inherited_name (DB.j_endpoint job) = false ->
  Forall (still_running jobId timeoutMs startTime) pending ->
  later - startTime < timeoutMs ->
  exists result db1 awaited,
    JobsService.executeJob now jobId db = (Returns result, db1)
    /\ JobsService.awaitJobResult jobId timeoutMs startTime
         (pending ++ (later, db1) :: more)%list
       = Some (inr awaited)
    /\ JobsService.status awaited = JobsService.status result
    /\ match JobsService.status result with
       | JobsService.S_ok =>
           exists r,
             JobsService.result result = Some r
             /\ JobsService.result awaited
                = Some (match JSON_stringify r with
                        | JUndefined => JobsService.parsed_result (DB.j_result_json job)
                        | text => text
                        end)
       | JobsService.S_error =>
           exists m,
             JobsService.error result = Some m
             /\ JobsService.error awaited
                = Some (if truthy_string m then m else "job failed")
       end.
Proof.
  intros Hjob Hinh Hpending Hlater.
  pose proof (executeJob_job now jobId db job Hjob) as Hrun.
  pose proof (executeJob_modelled now jobId db job Hjob Hinh) as Hmodelled.
  destruct (JobsService.executeJob now jobId db) as [[result|e|] db1];
    [|done|done].
  destruct Hrun as (job1 & Hjob1 & Hrun).
  exists result, db1.
  rewrite (awaitJobResult_skips _ _ _ _ _ Hpending).
  cbn [JobsService.awaitJobResult]. unfold DB.getJob.
  destruct (Z.ltb_spec (later - startTime) timeoutMs); [|lia].
  rewrite Hjob1.
  destruct (JobsService.status result) eqn:Hstatus.
  - destruct Hrun as (-> & (r & Hr & Hjson) & _).
    eexists. split; [done|]. split; [done|]. split; [done|].
    exists r. split; [done|]. cbn [JobsService.result]. rewrite Hjson.
    unfold JobsService.stringified, JSON_parse.
    by destruct (JSON_stringify r).
  - destruct Hrun as (-> & (m & Hm & Herr) & _).
    eexists. split; [done|]. split; [done|]. split; [done|].
    exists m. split; [done|]. cbn [JobsService.error]. by rewrite Herr.
Qed.

End Waiting.

(** ** The demo client against the server *)

Section DemoClient.

Context `{rt : Runtime}.

Lemma begin_reply_not_402 now req w reply w1 :
  Handlers.paycall_begin now req w = (inl reply, w1) ->
  Handlers.code reply <> 402.
Proof.
  unfold Handlers.paycall_begin.
  destruct (Handlers.cached_response now req w); [by intros [= <- <-]|].
  destruct (Handlers.PayCallBodySchema_parse (Handlers.body req)) as [|body];
    [by intros [= <- <-]|].
  destruct (QuotesService.getValidQuote now (Handlers.quote_id body) (Handlers.db w))
    as [[quote|] db1]; [|by intros [= <- <-]].
  destruct (negb _); [by intros [= <- <-]|discriminate].
Qed.

Lemma paycall_begin_claim now req w s w1 :
  Handlers.paycall_begin now req w = (inr s, w1) ->
  ArkVerifier.spendBlob (Handlers.s_request s)
  = Handlers.vtxo_spend (Handlers.ark_payment (Handlers.s_body s))
  /\ ArkVerifier.proof (Handlers.s_request s)
     = Handlers.proof (Handlers.ark_payment (Handlers.s_body s)).
Proof.
  unfold Handlers.paycall_begin.
  destruct (Handlers.cached_response now req w); [discriminate|].
  destruct (Handlers.PayCallBodySchema_parse (Handlers.body req)) as [|body];
    [discriminate|].
  destruct (QuotesService.getValidQuote now (Handlers.quote_id body) (Handlers.db w))
    as [[quote|] db1]; [|discriminate].
  destruct (negb _); [discriminate|]. by intros [= <- <-].
Qed.

Lemma client_body_parses quoteId endpoint fields key :
  quoteId <> "" -> endpoint <> "" ->
  Handlers.PayCallBodySchema_parse
    (Handlers.body (Client.payCall quoteId endpoint (JObj fields) key))
  = inr (Handlers.mkPayCallBody quoteId
           (Handlers.mkArkPayment "ZGVtby12dHhvLXNwZW5kLWRhdGE=" "ZGVtby1wcm9vZi1kYXRh"
              "ark1qdemo12345678")
           (Handlers.mkCallRequest endpoint (JSON_stringify (JObj fields)))).
Proof.
  intros Hq He.
  unfold Client.payCall, Handlers.PayCallBodySchema_parse, Handlers.PayCallBodySchema_issues.
  cbn -[truthy_string].
  by rewrite (truthy_string_nonempty _ Hq), (truthy_string_nonempty _ He).
Qed.

(** X19.  What the demo client posts is what the server expects.  For a
    non-empty quote identifier and endpoint and an object of arguments, the
    body passes [PayCallBodySchema] with those values; the idempotency key
    the handler reads is the key given, or none for an empty one; and the
    payment claim has the format the repository's verifier asks for, so the
    request is never answered [402]. *)
Theorem client_request_is_never_refused_payment
  (config : Config) (verifiedAt t1 t2 : Z) (payNano jobNano quoteId endpoint : string)
  (fields : list (string * jsval)) (key : option string) (w : Handlers.World) :
  quoteId <> "" -> endpoint <> "" ->
  let req := Client.payCall quoteId endpoint (JObj fields) key in
  (exists body,
     Handlers.PayCallBodySchema_parse (Handlers.body req) = inr body
     /\ Handlers.quote_id body = quoteId
     /\ Handlers.endpoint (Handlers.request body) = endpoint
     /\ Handlers.args (Handlers.request body) = JSON_stringify (JObj fields))
  /\ Handlers.idempotencyKey_of req = default "" key
  /\ match fst (Handlers.paycall
                  (ArkVerifier.verifySpend config (ASPClient.make config) verifiedAt)
                  t1 t2 payNano jobNano req w) with
     | Returns reply => Handlers.code reply <> 402
     | _ => True
     end.
Proof.
  intros Hq He req. pose proof (client_body_parses _ _ fields key Hq He) as Hparse.
  fold req in Hparse. split; [eauto 10|]. split.
  { subst req. unfold Client.payCall, Handlers.idempotencyKey_of.
    cbn [Handlers.idempotency_key_header].
    destruct key as [[|c k]|]; done. }
  unfold Handlers.paycall.
  destruct (Handlers.paycall_begin t1 req w) as [[reply|s] w1] eqn:Hbegin.
  { cbn [fst]. by eapply begin_reply_not_402. }
  destruct (paycall_begin_claim _ _ _ _ _ Hbegin) as [Hspend Hproof].
  apply paycall_begin_suspends in Hbegin as (_ & Hbody & _).
  rewrite Hparse in Hbody. injection Hbody as Hbody.
  rewrite <- Hbody in Hspend, Hproof. cbn in Hspend, Hproof.
  destruct (verifySpend_repository config verifiedAt (Handlers.s_request s))
    as (result & -> & Hok & _).
  rewrite Hspend, Hproof in Hok.
  change (ArkVerifier.validatePaymentFormat _ _) with true in Hok.
  destruct (Handlers.paycall_resume t2 payNano jobNano s (inr result) w1)
    as [out w2] eqn:Hresume.
  apply paycall_resume_accepted in Hresume as (_ & Hcases); [|done].
  cbn [fst].
  destruct Hcases as [(e & -> & _)|(payment & _ & _ & _ & _ & _ & _ & _ & Hjob)].
  { destruct (catch_reply_code e) as [Hc|Hc]; rewrite Hc; lia. }
  destruct Hjob as [(e & -> & _)|(job & _ & _ & _ & Hend)].
  { destruct (catch_reply_code e) as [Hc|Hc]; rewrite Hc; lia. }
  destruct Hend as [(_ & -> & _)|[(_ & -> & _)|(_ & res & -> & _)]]; by cbn.
Qed.

End DemoClient.

(** ** The summarize worker *)

Section Workers.

Context `{rt : Runtime}.

(** X20.  The [summarize] worker keeps a third of the words of the text,
    rounded down, and at most fifty, followed by an ellipsis; it counts
    every word as a processed token and reports the lengths of the text and
    of the summary in UTF-16 code units.  A text of fewer than three words
    is therefore summarised to the bare ellipsis, of length 3. *)
Theorem summary_is_a_third_of_the_words
  (now : Z) (fields : list (string * jsval)) (text : string) :
  get_field "text" fields = JStr text -> text <> "" ->
  let words := split_whitespace text in
  exists kept summary,
    JobsService.summarize now (JObj fields)
    = inr (JObj [ ("summary", JStr summary);
                  ("original_length", JobsService.num_of_nat (utf16_length text));
                  ("summary_length", JobsService.num_of_nat (utf16_length summary));
                  ("tokens_processed", JobsService.num_of_nat (List.length words)) ])
    /\ summary = String.concat " " (firstn kept words) ++ "..."
    /\ (kept <= 50)%nat /\ (3 * kept <= List.length words)%nat
    /\ (50 <= kept \/ List.length words < 3 * kept + 3)%nat
    /\ ((List.length words < 3)%nat ->
        summary = "..." /\ utf16_length summary = 3%nat).
Proof.
  intros Htext Hnonempty words.
  unfold JobsService.summarize. cbn [JobsService.with_args prop]. rewrite Htext.
  cbn [truthy]. rewrite (truthy_string_nonempty _ Hnonempty). cbn [negb].
  fold words.
  set (n := Z.of_nat (List.length words)).
  exists (Z.to_nat (Z.min 50 (n / 3))). eexists. split; [reflexivity|].
  split; [reflexivity|].
  assert (Hn : 0 <= n) by lia.
  pose proof (Z.div_mod n 3 ltac:(lia)) as Hdiv.
  pose proof (Z.mod_pos_bound n 3 ltac:(lia)) as Hmod.
  split; [lia|]. split; [lia|]. split; [lia|].
  intros Hfew.
  assert (Hzero : n / 3 = 0) by (apply Z.div_small; lia).
  by rewrite Hzero.
Qed.

End Workers.

(** ** The properties at work on the sample deployment *)

#[local] Existing Instance Sample.runtime.

Lemma overlapping_settlements_both_recorded_witness :
  let srv :=
    Server.run Sample.verifySpend overlapping_settlements (Server.start Sample.world0) in
  exists p1 p2,
    DB.getPayment "pay_P1" (Handlers.db (Server.world srv)) = Some p1
    /\ DB.getPayment "pay_P2" (Handlers.db (Server.world srv)) = Some p2
    /\ DB.p_quote_id p1 = "q_A" /\ DB.p_quote_id p2 = "q_A"
    /\ DB.p_status p1 = DB.P_verified /\ DB.p_status p2 = DB.P_verified.
Proof.
  edestruct (overlapping_settlements_both_recorded (rt := Sample.runtime)
               Sample.verifySpend 1500 1501 2100 2101 "P1" "J1" "P2" "J2"
               (Sample.settle_request None) (Sample.settle_request None) Sample.world0)
    as (p1 & p2 & Hp1 & Hp2 & Hq1 & Hq2 & Hs1 & Hs2);
    try (vm_compute; reflexivity); [discriminate|].
  exists p1, p2. repeat split; assumption.
Defined.

(** On the overlapping schedule both requests are answered [200]. *)
Lemma overlapping_settlements_both_answered_200 :
  let srv :=
    Server.run Sample.verifySpend overlapping_settlements (Server.start Sample.world0) in
  map (fun r => (fst r, Server.succeeded (snd r))) (Server.replies srv)
  = [ (1%nat, true); (2%nat, true) ]
  /\ length (Server.payments_for "q_A" (Handlers.db (Server.world srv))) = 2%nat.
Proof. by vm_compute. Qed.

(** The settled quote of the sample, looked at after its expiry. *)
Lemma getValidQuote_expires_a_used_quote_witness :
  DB.q_status <$> DB.getQuote "q_A" (Handlers.db Sample.settled) = Some DB.Q_used
  /\ DB.q_status
       <$> DB.getQuote "q_A"
             (snd (QuotesService.getValidQuote 40000 "q_A" (Handlers.db Sample.settled)))
     = Some DB.Q_expired.
Proof.
  split; [by vm_compute|].
  eapply (getValidQuote_expires_a_used_quote 40000 "q_A" (Handlers.db Sample.settled));
    vm_compute; reflexivity.
Defined.

Lemma cached_response_is_replayed_witness :
  exists entry,
    DB.idempotency_keys (Handlers.db Sample.settled) !! "k1" = Some entry
    /\ Handlers.paycall Sample.verifySpend 3000 3100 "P2" "J2"
         (Handlers.mkRequest (Some "k1") JNull) Sample.settled
       = (Returns (Handlers.mkReply 200 (JSON_parse (DB.k_response_json entry))),
          Sample.settled).
Proof.
  eexists. split; [vm_compute; reflexivity|].
  apply (cached_response_is_replayed (rt := Sample.runtime));
    [discriminate | vm_compute; reflexivity | vm_compute; reflexivity].
Defined.

Lemma rejected_payment_changes_nothing_witness :
  exists w',
    Handlers.paycall Sample.verifySpend 1500 2100 "P" "J"
      Sample.short_payment_request Sample.world0
    = (Returns (Handlers.mkReply 402
                  (JObj [ ("error", JStr "payment_invalid");
                          ("details", JStr "invalid_payment_format") ])), w')
    /\ Handlers.db w' = Handlers.db Sample.world0.
Proof.
  edestruct (rejected_payment_changes_nothing (rt := Sample.runtime)
               Sample.verifySpend 1500 2100 "P" "J"
               Sample.short_payment_request Sample.world0)
    as (w' & Hreply & Hdb & _); [vm_compute; reflexivity ..|].
  exists w'. split; [exact Hreply | exact Hdb].
Defined.

Lemma endpoint_mismatch_precedes_verification_witness :
  Handlers.paycall Sample.verifySpend 1500 2100 "P" "J"
    Sample.other_endpoint_request Sample.world0
  = (Returns (Handlers.mkReply 400
                (JObj [ ("error", JStr "endpoint_mismatch");
                        ("message", JStr "Request endpoint does not match quote") ])),
     Sample.world0).
Proof.
  edestruct (endpoint_mismatch_precedes_verification (rt := Sample.runtime)
               Sample.verifySpend 1500 2100 "P" "J"
               Sample.other_endpoint_request Sample.world0)
    as [_ Hreply];
    [vm_compute; reflexivity | vm_compute; reflexivity | vm_compute; discriminate |].
  apply Hreply; [vm_compute; reflexivity | vm_compute; reflexivity | vm_compute; discriminate].
Defined.

Lemma payment_falls_back_to_quote_price_witness :
  exists payment,
    DB.getPayment "pay_P"
      (Handlers.db (snd (Handlers.paycall Sample.terse_verifier 1500 2100 "P" "J"
                           (Sample.settle_request None) Sample.world0)))
    = Some payment
    /\ DB.p_paid_sats payment = 20%Q
    /\ DB.p_ark_ref payment = "".
Proof.
  edestruct (payment_falls_back_to_quote_price (rt := Sample.runtime)
               Sample.terse_verifier 1500 2100 "P" "J"
               (Sample.settle_request None) Sample.world0)
    as (payment & Hrow & _ & _ & Hpaid & Href); [vm_compute; reflexivity ..|].
  exists payment. split; [exact Hrow|]. split.
  - apply Hpaid. intros a Ha. discriminate Ha.
  - apply Href. reflexivity.
Defined.

Lemma failed_job_is_not_cached_witness :
  exists job,
    DB.getJob "job_J"
      (Handlers.db (snd (Handlers.paycall Sample.verifySpend 1500 2100 "P" "J"
                           Sample.no_operation_request Sample.world0)))
    = Some job
    /\ DB.j_status job = DB.J_failed
    /\ fst (Handlers.paycall Sample.verifySpend 1500 2100 "P" "J"
              Sample.no_operation_request Sample.world0)
       = Returns (Handlers.mkReply 500
                    (JObj [ ("error", JStr "job_execution_failed");
                            ("message", JStr "operation is required") ]))
    /\ DB.idempotency_keys
         (Handlers.db (snd (Handlers.paycall Sample.verifySpend 1500 2100 "P" "J"
                              Sample.no_operation_request Sample.world0)))
       = DB.idempotency_keys (Handlers.db Sample.world0).
Proof.
  pose proof (proj1 (failed_job_is_not_cached (rt := Sample.runtime)
                       Sample.verifySpend 1500 2100 "P" "J"
                       Sample.no_operation_request Sample.world0
                       ltac:(vm_compute; reflexivity))) as Hfailed.
  edestruct Hfailed as [Hreply Hkeys]; [vm_compute; reflexivity ..|].
  eexists. split; [vm_compute; reflexivity|]. split; [reflexivity|].
  split; [exact Hreply | exact Hkeys].
Defined.

Lemma createQuote_waits_for_the_round_witness :
  exists response db' quote,
    QuotesService.createQuote Sample.aspClient 1000 "A" "nonceA"
      (QuotesService.mkQuoteRequest "compute" (Some {[ "seconds" := 2%Q ]})) DB.empty
    = (Returns response, db')
    /\ DB.getQuote "q_A" db' = Some quote
    /\ DB.q_status quote = DB.Q_active
    /\ DB.q_expires_at quote = 31000.
Proof.
  pose proof (createQuote_waits_for_the_round Sample.aspClient 1000 "A" "nonceA"
                (QuotesService.mkQuoteRequest "compute" (Some {[ "seconds" := 2%Q ]}))
                DB.empty ltac:(discriminate) ltac:(vm_compute; reflexivity)
                ltac:(vm_compute; reflexivity) ltac:(vm_compute; reflexivity)) as Hissue.
  hnf in Hissue.
  destruct Hissue as (response & db' & quote & Hcreate & _ & _ & Hq & Hs & _ & Hexp & _).
  exists response, db', quote. repeat split; assumption.
Defined.

Lemma compute_without_value_completes_witness :
  exists result job1,
    fst (JobsService.executeJob 2000 "job_S" Sample.store_with_job)
    = Returns (JobsService.mkJobResult JobsService.S_ok (Some result) None)
    /\ prop result "output" = JNum NaN
    /\ DB.getJob "job_S" (snd (JobsService.executeJob 2000 "job_S" Sample.store_with_job))
       = Some job1
    /\ DB.j_status job1 = DB.J_completed.
Proof.
  edestruct (compute_without_value_completes (rt := Sample.runtime)
               2000 "job_S" Sample.store_with_job)
    as [Hcompute _]; [vm_compute; reflexivity ..|].
  destruct Hcompute as (result & job1 & Hres & Hout & Hjob & Hstatus & _).
  { split; [vm_compute; reflexivity|]. split; [vm_compute; reflexivity|].
    split; [left; reflexivity | vm_compute; reflexivity]. }
  exists result, job1. repeat split; assumption.
Defined.

(** ** Further properties at work on the sample deployment *)

Lemma idempotency_entry_round_trip_witness :
  DB.getIdempotencyKey 5000 "k" (DB.setIdempotencyKey 1000 "k" (JStr "first") 120 DB.empty)
  = Some (JStr "first").
Proof.
  exact (proj1 (idempotency_entry_round_trip 1000 5000 "k" "other"
                  (JStr "first") (JStr "second") 120 DB.empty
                  ltac:(lia) ltac:(discriminate))).
Defined.

(** The entry of the settled sample expires at [122100]; it is served up to
    the last millisecond of that UTC day and no longer at midnight. *)
Lemma expired_entry_is_served_until_midnight_witness :
  exists entry,
    DB.idempotency_keys (Handlers.db Sample.settled) !! "k1" = Some entry
    /\ DB.k_expires_at entry = 122100
    /\ DB.getIdempotencyKey 86399999 "k1" (Handlers.db Sample.settled)
       = Some (DB.k_response_json entry)
    /\ DB.getIdempotencyKey 86400000 "k1" (Handlers.db Sample.settled) = None.
Proof.
  eexists. split; [vm_compute; reflexivity|]. split; [vm_compute; reflexivity|].
  pose proof (expired_entry_is_served_until_midnight (rt := Sample.runtime)
                Sample.verifySpend "k1" (Handlers.db Sample.settled) _
                ltac:(vm_compute; reflexivity)) as Hserved.
  cbv zeta in Hserved. destruct Hserved as (_ & Hbefore & Hafter & _).
  split; [apply Hbefore | apply Hafter]; vm_compute; [reflexivity|discriminate].
Defined.

Lemma cleanup_is_invisible_to_later_requests_witness :
  DB.getIdempotencyKey 200000 "k1"
    (QuotesService.cleanupExpired 150000 (Handlers.db Sample.settled))
  = DB.getIdempotencyKey 200000 "k1" (Handlers.db Sample.settled).
Proof.
  exact (proj1 (cleanup_is_invisible_to_later_requests 150000 200000 "k1"
                  (Handlers.db Sample.settled) ltac:(lia))).
Defined.

(** The store of the sample keeps its integrity through the overlapping
    schedule. *)
Lemma store_integrity_is_kept_witness :
  store_ok (Handlers.db Sample.world0)
  /\ store_ok (Handlers.db (Server.world
                 (Server.run Sample.verifySpend overlapping_settlements
                    (Server.start Sample.world0)))).
Proof.
  assert (Hissued : store_ok (Handlers.db Sample.world0)).
  { exact (proj1 (proj2 (store_integrity_is_kept (rt := Sample.runtime)
                           Sample.verifySpend [] (Server.start (Handlers.mkWorld DB.empty []))
                           Sample.aspClient 1000 "A" "nonceA"
                           (QuotesService.mkQuoteRequest "compute"
                              (Some {[ "seconds" := 2%Q ]}))
                           store_ok_empty))). }
  split; [exact Hissued|].
  exact (proj1 (store_integrity_is_kept (rt := Sample.runtime)
                  Sample.verifySpend overlapping_settlements (Server.start Sample.world0)
                  Sample.aspClient 1000 "A" "nonceA"
                  (QuotesService.mkQuoteRequest "compute" None) Hissued)).
Defined.

(** The settled quote of the sample is refused on a second attempt. *)
Lemma refusals_before_verification_witness :
  Handlers.paycall Sample.verifySpend 3000 3100 "P2" "J2"
    (Sample.settle_request None) Sample.settled
  = (Returns Handlers.quote_conflict, Sample.settled).
Proof.
  pose proof (refusals_before_verification (rt := Sample.runtime)
                Sample.verifySpend 3000 3100 "P2" "J2"
                (Sample.settle_request None) Sample.settled
                ltac:(vm_compute; reflexivity)) as Hrefused.
  vm_compute in Hrefused. destruct Hrefused as [_ Hrefused].
  vm_compute. apply Hrefused; discriminate.
Defined.


Lemma endpoint_without_worker_is_paid_for_witness :
  fst (Handlers.paycall Sample.verifySpend 1500 2100 "P" "J"
         unserved_request unserved_world)
  = Returns (Handlers.mkReply 500
               (JObj [ ("error", JStr "job_execution_failed");
                       ("message", JStr "no worker for endpoint: default") ]))
  /\ DB.q_status
       <$> DB.getQuote "q_D"
             (Handlers.db (snd (Handlers.paycall Sample.verifySpend 1500 2100 "P" "J"
                                  unserved_request unserved_world)))
     = Some DB.Q_used.
Proof.
  edestruct (endpoint_without_worker_is_paid_for (rt := Sample.runtime)
               Sample.verifySpend 1500 2100 "P" "J" unserved_request unserved_world)
    as (Hreply & _ & Hquote & _); [vm_compute; reflexivity ..|].
  split; [exact Hreply | exact Hquote].
Defined.


Lemma recorded_payment_is_for_the_quoted_price_witness :
  exists payment quote,
    DB.getPayment "pay_P" (Handlers.db Sample.settled) = Some payment
    /\ DB.getQuote "q_A" (Handlers.db Sample.world0) = Some quote
    /\ DB.p_paid_sats payment = DB.q_price_sats quote.
Proof.
  edestruct (recorded_payment_is_for_the_quoted_price (rt := Sample.runtime)
               Sample.config 2000 1500 2100 "P" "J"
               (Sample.settle_request (Some "k1")) Sample.world0)
    as (quote & Hquote & Hpaid & _); [vm_compute; reflexivity ..|].
  do 2 eexists. split; [|split; [exact Hquote | exact Hpaid]].
  vm_compute; reflexivity.
Defined.

(** [GET /v1/quote?endpoint=summarize&tokens=0] *)
Lemma zero_count_is_an_omitted_count_witness :
  Handlers.get_quote (H := decimal_runtime) Sample.aspClient 1000 "Z" "nonceZ"
    (<[ "tokens" := "0" ]> {[ "endpoint" := "summarize" ]}) DB.empty
  = Handlers.get_quote (H := decimal_runtime) Sample.aspClient 1000 "Z" "nonceZ"
      (delete "tokens" {[ "endpoint" := "summarize" ]}) DB.empty.
Proof.
  apply (zero_count_is_an_omitted_count (rt := decimal_runtime)
           Sample.aspClient 1000 "Z" "nonceZ" {[ "endpoint" := "summarize" ]} DB.empty
           "tokens" "0" 0%Q);
    [left; reflexivity | vm_compute; reflexivity | reflexivity].
Defined.

(** [GET /v1/quote?endpoint=compute] *)
Lemma query_without_counts_is_priced_by_default_witness :
  exists quote db1,
    Handlers.get_quote Sample.aspClient 1000 "B" "nonceB"
      {[ "endpoint" := "compute" ]} (Handlers.db Sample.world0)
    = (Returns (inl quote), db1)
    /\ QuotesService.r_units quote = {[ "tokens" := 1000%Q ]}
    /\ QuotesService.r_price_sats quote = 10%Q.
Proof.
  edestruct (query_without_counts_is_priced_by_default (rt := Sample.runtime)
               Sample.aspClient 1000 "B" "nonceB" {[ "endpoint" := "compute" ]}
               (Handlers.db Sample.world0) "compute")
    as (quote & db1 & Hrun & _ & Hunits & Hprice);
    [ vm_compute; reflexivity
    | discriminate
    | vm_compute; reflexivity
    | intros k Hk; cbn in Hk;
      destruct Hk as [<-|[<-|[<-|[<-|[<-|[]]]]]]; vm_compute; reflexivity
    | vm_compute; reflexivity
    | vm_compute; reflexivity
    | vm_compute; reflexivity
    | ].
  exists quote, db1. split; [exact Hrun|]. split; [exact Hunits | exact Hprice].
Defined.

Lemma price_sign_follows_the_count_witness :
  (0 < Pricing.compute {[ "seconds" := 2%Q ]})%Q
  /\ (Pricing.compute {[ "seconds" := (-5)%Q ]} <= 0)%Q
  /\ Pricing.summarize (<[ "tokens" := IEEE.pow2 (-1074) ]> ∅) = 0%Q.
Proof.
  split; [|split].
  - pose proof (price_sign_follows_the_count "compute" Pricing.compute
                  {[ "seconds" := 2%Q ]} eq_refl) as Hsign.
    cbv zeta in Hsign. destruct Hsign as (_ & _ & Hwhole & _).
    apply (Hwhole 2%Q); vm_compute; first [reflexivity | discriminate].
  - pose proof (price_sign_follows_the_count "compute" Pricing.compute
                  {[ "seconds" := (-5)%Q ]} eq_refl) as Hsign.
    cbv zeta in Hsign. destruct Hsign as (_ & _ & _ & Hnegative & _).
    apply (Hnegative (-5)%Q); vm_compute; reflexivity.
  - pose proof (price_sign_follows_the_count "summarize" Pricing.summarize
                  ∅ eq_refl) as Hsign.
    cbv zeta in Hsign. destruct Hsign as (_ & _ & _ & _ & Hfree).
    apply Hfree. left; reflexivity.
Defined.

(** A caller that found the sample job queued at [2050] gets its result at
    [2100], after the execution. *)
Lemma awaited_result_is_the_executed_result_witness :
  exists result awaited,
    fst (JobsService.executeJob 2000 "job_S" Sample.store_with_job) = Returns result
    /\ JobsService.awaitJobResult "job_S" 30000 2000
         [ (2050, Sample.store_with_job);
           (2100, snd (JobsService.executeJob 2000 "job_S" Sample.store_with_job)) ]
       = Some (inr awaited)
    /\ JobsService.status awaited = JobsService.status result.
Proof.
  edestruct (awaited_result_is_the_executed_result (rt := Sample.runtime)
               2000 "job_S" Sample.store_with_job Sample.square_of_nothing
               30000 2000 2100 [ (2050, Sample.store_with_job) ] [])
    as (result & db1 & awaited & Hrun & Hawait & Hstatus & _);
    [ vm_compute; reflexivity
    | vm_compute; reflexivity
    | constructor; [|constructor]; split; [cbn; lia|];
      exists Sample.square_of_nothing; split; [vm_compute; reflexivity | left; reflexivity]
    | lia
    | ].
  exists result, awaited. rewrite Hrun. cbn [fst snd app] in *.
  split; [reflexivity|]. split; [exact Hawait | exact Hstatus].
Defined.

Lemma client_request_is_never_refused_payment_witness :
  match fst (Handlers.paycall Sample.verifySpend 1500 2100 "P" "J"
               (Client.payCall "q_A" "compute" Sample.square_10 (Some "k1"))
               Sample.world0) with
  | Returns reply => Handlers.code reply <> 402
  | _ => True
  end.
Proof.
  pose proof (client_request_is_never_refused_payment (rt := Sample.runtime)
                Sample.config 2000 1500 2100 "P" "J" "q_A" "compute"
                [ ("operation", JStr "square"); ("value", JNum (Num 10)) ]
                (Some "k1") Sample.world0
                ltac:(discriminate) ltac:(discriminate)) as Hclient.
  cbv zeta in Hclient. exact (proj2 (proj2 Hclient)).
Defined.

(** Two words with non-ASCII letters: twelve bytes, ten UTF-16 units. *)
Lemma summary_is_a_third_of_the_words_witness :
  JobsService.summarize 2000 (JObj [ ("text", JStr "café crème") ])
  = inr (JObj [ ("summary", JStr "...");
                ("original_length", JobsService.num_of_nat 10);
                ("summary_length", JobsService.num_of_nat 3);
                ("tokens_processed", JobsService.num_of_nat 2) ]).
Proof.
  edestruct (summary_is_a_third_of_the_words (rt := Sample.runtime)
               2000 [ ("text", JStr "café crème") ] "café crème"
               eq_refl ltac:(discriminate))
    as (kept & summary & Hrun & _ & _ & _ & _ & Hshort).
  destruct (Hshort ltac:(vm_compute; lia)) as [-> _].
  rewrite Hrun. reflexivity.
Defined.

(** The nonce of the first quote cannot be used again after the quote has
    been used and a day has passed. *)
Lemma issued_quote_stays_taken_witness :
  exists e,
    DB.createQuote 5000000 replayed_nonce
      (fold_left execute [ UseQuote "q_A"; DeleteExpiredKeys 90000000;
                           ExpireDueQuotes 90000000 ]
         (snd (DB.createQuote 1000 first_quote DB.empty)))
    = (inl e,
       fold_left execute [ UseQuote "q_A"; DeleteExpiredKeys 90000000;
                           ExpireDueQuotes 90000000 ]
         (snd (DB.createQuote 1000 first_quote DB.empty))).
Proof.
  destruct (DB.createQuote 1000 first_quote DB.empty) as [[e|row] db1] eqn:Hfirst;
    [vm_compute in Hfirst; discriminate Hfirst|].
  cbn [snd].
  apply (issued_quote_stays_taken 1000 5000000 first_quote replayed_nonce row
           DB.empty db1 _ Hfirst).
  right; reflexivity.
Defined.
